(** * FabEdge: operator options, connector manager and agent certificates

    A shallow embedding of
    - [pkg/operator/options.go]  ([Options.AddFlags], [Options.Validate],
      [Options.Complete], [Options.RunManager],
      [Options.initializeControllers], [Options.recordEndpoints],
      [Options.recordIPAMBlocks], [Options.initAPIClient],
      [Options.createTLSSecretForClient]),
    - the connector [Manager] ([Manager.Start] and its periodic tasks,
      [Manager.gracefulShutdown]),
    - the agent certificate handler as its test suite exercises it,
    together with the properties the design document states about them. *)

From Stdlib Require Import ZArith List String Ascii Bool Lia.
From Stdlib Require Import Floats.SpecFloat.
From stdpp Require Import base option gmap strings list.

Local Open Scope string_scope.
Local Open Scope Z_scope.

(* ===================================================================== *)
(** * Go's [regexp]: the fragment [dns1123Reg] is written in              *)
(* ===================================================================== *)

Module Regexp.

(** Syntax trees of the operators the pattern uses: bracket classes made of
    ranges, literals, concatenation, [( )?] and [( )*]. *)
Inductive regex : Type :=
| Void
| Eps
| Lit (c : ascii)
| Class (ranges : list (ascii * ascii))
| Cat (r1 r2 : regex)
| Quest (r : regex)
| Star (r : regex).

Definition code (c : ascii) : N := N_of_ascii c.

Definition in_range (c : ascii) (rg : ascii * ascii) : bool :=
  (code (fst rg) <=? code c)%N && (code c <=? code (snd rg))%N.

Definition in_class (ranges : list (ascii * ascii)) (c : ascii) : bool :=
  existsb (in_range c) ranges.

Fixpoint nullable (r : regex) : bool :=
  match r with
  | Void => false
  | Eps => true
  | Lit _ => false
  | Class _ => false
  | Cat r1 r2 => nullable r1 && nullable r2
  | Quest _ => true
  | Star _ => true
  end.

(** Smart constructors keep derivatives of [Void] from piling up. *)
Definition cat (r1 r2 : regex) : regex :=
  match r1, r2 with
  | Void, _ => Void
  | _, Void => Void
  | Eps, _ => r2
  | _, _ => Cat r1 r2
  end.

(** Partial derivatives: the matcher state is the list of expressions that
    may still match the rest of the text. *)
Fixpoint deriv (c : ascii) (r : regex) : list regex :=
  match r with
  | Void => []
  | Eps => []
  | Lit d => if Ascii.eqb c d then [Eps] else []
  | Class rs => if in_class rs c then [Eps] else []
  | Cat r1 r2 =>
      List.map (fun d => cat d r2) (deriv c r1)
      ++ (if nullable r1 then deriv c r2 else [])
  | Quest r1 => deriv c r1
  | Star r1 => List.map (fun d => cat d (Star r1)) (deriv c r1)
  end.

Definition step (c : ascii) (rs : list regex) : list regex :=
  List.flat_map (deriv c) rs.

Fixpoint run (rs : list regex) (s : list ascii) : bool :=
  match s with
  | [] => existsb nullable rs
  | c :: s' => run (step c rs) s'
  end.

(** [matches r s]: the whole of [s] is in the language of [r]. *)
Definition matches (r : regex) (s : list ascii) : bool := run [r] s.

(** A pattern of the form [^body$] (no flags): [MatchString] holds exactly
    when the whole text is matched by [body]; Go's [$] without the [m] flag
    is end of text. *)
Definition MatchString (body : regex) (s : string) : bool :=
  matches body (list_ascii_of_string s).

(** Denotation of a syntax tree, the reference the matcher is checked
    against. *)
Inductive lang : regex -> list ascii -> Prop :=
| L_Eps : lang Eps []
| L_Lit c : lang (Lit c) [c]
| L_Class rs c : in_class rs c = true -> lang (Class rs) [c]
| L_Cat r1 r2 s1 s2 : lang r1 s1 -> lang r2 s2 -> lang (Cat r1 r2) (s1 ++ s2)
| L_QuestNone r : lang (Quest r) []
| L_QuestSome r s : lang r s -> lang (Quest r) s
| L_StarNil r : lang (Star r) []
| L_StarCons r s1 s2 :
    lang r s1 -> lang (Star r) s2 -> lang (Star r) (s1 ++ s2).

End Regexp.

(* ===================================================================== *)
(** * RFC 1123 names                                                      *)
(* ===================================================================== *)

Module DNS1123.
Import Regexp.

Local Open Scope char_scope.

(** [dns1123Reg] of options.go:
    [^[a-z0-9]([-a-z0-9]*[a-z0-9])?(\.[a-z0-9]([-a-z0-9]*[a-z0-9])?)*$] *)
Definition alnumClass : regex := Class [("a", "z"); ("0", "9")].
Definition ldhClass : regex := Class [("-", "-"); ("a", "z"); ("0", "9")].
Definition labelReg : regex :=
  Cat alnumClass (Quest (Cat (Star ldhClass) alnumClass)).
Definition dns1123Reg : regex :=
  Cat labelReg (Star (Cat (Lit ".") labelReg)).

(** The shapes RFC 1123 talks about, written without regular expressions. *)
Definition is_alnum (c : ascii) : bool :=
  in_range c ("a", "z") || in_range c ("0", "9").

Definition is_ldh (c : ascii) : bool := Ascii.eqb c "-" || is_alnum c.

(** A label: letters, digits and hyphens, starting and ending with a letter
    or digit. *)
Definition label_shape (l : list ascii) : bool :=
  match l with
  | [] => false
  | c :: t => is_alnum c && forallb is_ldh t && is_alnum (List.last t c)
  end.

(** An RFC 1123 label is a label shape of at most 63 characters. *)
Definition IsDNS1123Label (s : string) : bool :=
  label_shape (list_ascii_of_string s) && (String.length s <=? 63)%nat.

(** [split_dots s] cuts [s] at every dot, as [strings.Split(s, ".")]. *)
Fixpoint split_dots (s : list ascii) : list (list ascii) :=
  match s with
  | [] => [[]]
  | c :: t =>
      if Ascii.eqb c "." then [] :: split_dots t
      else match split_dots t with
           | h :: r => (c :: h) :: r
           | [] => [[c]]
           end
  end.

(** A dotted name: one or more label shapes separated by single dots, of any
    length. *)
Definition dotted_name_shape (l : list ascii) : bool :=
  forallb label_shape (split_dots l).

Definition IsDottedName (s : string) : bool :=
  dotted_name_shape (list_ascii_of_string s).

End DNS1123.

(* ===================================================================== *)
(** * float64 and time.Duration                                           *)
(* ===================================================================== *)

Module Float64.

(** IEEE 754 binary64, through the Standard Library's executable
    specification of floating-point numbers. *)
Definition prec : Z := 53.
Definition emax : Z := 1024.

Definition float64 : Type := spec_float.

Definition int64_min : Z := - 2 ^ 63.
Definition int64_max : Z := 2 ^ 63 - 1.

Definition in_int64 (z : Z) : bool := (int64_min <=? z) && (z <=? int64_max).

(** [float64(n)] for an integer [n]: round to nearest, ties to even. *)
Definition of_int64 (n : Z) : float64 := binary_normalize prec emax n 0 false.

Definition mul (x y : float64) : float64 := SFmul prec emax x y.

(** The untyped constant [1.2] converted to float64:
    0x3FF3333333333333 = 5404319552844595 * 2^-52. *)
Definition const_1_2 : float64 := S754_finite false 5404319552844595 (-52).

(** Conversion of a float64 to int64 discards the fraction (truncation
    towards zero). When the value does not fit, Go leaves the result to the
    implementation; [out_of_range] is that result. *)
Definition to_int64 (out_of_range : Z) (f : float64) : Z :=
  match f with
  | S754_zero _ => 0
  | S754_finite s m e =>
      let mag := if (0 <=? e) then Z.pos m * 2 ^ e else Z.pos m / 2 ^ (- e) in
      let v := if s then - mag else mag in
      if in_int64 v then v else out_of_range
  | S754_infinity _ => out_of_range
  | S754_nan => out_of_range
  end.

End Float64.

Module Duration.

(** [time.Duration] is an int64 count of nanoseconds. *)
Definition Nanosecond : Z := 1.
Definition Millisecond : Z := 1000000.
Definition Second : Z := 1000000000.

End Duration.

(* ===================================================================== *)
(** * Go conventions shared by the three components                       *)
(* ===================================================================== *)

Module Go.

(** A Go [error] value is represented by its message. *)
Definition error : Type := string.

(** A call returning [(value, error)]: either the value with a nil error, or
    an error. *)
Inductive Result (A : Type) : Type :=
| Val (a : A)
| Fail (e : error).
Arguments Val {A} a.
Arguments Fail {A} e.

(** A line written through klog or logr. *)
Inductive Level : Type := LvlInfo | LvlError.
Record LogEntry : Type := mkLog { logLevel : Level; logMsg : string; logErr : option error }.

Definition logError (e : error) (msg : string) : LogEntry := mkLog LvlError msg (Some e).
Definition logErrorf (msg : string) (e : error) : LogEntry := mkLog LvlError msg (Some e).
Definition logInfo (msg : string) : LogEntry := mkLog LvlInfo msg None.

End Go.

(* ===================================================================== *)
(** * Package net, as far as the operator uses it                          *)
(* ===================================================================== *)

Module GoNet.
Import Go.

(** [net.ParseCIDR] and the [Contains] method of [net.IPNet]. [ParseCIDR s] answers with
    the address written in [s] and the network it denotes. *)
Class NetLib : Type := {
  IP : Type;
  IPNet : Type;
  ParseCIDR : string -> Result (IP * IPNet);
  Contains : IPNet -> IP -> bool
}.

(** Two networks overlap when some address lies in both. *)
Definition overlaps `{NetLib} (n1 n2 : IPNet) : Prop :=
  exists x : IP, Contains n1 x = true /\ Contains n2 x = true.

End GoNet.

(* ===================================================================== *)
(** * pkg/operator: options.go                                            *)
(* ===================================================================== *)

Module Operator.
Import Go GoNet.

Definition RoleHost : string := "host".
Definition RoleMember : string := "member".
Definition ClientTLSSecretName : string := "api-client-tls".

(** constants.CNICalico, constants.CNIFlannel *)
Definition CNICalico : string := "calico".
Definition CNIFlannel : string := "flannel".

(** corev1.PullAlways, corev1.PullIfNotPresent, corev1.PullNever *)
Definition PullAlways : string := "Always".
Definition PullIfNotPresent : string := "IfNotPresent".
Definition PullNever : string := "Never".

(** The two kinds of tunnel endpoint. *)
Inductive EndpointType : Type := TypeEdgeNode | TypeConnector.

(** Modelled from the spec: types.Endpoint is declared outside options.go;
    the design document gives a tunnel endpoint a name, an id, public
    addresses, pod subnets, node subnets and a type. *)
Record Endpoint : Type := mkEndpoint {
  epName : string;
  epID : string;
  epPublicAddresses : list string;
  epSubnets : list string;
  epNodeSubnets : list string;
  epType : EndpointType
}.

(** types.Community{Name, Members}: a named set of endpoint names. *)
Record Community : Type := mkCommunity {
  cmName : string;
  cmMembers : gset string
}.

(** Modelled from the spec: the store package is outside options.go; the
    design document describes the EndpointStore as a registry of endpoints
    keyed by endpoint name together with the communities keyed by name, so
    saving writes the entry under its name. *)
Record EndpointStore : Type := mkStore {
  stEndpoints : gmap string Endpoint;
  stCommunities : gmap string Community
}.

Definition NewStore : EndpointStore := mkStore ∅ ∅.

Definition SaveEndpoint (ep : Endpoint) (st : EndpointStore) : EndpointStore :=
  mkStore (<[epName ep := ep]> (stEndpoints st)) (stCommunities st).

Definition SaveCommunity (c : Community) (st : EndpointStore) : EndpointStore :=
  mkStore (stEndpoints st) (<[cmName c := c]> (stCommunities st)).

(** apis.Community as listed from the cluster: a name and Spec.Members. *)
Record CommunityObject : Type := mkCommunityObject {
  coName : string;
  coMembers : list string
}.

(** How pod CIDRs of a node are obtained (types.PodCIDRsGetter): one of the
    three functions [Complete] chooses from. *)
Inductive PodCIDRsGetter : Type :=
| GetPodCIDRsFromAnnotation
| GetPodCIDRs
| GetFromPodCIDRStore.

(** What [os.Stat] answers for a path. *)
Inductive StatResult : Type :=
| StatFile
| StatDir
| StatNotExist
| StatOtherError.

(** manager.Options, the fields options.go sets. The three durations are
    pointers ([flag.Duration]). *)
Record ManagerOptions : Type := mkManagerOptions {
  LeaderElection : bool;
  LeaderElectionID : string;
  LeaderElectionNamespace : string;
  MetricsBindAddress : string;
  LeaseDuration : option Z;
  RenewDeadline : option Z;
  RetryPeriod : option Z
}.

(** The two helpers of options.go that only talk to the cluster and to the
    x509 and client packages are represented by what they hand back to
    [Complete]. [createCertManager] returns the manager and the CA key, or
    an error (with the key already parsed, when only [NewManger] failed).
    [initAPIClient] assigns [opts.APIClient] from [fclient.NewClient], or
    fails before reaching it, having logged why. *)
Inductive CertManagerResult (CM K : Type) : Type :=
| CertManagerOk (cm : CM) (key : K)
| CertManagerErr (key : option K) (err : Go.error).
Arguments CertManagerOk {CM K} cm key.
Arguments CertManagerErr {CM K} key err.

Inductive APIClientResult (C : Type) : Type :=
| APIClientOk (cli : C)
| APIClientErrBefore (logs : list Go.LogEntry) (err : Go.error)
| APIClientErrNewClient (err : Go.error).
Arguments APIClientOk {C} cli.
Arguments APIClientErrBefore {C} logs err.
Arguments APIClientErrNewClient {C} err.

(** The collaborators of the operator: the cluster API, the node, allocator,
    certificate and client packages. Only what options.go calls. *)
Class Platform `{NetLib} : Type := {
  Node : Type;
  NodeName : Node -> string;
  RestConfig : Type;
  KubeClient : Type;
  CtrlManager : Type;
  CertManager : Type;
  RSAPrivateKey : Type;
  HTTPServer : Type;
  FClient : Type;
  Certificate : Type;
  KeyPair : Type;
  PodCIDRs : Type;
  Allocator : Type;

  osStat : string -> StatResult;
  float64_overflow : Z;
  TrimSpace : string -> string;

  allocator_New : string -> Result Allocator;
  allocator_Record : IPNet -> Allocator -> Allocator;
  NewPodCIDRStore : PodCIDRs;
  NewEndpointFuncs : string -> string -> PodCIDRsGetter ->
                     (string -> string) * (string -> string) * (Node -> Endpoint);

  config_GetConfig : Result RestConfig;
  client_New : RestConfig -> Result KubeClient;
  manager_New : RestConfig -> ManagerOptions -> Result CtrlManager;
  timeutil_Days : Z -> Z;
  createCertManager : KubeClient -> string -> string -> Z ->
                      CertManagerResult CertManager RSAPrivateKey;
  fclient_GetCertificate : string -> Result Certificate;
  initAPIClient : KubeClient -> Certificate -> APIClientResult FClient;
  certutil_NewRemoteManager : Certificate -> FClient -> Result CertManager;
  apiserver_New : string -> CertManager -> CtrlManager -> Result HTTPServer;
  tls_LoadX509KeyPair : string -> string -> Result KeyPair;

  client_ListNodes : CtrlManager -> gmap string string -> Result (list Node);
  client_ListCommunities : CtrlManager -> Result (list CommunityObject)
}.

Section WithPlatform.
Context `{Pf : Platform}.

(** agentctl.Config, the fields options.go reads or that carry state. *)
Record AgentConfig : Type := mkAgentConfig {
  AgentImage : string;
  StrongswanImage : string;
  ImagePullPolicy : string;
  AgentLogLevel : Z;
  UseXfrm : bool;
  EnableProxy : bool;
  MasqOutgoing : bool;
  EnableEdgeHairpinMode : bool;
  NetworkPluginMTU : Z;
  EnableEdgeIPAM : bool;
  AgentAllocator : option Allocator
}.

(** connectorctl.Config *)
Record ConnectorEndpoint : Type := mkConnectorEndpoint {
  ceName : string;
  ceID : string;
  cePublicAddresses : list string
}.

Record ConnectorConfig : Type := mkConnectorConfig {
  ConnectorLabels : gmap string string;
  ConnEndpoint : ConnectorEndpoint;
  ProvidedSubnets : list string;
  SyncInterval : Z;
  GetPodCIDRsFn : option PodCIDRsGetter
}.

Record Options : Type := mkOptions {
  Cluster : string;
  ClusterRole : string;
  Namespace : string;
  EdgePodCIDR : string;
  EndpointIDFormat : string;
  EdgeLabels : gmap string string;
  CNIType : string;

  CASecretName : string;
  CertValidPeriod : Z;
  CertOrganization : string;
  Agent : AgentConfig;
  Connector : ConnectorConfig;
  IPVSScheduler : string;

  ManagerOpts : ManagerOptions;

  APIServerCertFile : string;
  APIServerKeyFile : string;
  APIServerListenAddress : string;
  APIServerAddress : string;
  TokenValidPeriod : Z;
  InitToken : string;

  Store : option EndpointStore;
  PodCIDRStore : option PodCIDRs;
  NewEndpoint : option (Node -> Endpoint);
  Manager : option CtrlManager;
  APIServer : option (HTTPServer * option (CertManager * KeyPair));
  APIClient : option FClient;
  PrivateKey : option RSAPrivateKey
}.

(** Assignments to a field of [opts]. *)
Definition set_CNIType (v : string) (o : Options) : Options :=
  mkOptions (Cluster o) (ClusterRole o) (Namespace o) (EdgePodCIDR o)
    (EndpointIDFormat o) (EdgeLabels o) v (CASecretName o) (CertValidPeriod o)
    (CertOrganization o) (Agent o) (Connector o) (IPVSScheduler o)
    (ManagerOpts o) (APIServerCertFile o) (APIServerKeyFile o)
    (APIServerListenAddress o) (APIServerAddress o) (TokenValidPeriod o)
    (InitToken o) (Store o) (PodCIDRStore o) (NewEndpoint o) (Manager o)
    (APIServer o) (APIClient o) (PrivateKey o).

Definition set_Agent (v : AgentConfig) (o : Options) : Options :=
  mkOptions (Cluster o) (ClusterRole o) (Namespace o) (EdgePodCIDR o)
    (EndpointIDFormat o) (EdgeLabels o) (CNIType o) (CASecretName o)
    (CertValidPeriod o) (CertOrganization o) v (Connector o) (IPVSScheduler o)
    (ManagerOpts o) (APIServerCertFile o) (APIServerKeyFile o)
    (APIServerListenAddress o) (APIServerAddress o) (TokenValidPeriod o)
    (InitToken o) (Store o) (PodCIDRStore o) (NewEndpoint o) (Manager o)
    (APIServer o) (APIClient o) (PrivateKey o).

Definition set_Connector (v : ConnectorConfig) (o : Options) : Options :=
  mkOptions (Cluster o) (ClusterRole o) (Namespace o) (EdgePodCIDR o)
    (EndpointIDFormat o) (EdgeLabels o) (CNIType o) (CASecretName o)
    (CertValidPeriod o) (CertOrganization o) (Agent o) v (IPVSScheduler o)
    (ManagerOpts o) (APIServerCertFile o) (APIServerKeyFile o)
    (APIServerListenAddress o) (APIServerAddress o) (TokenValidPeriod o)
    (InitToken o) (Store o) (PodCIDRStore o) (NewEndpoint o) (Manager o)
    (APIServer o) (APIClient o) (PrivateKey o).

Definition set_ManagerOpts (v : ManagerOptions) (o : Options) : Options :=
  mkOptions (Cluster o) (ClusterRole o) (Namespace o) (EdgePodCIDR o)
    (EndpointIDFormat o) (EdgeLabels o) (CNIType o) (CASecretName o)
    (CertValidPeriod o) (CertOrganization o) (Agent o) (Connector o)
    (IPVSScheduler o) v (APIServerCertFile o) (APIServerKeyFile o)
    (APIServerListenAddress o) (APIServerAddress o) (TokenValidPeriod o)
    (InitToken o) (Store o) (PodCIDRStore o) (NewEndpoint o) (Manager o)
    (APIServer o) (APIClient o) (PrivateKey o).

Definition set_Store (v : option EndpointStore) (o : Options) : Options :=
  mkOptions (Cluster o) (ClusterRole o) (Namespace o) (EdgePodCIDR o)
    (EndpointIDFormat o) (EdgeLabels o) (CNIType o) (CASecretName o)
    (CertValidPeriod o) (CertOrganization o) (Agent o) (Connector o)
    (IPVSScheduler o) (ManagerOpts o) (APIServerCertFile o)
    (APIServerKeyFile o) (APIServerListenAddress o) (APIServerAddress o)
    (TokenValidPeriod o) (InitToken o) v (PodCIDRStore o) (NewEndpoint o)
    (Manager o) (APIServer o) (APIClient o) (PrivateKey o).

Definition set_PodCIDRStore (v : option PodCIDRs) (o : Options) : Options :=
  mkOptions (Cluster o) (ClusterRole o) (Namespace o) (EdgePodCIDR o)
    (EndpointIDFormat o) (EdgeLabels o) (CNIType o) (CASecretName o)
    (CertValidPeriod o) (CertOrganization o) (Agent o) (Connector o)
    (IPVSScheduler o) (ManagerOpts o) (APIServerCertFile o)
    (APIServerKeyFile o) (APIServerListenAddress o) (APIServerAddress o)
    (TokenValidPeriod o) (InitToken o) (Store o) v (NewEndpoint o) (Manager o)
    (APIServer o) (APIClient o) (PrivateKey o).

Definition set_NewEndpoint (v : option (Node -> Endpoint)) (o : Options) : Options :=
  mkOptions (Cluster o) (ClusterRole o) (Namespace o) (EdgePodCIDR o)
    (EndpointIDFormat o) (EdgeLabels o) (CNIType o) (CASecretName o)
    (CertValidPeriod o) (CertOrganization o) (Agent o) (Connector o)
    (IPVSScheduler o) (ManagerOpts o) (APIServerCertFile o)
    (APIServerKeyFile o) (APIServerListenAddress o) (APIServerAddress o)
    (TokenValidPeriod o) (InitToken o) (Store o) (PodCIDRStore o) v
    (Manager o) (APIServer o) (APIClient o) (PrivateKey o).

Definition set_Manager (v : option CtrlManager) (o : Options) : Options :=
  mkOptions (Cluster o) (ClusterRole o) (Namespace o) (EdgePodCIDR o)
    (EndpointIDFormat o) (EdgeLabels o) (CNIType o) (CASecretName o)
    (CertValidPeriod o) (CertOrganization o) (Agent o) (Connector o)
    (IPVSScheduler o) (ManagerOpts o) (APIServerCertFile o)
    (APIServerKeyFile o) (APIServerListenAddress o) (APIServerAddress o)
    (TokenValidPeriod o) (InitToken o) (Store o) (PodCIDRStore o)
    (NewEndpoint o) v (APIServer o) (APIClient o) (PrivateKey o).

Definition set_APIServer (v : option (HTTPServer * option (CertManager * KeyPair)))
    (o : Options) : Options :=
  mkOptions (Cluster o) (ClusterRole o) (Namespace o) (EdgePodCIDR o)
    (EndpointIDFormat o) (EdgeLabels o) (CNIType o) (CASecretName o)
    (CertValidPeriod o) (CertOrganization o) (Agent o) (Connector o)
    (IPVSScheduler o) (ManagerOpts o) (APIServerCertFile o)
    (APIServerKeyFile o) (APIServerListenAddress o) (APIServerAddress o)
    (TokenValidPeriod o) (InitToken o) (Store o) (PodCIDRStore o)
    (NewEndpoint o) (Manager o) v (APIClient o) (PrivateKey o).

Definition set_APIClient (v : option FClient) (o : Options) : Options :=
  mkOptions (Cluster o) (ClusterRole o) (Namespace o) (EdgePodCIDR o)
    (EndpointIDFormat o) (EdgeLabels o) (CNIType o) (CASecretName o)
    (CertValidPeriod o) (CertOrganization o) (Agent o) (Connector o)
    (IPVSScheduler o) (ManagerOpts o) (APIServerCertFile o)
    (APIServerKeyFile o) (APIServerListenAddress o) (APIServerAddress o)
    (TokenValidPeriod o) (InitToken o) (Store o) (PodCIDRStore o)
    (NewEndpoint o) (Manager o) (APIServer o) v (PrivateKey o).

Definition set_PrivateKey (v : option RSAPrivateKey) (o : Options) : Options :=
  mkOptions (Cluster o) (ClusterRole o) (Namespace o) (EdgePodCIDR o)
    (EndpointIDFormat o) (EdgeLabels o) (CNIType o) (CASecretName o)
    (CertValidPeriod o) (CertOrganization o) (Agent o) (Connector o)
    (IPVSScheduler o) (ManagerOpts o) (APIServerCertFile o)
    (APIServerKeyFile o) (APIServerListenAddress o) (APIServerAddress o)
    (TokenValidPeriod o) (InitToken o) (Store o) (PodCIDRStore o)
    (NewEndpoint o) (Manager o) (APIServer o) (APIClient o) v.

(** ** Validate *)

(** The errors [Validate] returns, one per [fmt.Errorf] of the function. *)
Inductive ValidateError : Type :=
| ErrClusterRequired
| ErrInvalidClusterName (cluster : string)
| ErrUnknownClusterRole (role : string)
| ErrInitTokenNeeded
| ErrKeyFileMissing
| ErrCertFileMissing
| ErrEdgeLabelsNeeded
| ErrConnectorLabelsNeeded
| ErrPublicAddressesNeeded
| ErrInvalidSubnet (subnet : string) (cause : error)
| ErrInvalidEdgePodCIDR (cidr : string) (cause : error)
| ErrOverlapped
| ErrPullPolicy (policy : string)
| ErrLeaseNotGreaterThanRenew
| ErrRenewNotGreaterThanRetry
| ErrLeaseBelowSecond
| ErrRenewBelowSecond
| ErrRetryBelowSecond.

(** The text of each error. *)
Definition message (e : ValidateError) : string :=
  match e with
  | ErrClusterRequired => "a cluster name is required"
  | ErrInvalidClusterName c => "invalid cluster name: " ++ c
  | ErrUnknownClusterRole r => "unknown cluster role: " ++ r
  | ErrInitTokenNeeded => "initialization token is needed when cluster role is member"
  | ErrKeyFileMissing => "api server key file doesnt' exist"
  | ErrCertFileMissing => "api server certificate file doesnt' exist"
  | ErrEdgeLabelsNeeded => "edge labels is needed"
  | ErrConnectorLabelsNeeded => "connector labels is needed"
  | ErrPublicAddressesNeeded => "connector public addresses is needed"
  | ErrInvalidSubnet sn c => "invalid subnet: " ++ sn ++ ". " ++ c
  | ErrInvalidEdgePodCIDR cidr c => "invalid edge pod cidr: " ++ cidr ++ ". " ++ c
  | ErrOverlapped => "EdgePodCIDR is overlaped with connector's subnets"
  | ErrPullPolicy p => "not supported image pull policy: " ++ p
  | ErrLeaseNotGreaterThanRenew => "leaseDuration must be greater than renewDeadline"
  | ErrRenewNotGreaterThanRetry => "renewDeadline must be greater than retryPeriod*JitterFactor"
  | ErrLeaseBelowSecond => "leaseDuration must be greater than 1 second"
  | ErrRenewBelowSecond => "renewDeadline must be greater than 1 second"
  | ErrRetryBelowSecond => "retryPeriod must be greater than 1 second"
  end.

(** How a call of [Validate] ends: it returns nil, returns an error, or
    panics on a nil dereference. *)
Inductive Outcome : Type :=
| ReturnNil
| ReturnErr (e : ValidateError)
| Panic.

(** [fileExists]: [None] stands for the panic of [info.IsDir()] on the nil
    [info] that [os.Stat] returns with an error other than "not exist". *)
Definition fileExists (filename : string) : option bool :=
  match osStat filename with
  | StatNotExist => Some false
  | StatFile => Some true
  | StatDir => Some false
  | StatOtherError => None
  end.

(** First loop over [opts.Connector.ProvidedSubnets]: every subnet must
    parse. *)
Fixpoint validateSubnets (subnets : list string) : option ValidateError :=
  match subnets with
  | [] => None
  | subnet :: rest =>
      match ParseCIDR subnet with
      | Fail err => Some (ErrInvalidSubnet subnet err)
      | Val _ => validateSubnets rest
      end
  end.

(** Second loop, under [EnableEdgeIPAM]: [ip], [subnet] come from
    [EdgePodCIDR]. The error of the inner [ParseCIDR] is dropped; if it
    failed, [subnet2] is nil, [subnet.Contains(nil)] is false for want of
    bytes, and [subnet2.Contains(ip)] dereferences nil. *)
Fixpoint validateOverlap (ip : IP) (subnet : IPNet) (subnets : list string) : Outcome :=
  match subnets with
  | [] => ReturnNil
  | s :: rest =>
      match ParseCIDR s with
      | Val (ip2, subnet2) =>
          if Contains subnet ip2 || Contains subnet2 ip
          then ReturnErr ErrOverlapped
          else validateOverlap ip subnet rest
      | Fail _ => Panic
      end
  end.

(** [time.Duration(JitterFactor*float64(retryPeriod))] with
    [const JitterFactor = 1.2]. *)
Definition jittered (retryPeriod : Z) : Z :=
  Float64.to_int64 float64_overflow
    (Float64.mul Float64.const_1_2 (Float64.of_int64 retryPeriod)).

Definition Validate (opts : Options) : Outcome :=
  if (String.length (Cluster opts) =? 0)%nat then ReturnErr ErrClusterRequired else
  if negb (Regexp.MatchString DNS1123.dns1123Reg (Cluster opts))
  then ReturnErr (ErrInvalidClusterName (Cluster opts)) else
  if negb (String.eqb (ClusterRole opts) RoleHost)
     && negb (String.eqb (ClusterRole opts) RoleMember)
  then ReturnErr (ErrUnknownClusterRole (ClusterRole opts)) else
  if String.eqb (ClusterRole opts) RoleMember
     && (String.length (InitToken opts) =? 0)%nat
  then ReturnErr ErrInitTokenNeeded else
  let afterFiles (k : Outcome) : Outcome :=
    if String.eqb (ClusterRole opts) RoleHost then
      match fileExists (APIServerKeyFile opts) with
      | None => Panic
      | Some false => ReturnErr ErrKeyFileMissing
      | Some true =>
          match fileExists (APIServerCertFile opts) with
          | None => Panic
          | Some false => ReturnErr ErrCertFileMissing
          | Some true => k
          end
      end
    else k in
  afterFiles (
  if (size (EdgeLabels opts) =? 0)%nat then ReturnErr ErrEdgeLabelsNeeded else
  if (size (ConnectorLabels (Connector opts)) =? 0)%nat
  then ReturnErr ErrConnectorLabelsNeeded else
  if (length (cePublicAddresses (ConnEndpoint (Connector opts))) =? 0)%nat
  then ReturnErr ErrPublicAddressesNeeded else
  match validateSubnets (ProvidedSubnets (Connector opts)) with
  | Some e => ReturnErr e
  | None =>
  let afterIPAM (k : Outcome) : Outcome :=
    if EnableEdgeIPAM (Agent opts) then
      match ParseCIDR (EdgePodCIDR opts) with
      | Fail err => ReturnErr (ErrInvalidEdgePodCIDR (EdgePodCIDR opts) err)
      | Val (ip, subnet) =>
          match validateOverlap ip subnet (ProvidedSubnets (Connector opts)) with
          | ReturnNil => k
          | stop => stop
          end
      end
    else k in
  afterIPAM (
  let policy := ImagePullPolicy (Agent opts) in
  if negb (String.eqb policy PullAlways)
     && negb (String.eqb policy PullIfNotPresent)
     && negb (String.eqb policy PullNever)
  then ReturnErr (ErrPullPolicy policy) else
  match LeaseDuration (ManagerOpts opts),
        RenewDeadline (ManagerOpts opts),
        RetryPeriod (ManagerOpts opts) with
  | Some leaseDuration, Some renewDeadline, Some retryPeriod =>
      if leaseDuration <=? renewDeadline
      then ReturnErr ErrLeaseNotGreaterThanRenew else
      if renewDeadline <=? jittered retryPeriod
      then ReturnErr ErrRenewNotGreaterThanRetry else
      if leaseDuration <? Duration.Second then ReturnErr ErrLeaseBelowSecond else
      if renewDeadline <? Duration.Second then ReturnErr ErrRenewBelowSecond else
      if retryPeriod <? Duration.Second then ReturnErr ErrRetryBelowSecond else
      ReturnNil
  | _, _, _ => Panic
  end)
  end).

(** ** Complete *)

(** Process-wide state: the edge node labels kept by package nodeutil
    ([SetEdgeNodeLabels] / [GetEdgeNodeLabels]) and the log. *)
Record Process : Type := mkProcess {
  edgeNodeLabels : gmap string string;
  logged : list LogEntry
}.

Definition SetEdgeNodeLabels (labels : gmap string string) (p : Process) : Process :=
  mkProcess labels (logged p).

Definition log_Error (e : error) (msg : string) (p : Process) : Process :=
  mkProcess (edgeNodeLabels p) (logged p ++ [logError e msg]).

Definition log_All (entries : list LogEntry) (p : Process) : Process :=
  mkProcess (edgeNodeLabels p) (logged p ++ entries).

Definition set_EnableEdgeIPAM (v : bool) (a : AgentConfig) : AgentConfig :=
  mkAgentConfig (AgentImage a) (StrongswanImage a) (ImagePullPolicy a)
    (AgentLogLevel a) (UseXfrm a) (EnableProxy a) (MasqOutgoing a)
    (EnableEdgeHairpinMode a) (NetworkPluginMTU a) v (AgentAllocator a).

Definition set_AgentAllocator (v : option Allocator) (a : AgentConfig) : AgentConfig :=
  mkAgentConfig (AgentImage a) (StrongswanImage a) (ImagePullPolicy a)
    (AgentLogLevel a) (UseXfrm a) (EnableProxy a) (MasqOutgoing a)
    (EnableEdgeHairpinMode a) (NetworkPluginMTU a) (EnableEdgeIPAM a) v.

(** [Complete] is written in four stretches, each ending where the function
    may return. It has a pointer receiver: the updated options are part of
    the result. The copies of Namespace, CertManager, Manager, Store,
    NewEndpoint, GetEndpointName and CertOrganization handed to the Agent,
    Connector and Proxy configurations (lines 239-258) alias the fields
    modelled here and are not repeated in the records; nor are the logger
    of the manager options and the check interval of the proxy. *)

(** Lines 152-176: CNI type, edge labels, the [switch]. The result carries
    the two getters chosen, or the error returned. *)
Definition completeCNI (opts : Options) (p : Process)
  : Options * Process * Result (PodCIDRsGetter * PodCIDRsGetter) :=
  let opts := set_CNIType (TrimSpace (CNIType opts)) opts in
  let p := SetEdgeNodeLabels (EdgeLabels opts) p in
  if String.eqb (CNIType opts) CNICalico then
    let opts := set_Agent (set_EnableEdgeIPAM true (Agent opts)) opts in
    let opts := set_PodCIDRStore (Some NewPodCIDRStore) opts in
    match allocator_New (EdgePodCIDR opts) with
    | Val a =>
        (set_Agent (set_AgentAllocator (Some a) (Agent opts)) opts, p,
         Val (GetPodCIDRsFromAnnotation, GetFromPodCIDRStore))
    | Fail err =>
        (set_Agent (set_AgentAllocator None (Agent opts)) opts,
         log_Error err "failed to create allocator" p, Fail err)
    end
  else if String.eqb (CNIType opts) CNIFlannel then
    (opts, p, Val (GetPodCIDRs, GetPodCIDRs))
  else (opts, p, Fail ("unknown CNI: " ++ CNIType opts)).

(** Lines 202-235: the certificate manager, by cluster role. *)
Definition completeCertManager (kubeClient : KubeClient) (opts : Options) (p : Process)
  : Options * Process * Result CertManager :=
  if String.eqb (ClusterRole opts) RoleHost then
    match createCertManager kubeClient (CASecretName opts) (Namespace opts)
            (timeutil_Days (CertValidPeriod opts)) with
    | CertManagerErr key err =>
        (set_PrivateKey key opts, log_Error err "failed to create cert manager" p, Fail err)
    | CertManagerOk cm key => (set_PrivateKey (Some key) opts, p, Val cm)
    end
  else
    match fclient_GetCertificate (APIServerAddress opts) with
    | Fail err => (opts, log_Error err "failed to get CA cert from host cluster" p, Fail err)
    | Val cacert =>
        match initAPIClient kubeClient cacert with
        | APIClientErrBefore logs err => (opts, log_All logs p, Fail err)
        | APIClientErrNewClient err =>
            (set_APIClient None opts, log_Error err "failed to create API client" p,
             Fail err)
        | APIClientOk cli =>
            let opts := set_APIClient (Some cli) opts in
            match certutil_NewRemoteManager cacert cli with
            | Fail err => (opts, log_Error err "failed to create certManager" p, Fail err)
            | Val cm => (opts, p, Val cm)
            end
        end
    end.

Definition set_ConnectorRuntime (getPodCIDRs : PodCIDRsGetter) (name id : string)
    (c : ConnectorConfig) : ConnectorConfig :=
  mkConnectorConfig (ConnectorLabels c)
    (mkConnectorEndpoint name id (cePublicAddresses (ConnEndpoint c)))
    (ProvidedSubnets c) (SyncInterval c) (Some getPodCIDRs).

Definition set_ManagerRuntime (namespace : string) (m : ManagerOptions) : ManagerOptions :=
  mkManagerOptions (LeaderElection m) (LeaderElectionID m) namespace "0"
    (LeaseDuration m) (RenewDeadline m) (RetryPeriod m).

(** Lines 260-285: the API server of a host cluster. *)
Definition completeAPIServer (certManager : CertManager) (mgr : CtrlManager)
    (opts : Options) (p : Process) : Options * Process * option error :=
  if String.eqb (ClusterRole opts) RoleHost then
    match apiserver_New (APIServerListenAddress opts) certManager mgr with
    | Fail err =>
        (set_APIServer None opts, log_Error err "failed to create api server" p, Some err)
    | Val srv =>
        let opts := set_APIServer (Some (srv, None)) opts in
        match tls_LoadX509KeyPair (APIServerCertFile opts) (APIServerKeyFile opts) with
        | Fail err => (opts, log_Error err "failed to load api server key pair" p, Some err)
        | Val cert => (set_APIServer (Some (srv, Some (certManager, cert))) opts, p, None)
        end
    end
  else (opts, p, None).

Definition Complete (opts : Options) (p : Process) : Options * Process * option error :=
  match completeCNI opts p with
  | (opts, p, Fail err) => (opts, p, Some err)
  | (opts, p, Val (getEdgePodCIDRs, getCloudPodCIDRs)) =>
  let '(getEndpointName, getEndpointID, newEndpoint) :=
    NewEndpointFuncs (Cluster opts) (EndpointIDFormat opts) getEdgePodCIDRs in
  let opts := set_NewEndpoint (Some newEndpoint) opts in
  match config_GetConfig with
  | Fail err => (opts, log_Error err "failed to load kubeconfig" p, None)
  | Val cfg =>
  match client_New cfg with
  | Fail err => (opts, log_Error err "failed to create kube client" p, Some err)
  | Val kubeClient =>
  let opts := set_ManagerOpts (set_ManagerRuntime (Namespace opts) (ManagerOpts opts)) opts in
  match manager_New cfg (ManagerOpts opts) with
  | Fail err =>
      (set_Manager None opts, log_Error err "failed to create controller manager" p, Some err)
  | Val mgr =>
  let opts := set_Manager (Some mgr) opts in
  match completeCertManager kubeClient opts p with
  | (opts, p, Fail err) => (opts, p, Some err)
  | (opts, p, Val certManager) =>
  let opts := set_Store (Some NewStore) opts in
  let opts := set_Connector
                (set_ConnectorRuntime getCloudPodCIDRs
                   (getEndpointName "connector") (getEndpointID "connector")
                   (Connector opts)) opts in
  completeAPIServer certManager mgr opts p
  end end end end end.

(** ** recordEndpoints *)

(** How a call ends: it returns (nil or an error) or panics on a nil
    receiver. *)
Inductive Status : Type :=
| Returned (err : option error)
| Panicked.

(** The objects [recordEndpoints] writes to: the store behind [opts.Store],
    the allocator behind [opts.Agent.Allocator] and the log. *)
Record Recording : Type := mkRecording {
  recStore : option EndpointStore;
  recAllocator : option Allocator;
  recLog : list LogEntry
}.

Definition with_store (st : EndpointStore) (r : Recording) : Recording :=
  mkRecording (Some st) (recAllocator r) (recLog r).

Definition with_allocator (a : Allocator) (r : Recording) : Recording :=
  mkRecording (recStore r) (Some a) (recLog r).

Definition with_log (e : LogEntry) (r : Recording) : Recording :=
  mkRecording (recStore r) (recAllocator r) (recLog r ++ [e]).

(** The loop over [communities.Items]. The boolean is false when the loop
    panicked. *)
Fixpoint saveCommunities (communities : list CommunityObject) (r : Recording)
  : bool * Recording :=
  match communities with
  | [] => (true, r)
  | community :: rest =>
      match recStore r with
      | None => (false, r)
      | Some st =>
          saveCommunities rest
            (with_store
               (SaveCommunity
                  (mkCommunity (coName community) (list_to_set (coMembers community)))
                  st) r)
      end
  end.

(** The loop over [ep.Subnets]: a subnet that does not parse is logged and
    passed over, the others are recorded in the allocator. *)
Fixpoint recordSubnets (node : Node) (cidrs : list string) (r : Recording)
  : bool * Recording :=
  match cidrs with
  | [] => (true, r)
  | cidr :: rest =>
      match ParseCIDR cidr with
      | Fail err =>
          recordSubnets node rest
            (with_log (logError err "failed to parse subnet of node") r)
      | Val (_, subnet) =>
          match recAllocator r with
          | None => (false, r)
          | Some a => recordSubnets node rest (with_allocator (allocator_Record subnet a) r)
          end
      end
  end.

(** The loop over [nodes.Items]. *)
Fixpoint recordNodes (newEndpoint : option (Node -> Endpoint)) (nodes : list Node)
    (r : Recording) : bool * Recording :=
  match nodes with
  | [] => (true, r)
  | node :: rest =>
      match newEndpoint with
      | None => (false, r)
      | Some f =>
          let ep := f node in
          if (length (epPublicAddresses ep) =? 0)%nat
             || (length (epSubnets ep) =? 0)%nat
             || (length (epNodeSubnets ep) =? 0)%nat
          then recordNodes newEndpoint rest r
          else
            match recordSubnets node (epSubnets ep) r with
            | (false, r) => (false, r)
            | (true, r) =>
                match recStore r with
                | None => (false, r)
                | Some st => recordNodes newEndpoint rest (with_store (SaveEndpoint ep st) r)
                end
            end
      end
  end.

Definition recordEndpoints (opts : Options) (p : Process) : Status * Recording :=
  let r := mkRecording (Store opts) (AgentAllocator (Agent opts)) (logged p) in
  match Manager opts with
  | None => (Panicked, r)
  | Some cli =>
      match client_ListNodes cli (edgeNodeLabels p) with
      | Fail err => (Returned (Some err), r)
      | Val nodes =>
          match client_ListCommunities cli with
          | Fail err => (Returned (Some err), r)
          | Val communities =>
              match saveCommunities communities r with
              | (false, r) => (Panicked, r)
              | (true, r) =>
                  if negb (EnableEdgeIPAM (Agent opts)) then (Returned None, r)
                  else
                    match recordNodes (NewEndpoint opts) nodes r with
                    | (false, r) => (Panicked, r)
                    | (true, r) => (Returned None, r)
                    end
              end
          end
      end
  end.

End WithPlatform.

End Operator.

(* ===================================================================== *)
(** * Options.AddFlags: the defaults of the command line                   *)
(* ===================================================================== *)

Module Flags.
Import Go GoNet Operator.

Section WithPlatform.
Context `{Pf : Platform}.

(** The options as [AddFlags] and the parsing of an empty command line
    leave them: every flag at its default, every field without a flag at
    its zero value. [certutil.DefaultOrganization] is declared in another
    package. *)
Definition AddFlags (DefaultOrganization : string) : Options :=
  {| Cluster := "";
     ClusterRole := "host";
     Namespace := "fabedge";
     EdgePodCIDR := "";
     EndpointIDFormat := "C=CN, O=fabedge.io, CN={node}";
     EdgeLabels := {[ "node-role.kubernetes.io/edge" := "" ]};
     CNIType := "";
     CASecretName := "fabedge-ca";
     CertValidPeriod := 3650;
     CertOrganization := DefaultOrganization;
     Agent :=
       {| AgentImage := "fabedge/agent:latest";
          StrongswanImage := "fabedge/strongswan:latest";
          ImagePullPolicy := "IfNotPresent";
          AgentLogLevel := 3;
          UseXfrm := false;
          EnableProxy := false;
          MasqOutgoing := false;
          EnableEdgeHairpinMode := true;
          NetworkPluginMTU := 1400;
          EnableEdgeIPAM := false;
          AgentAllocator := None |};
     Connector :=
       {| ConnectorLabels := {[ "app" := "fabedge-connector" ]};
          ConnEndpoint :=
            {| ceName := ""; ceID := ""; cePublicAddresses := [] |};
          ProvidedSubnets := [];
          SyncInterval := 5 * Duration.Second;
          GetPodCIDRsFn := None |};
     IPVSScheduler := "rr";
     ManagerOpts :=
       {| LeaderElection := false;
          LeaderElectionID := "fabedge-operator-leader";
          LeaderElectionNamespace := "";
          MetricsBindAddress := "";
          LeaseDuration := Some (15 * Duration.Second);
          RenewDeadline := Some (10 * Duration.Second);
          RetryPeriod := Some (2 * Duration.Second) |};
     APIServerCertFile := "";
     APIServerKeyFile := "";
     APIServerListenAddress := "0.0.0.0:3030";
     APIServerAddress := "";
     TokenValidPeriod := 12 * (3600 * Duration.Second);
     InitToken := "";
     Store := None;
     PodCIDRStore := None;
     NewEndpoint := None;
     Manager := None;
     APIServer := None;
     APIClient := None;
     PrivateKey := None |}.

(** What the flags [--cluster], [--connector-public-addresses],
    [--api-server-cert-file], [--api-server-key-file], [--cluster-role]
    and [--init-token] assign when given. *)
Definition flag_cluster (v : string) (o : Options) : Options :=
  mkOptions v (ClusterRole o) (Namespace o) (EdgePodCIDR o)
    (EndpointIDFormat o) (EdgeLabels o) (CNIType o) (CASecretName o)
    (CertValidPeriod o) (CertOrganization o) (Agent o) (Connector o)
    (IPVSScheduler o) (ManagerOpts o) (APIServerCertFile o)
    (APIServerKeyFile o) (APIServerListenAddress o) (APIServerAddress o)
    (TokenValidPeriod o) (InitToken o) (Store o) (PodCIDRStore o)
    (NewEndpoint o) (Manager o) (APIServer o) (APIClient o) (PrivateKey o).

Definition flag_connector_public_addresses (v : list string) (o : Options) : Options :=
  set_Connector
    (mkConnectorConfig (ConnectorLabels (Connector o))
       (mkConnectorEndpoint (ceName (ConnEndpoint (Connector o)))
          (ceID (ConnEndpoint (Connector o))) v)
       (ProvidedSubnets (Connector o)) (SyncInterval (Connector o))
       (GetPodCIDRsFn (Connector o))) o.

Definition flag_api_server_cert_file (v : string) (o : Options) : Options :=
  mkOptions (Cluster o) (ClusterRole o) (Namespace o) (EdgePodCIDR o)
    (EndpointIDFormat o) (EdgeLabels o) (CNIType o) (CASecretName o)
    (CertValidPeriod o) (CertOrganization o) (Agent o) (Connector o)
    (IPVSScheduler o) (ManagerOpts o) v
    (APIServerKeyFile o) (APIServerListenAddress o) (APIServerAddress o)
    (TokenValidPeriod o) (InitToken o) (Store o) (PodCIDRStore o)
    (NewEndpoint o) (Manager o) (APIServer o) (APIClient o) (PrivateKey o).

Definition flag_api_server_key_file (v : string) (o : Options) : Options :=
  mkOptions (Cluster o) (ClusterRole o) (Namespace o) (EdgePodCIDR o)
    (EndpointIDFormat o) (EdgeLabels o) (CNIType o) (CASecretName o)
    (CertValidPeriod o) (CertOrganization o) (Agent o) (Connector o)
    (IPVSScheduler o) (ManagerOpts o) (APIServerCertFile o)
    v (APIServerListenAddress o) (APIServerAddress o)
    (TokenValidPeriod o) (InitToken o) (Store o) (PodCIDRStore o)
    (NewEndpoint o) (Manager o) (APIServer o) (APIClient o) (PrivateKey o).

Definition flag_cluster_role (v : string) (o : Options) : Options :=
  mkOptions (Cluster o) v (Namespace o) (EdgePodCIDR o)
    (EndpointIDFormat o) (EdgeLabels o) (CNIType o) (CASecretName o)
    (CertValidPeriod o) (CertOrganization o) (Agent o) (Connector o)
    (IPVSScheduler o) (ManagerOpts o) (APIServerCertFile o)
    (APIServerKeyFile o) (APIServerListenAddress o) (APIServerAddress o)
    (TokenValidPeriod o) (InitToken o) (Store o) (PodCIDRStore o)
    (NewEndpoint o) (Manager o) (APIServer o) (APIClient o) (PrivateKey o).

Definition flag_init_token (v : string) (o : Options) : Options :=
  mkOptions (Cluster o) (ClusterRole o) (Namespace o) (EdgePodCIDR o)
    (EndpointIDFormat o) (EdgeLabels o) (CNIType o) (CASecretName o)
    (CertValidPeriod o) (CertOrganization o) (Agent o) (Connector o)
    (IPVSScheduler o) (ManagerOpts o) (APIServerCertFile o)
    (APIServerKeyFile o) (APIServerListenAddress o) (APIServerAddress o)
    (TokenValidPeriod o) v (Store o) (PodCIDRStore o)
    (NewEndpoint o) (Manager o) (APIServer o) (APIClient o) (PrivateKey o).

End WithPlatform.

End Flags.

(* ===================================================================== *)
(** * pkg/operator: starting the manager and its controllers               *)
(* ===================================================================== *)

Module Startup.
Import Go GoNet Operator.

(** What is handed to the controller manager: the two runnables of
    [RunManager], and the controllers and routines [initializeControllers]
    registers (through the [AddToManager] of their packages or through
    [opts.Manager.Add]). *)
Inductive Runnable : Type :=
| InitRunnable
| APIServerRunnable
| IPAMBlockMonitor
| ConnectorController
| AgentController
| CommunityController
| ProxyController
| ClusterController
| LocalClusterReporter
| LoadEndpointsAndCommunities
| ExportEndpoints.

(** calicoapi.IPAMBlock, the fields [recordIPAMBlocks] reads:
    Spec.CIDR, Spec.Affinity (a pointer) and Spec.Deleted. *)
Record IPAMBlock : Type := mkIPAMBlock {
  blockCIDR : string;
  blockAffinity : option string;
  blockDeleted : bool
}.

(** The collaborators met after [Complete]: the listing of IPAM blocks,
    package ipamblockmonitor, the pod CIDR store, and the manager, which
    answers every registration and [Start]. *)
Class Controllers `{Platform} : Type := {
  GetNodeName : IPAMBlock -> string;
  client_ListIPAMBlocks : CtrlManager -> Result (list IPAMBlock);
  podCIDRs_Append : string -> string -> PodCIDRs -> PodCIDRs;
  register : Runnable -> option error;
  manager_Start : CtrlManager -> option error
}.

(** A stretch of [initializeControllers] goes on with a value, or stops the
    function: by a [return] or by a panic. *)
Inductive Step (A : Type) : Type :=
| Next (a : A)
| Stop (s : Status).
Arguments Next {A} a.
Arguments Stop {A} s.

Section WithControllers.
Context `{Ct : Controllers}.

(** What [initializeControllers] works on: the pod CIDR store, the objects
    of [recordEndpoints], and the registrations asked of the manager so
    far. *)
Record Boot : Type := mkBoot {
  podCIDRs : option PodCIDRs;
  recording : Recording;
  attempted : list Runnable
}.

Definition Init (A : Type) : Type := Boot -> Step A * Boot.

Definition ret {A : Type} (a : A) : Init A := fun b => (Next a, b).

Definition bind {A B : Type} (c : Init A) (k : A -> Init B) : Init B :=
  fun b =>
    match c b with
    | (Next a, b) => k a b
    | (Stop s, b) => (Stop s, b)
    end.

Local Notation "x <- c ;; k" := (bind c (fun x => k))
  (at level 100, c at next level, right associativity).
Local Notation "c ;; k" := (bind c (fun _ => k))
  (at level 100, right associativity).

(** [if err != nil { log.Error(err, msg); return err }] *)
Definition check (err : option error) (msg : string) : Init unit :=
  fun b =>
    match err with
    | None => (Next tt, b)
    | Some e =>
        (Stop (Returned (Some e)),
         mkBoot (podCIDRs b) (with_log (logError e msg) (recording b)) (attempted b))
    end.

(** [pkg.AddToManager(cfg)] *)
Definition addToManager (c : Runnable) : Init (option error) :=
  fun b => (Next (register c), mkBoot (podCIDRs b) (recording b) (attempted b ++ [c])).

(** [opts.Manager.Add(r)]: a method call on the manager. *)
Definition managerAdd (opts : Options) (c : Runnable) : Init (option error) :=
  fun b =>
    match Manager opts with
    | None => (Stop Panicked, b)
    | Some _ => addToManager c b
    end.

(** Evaluating a method value of [opts.APIClient], an interface. *)
Definition methodValue (opts : Options) : Init unit :=
  fun b =>
    match APIClient opts with
    | None => (Stop Panicked, b)
    | Some _ => (Next tt, b)
    end.

(** ** recordIPAMBlocks *)

(** The loop over [ipamBlocks.Items]. The boolean is false when the loop
    panicked. *)
Fixpoint appendBlocks (blocks : list IPAMBlock) (store : option PodCIDRs)
  : bool * option PodCIDRs :=
  match blocks with
  | [] => (true, store)
  | block :: rest =>
      if blockDeleted block || negb (bool_decide (is_Some (blockAffinity block)))
      then appendBlocks rest store
      else
        let nodeName := GetNodeName block in
        if String.eqb nodeName "" then appendBlocks rest store
        else
          match store with
          | None => (false, store)
          | Some s =>
              appendBlocks rest (Some (podCIDRs_Append nodeName (blockCIDR block) s))
          end
  end.

Definition recordIPAMBlocks (opts : Options) : Init (option error) :=
  fun b =>
    match Manager opts with
    | None => (Stop Panicked, b)
    | Some cli =>
        match client_ListIPAMBlocks cli with
        | Fail err => (Next (Some err), b)
        | Val blocks =>
            match appendBlocks blocks (podCIDRs b) with
            | (true, store) => (Next None, mkBoot store (recording b) (attempted b))
            | (false, store) => (Stop Panicked, mkBoot store (recording b) (attempted b))
            end
        end
    end.

(** ** initializeControllers *)

(** The call of [recordEndpoints], on the log as it stands. *)
Definition callRecordEndpoints (opts : Options) (p : Process) : Init (option error) :=
  fun b =>
    match recordEndpoints opts (mkProcess (edgeNodeLabels p) (recLog (recording b))) with
    | (Returned err, r) => (Next err, mkBoot (podCIDRs b) r (attempted b))
    | (Panicked, r) => (Stop Panicked, mkBoot (podCIDRs b) r (attempted b))
    end.

Definition initializeControllers (opts : Options) (p : Process) : Status * Boot :=
  let body : Init unit :=
    (if String.eqb (CNIType opts) CNICalico then
       err <- recordIPAMBlocks opts ;;
       check err "failed to record calico IPAMBlocks" ;;
       err <- addToManager IPAMBlockMonitor ;;
       check err "failed to add IPAMBlockMonitor to manager"
     else ret tt) ;;
    err <- callRecordEndpoints opts p ;;
    check err "failed to initialize allocator and store" ;;
    err <- addToManager ConnectorController ;;
    check err "failed to add communities controller to manager" ;;
    err <- addToManager AgentController ;;
    check err "failed to add agent controller to manager" ;;
    err <- addToManager CommunityController ;;
    check err "failed to add communities controller to manager" ;;
    (if EnableProxy (Agent opts) then
       err <- addToManager ProxyController ;;
       check err "failed to add proxy controller to manager"
     else ret tt) ;;
    err <- addToManager ClusterController ;;
    check err "failed to add cluster controller to manager" ;;
    if String.eqb (ClusterRole opts) RoleHost then
      err <- managerAdd opts LocalClusterReporter ;;
      check err "failed to add local cluster reporter to manager"
    else
      methodValue opts ;;
      err <- managerAdd opts LoadEndpointsAndCommunities ;;
      check err "failed to start loadEndpointsAndCommunities routine" ;;
      methodValue opts ;;
      err <- managerAdd opts ExportEndpoints ;;
      check err "failed to start exportEndpoints routine" in
  match body (mkBoot (PodCIDRStore opts)
                (mkRecording (Store opts) (AgentAllocator (Agent opts)) (logged p))
                []) with
  | (Next _, b) => (Returned None, b)
  | (Stop s, b) => (s, b)
  end.

(** ** RunManager *)

(** What [RunManager] has asked of the manager: the runnables added, and
    whether [Start] was called. *)
Record Run : Type := mkRun {
  added : list Runnable;
  started : bool;
  runLog : list LogEntry
}.

Definition RunManager (opts : Options) (p : Process) : Status * Run :=
  match Manager opts with
  | None => (Panicked, mkRun [] false (logged p))
  | Some mgr =>
      match register InitRunnable with
      | Some err =>
          (Returned (Some err),
           mkRun [InitRunnable] false
             (logged p ++ [logError err "failed to add init runnable"]))
      | None =>
          let start (added : list Runnable) : Status * Run :=
            match manager_Start mgr with
            | Some err =>
                (Returned (Some err),
                 mkRun added true
                   (logged p ++ [logError err "failed to start controller manager"]))
            | None => (Returned None, mkRun added true (logged p))
            end in
          if String.eqb (ClusterRole opts) RoleHost then
            match register APIServerRunnable with
            | Some err =>
                (Returned (Some err),
                 mkRun [InitRunnable; APIServerRunnable] false
                   (logged p ++ [logError err "failed to add api server runnable"]))
            | None => start [InitRunnable; APIServerRunnable]
            end
          else start [InitRunnable]
      end
  end.

End WithControllers.

End Startup.

(* ===================================================================== *)
(** * pkg/operator: the API client of a member cluster                     *)
(* ===================================================================== *)

Module APIClientInit.
Import Go GoNet Operator.

(** corev1.Secret as the builder chain of [createTLSSecretForClient] fills
    it: name, namespace, the three entries of a TLS secret and a label. *)
Record Secret : Type := mkSecret {
  secName : string;
  secNamespace : string;
  secKeyPEM : string;
  secCertPEM : string;
  secCACertPEM : string;
  secLabels : list (string * string)
}.

(** What [kubeClient.Get] answers: the object, an error for which
    [errors.IsNotFound] holds, or another error. *)
Inductive GetResult : Type :=
| Found (secret : Secret)
| NotFound (err : error)
| GetFailed (err : error).

(** The calls [initAPIClient] makes outside the package. *)
Inductive Call : Type :=
| Call_kube_Get (name namespace : string)
| Call_NewCertRequest (commonName : string) (organization : list string)
| Call_SignCertByToken (address token csr : string)
| Call_kube_Create (secret : Secret)
| Call_X509KeyPair (certPEM keyPEM : string)
| Call_NewClient (address cluster : string).

(** The cluster API and the packages certutil, fclient, secretutil and
    crypto/tls, as [initAPIClient] uses them; [KeyCreatedBy] and
    [AppOperator] are constants of package constants. *)
Class ClientPKI `{Platform} : Type := {
  KeyCreatedBy : string;
  AppOperator : string;
  cert_PEM : Certificate -> string;
  certutil_EncodePrivateKeyPEM : string -> string;
  kube_Get : KubeClient -> string -> string -> GetResult;
  kube_Create : KubeClient -> Secret -> option error;
  certutil_NewCertRequest : string -> list string -> Result (string * string);
  fclient_SignCertByToken : string -> string -> string -> Certificate -> Result Certificate;
  secretutil_GetCertAndKey : Secret -> string * string;
  tls_X509KeyPair : string -> string -> Result KeyPair;
  fclient_NewClient : string -> string -> Certificate -> KeyPair -> Result FClient
}.

Section WithPKI.
Context `{Pk : ClientPKI}.

(** The calls made and the lines logged so far. *)
Record Trace : Type := mkTrace {
  calls : list Call;
  logs : list LogEntry
}.

Definition call (c : Call) (t : Trace) : Trace := mkTrace (calls t ++ [c]) (logs t).

Definition log_Error (e : error) (msg : string) (t : Trace) : Trace :=
  mkTrace (calls t) (logs t ++ [logError e msg]).

(** secretutil.TLSSecret().Name(..).Namespace(..).EncodeKey(..).CertPEM(..)
    .CACertPEM(..).Label(..).Build() *)
Definition TLSSecret (name namespace keyDER certPEM caCertPEM : string) : Secret :=
  mkSecret name namespace (certutil_EncodePrivateKeyPEM keyDER) certPEM caCertPEM
    [(KeyCreatedBy, AppOperator)].

Definition createTLSSecretForClient (opts : Options) (kubeClient : KubeClient)
    (cacert : Certificate) (t : Trace) : Result Secret * Trace :=
  let commonName := Cluster opts ++ ".fabedge-client" in
  let organization := [CertOrganization opts] in
  let t := call (Call_NewCertRequest commonName organization) t in
  match certutil_NewCertRequest commonName organization with
  | Fail err => (Fail err, log_Error err "failed to create certificate request" t)
  | Val (keyDER, csrDER) =>
      let t := call (Call_SignCertByToken (APIServerAddress opts) (InitToken opts) csrDER) t in
      match fclient_SignCertByToken (APIServerAddress opts) (InitToken opts) csrDER cacert with
      | Fail err => (Fail err, log_Error err "failed to create certificate for API client" t)
      | Val cert =>
          let secret :=
            TLSSecret ClientTLSSecretName (Namespace opts) keyDER
              (cert_PEM cert) (cert_PEM cacert) in
          let t := call (Call_kube_Create secret) t in
          match kube_Create kubeClient secret with
          | Some err => (Fail err, t)
          | None => (Val secret, t)
          end
      end
  end.

(** [initAPIClient] has a pointer receiver and assigns [opts.APIClient] as
    its last step: the result says which client was assigned, or how the
    function failed before. *)
Definition initAPIClient (opts : Options) (kubeClient : KubeClient)
    (cacert : Certificate) : APIClientResult FClient * Trace :=
  let t := call (Call_kube_Get ClientTLSSecretName (Namespace opts)) (mkTrace [] []) in
  let withSecret (secret : Secret) (t : Trace) : APIClientResult FClient * Trace :=
    let '(certPEM, keyPEM) := secretutil_GetCertAndKey secret in
    let t := call (Call_X509KeyPair certPEM keyPEM) t in
    match tls_X509KeyPair certPEM keyPEM with
    | Fail err =>
        let t := log_Error err "not able to create tls key pair" t in
        (APIClientErrBefore (logs t) err, t)
    | Val cert =>
        let t := call (Call_NewClient (APIServerAddress opts) (Cluster opts)) t in
        match fclient_NewClient (APIServerAddress opts) (Cluster opts) cacert cert with
        | Fail err => (APIClientErrNewClient err, t)
        | Val cli => (APIClientOk cli, t)
        end
    end in
  match kube_Get kubeClient ClientTLSSecretName (Namespace opts) with
  | Found secret => withSecret secret t
  | NotFound _ =>
      match createTLSSecretForClient opts kubeClient cacert t with
      | (Fail err, t) =>
          let t := log_Error err "failed to create tls secret for API client" t in
          (APIClientErrBefore (logs t) err, t)
      | (Val secret, t) => withSecret secret t
      end
  | GetFailed err =>
      let t := log_Error err "failed to get tls secret for API client" t in
      (APIClientErrBefore (logs t) err, t)
  end.

End WithPKI.

End APIClientInit.

(* ===================================================================== *)
(** * pkg/connector: the manager                                           *)
(* ===================================================================== *)

Module ConnectorManager.
Import Go.

(** Modelled from the spec: routing.ConnectorPrefixes is declared outside
    the manager; the design document calls the broadcast payload the
    (local-prefixes, remote-prefixes) pair and the manager reads the two
    fields [LocalPrefixes] and [RemotePrefixes]. *)
Record ConnectorPrefixes : Type := mkConnectorPrefixes {
  LocalPrefixes : list string;
  RemotePrefixes : list string
}.

(** Names of the four ipsets. *)
Inductive IPSetName : Type :=
| IPSetEdgeNodeCIDR
| IPSetCloudPodCIDR
| IPSetCloudNodeCIDR
| IPSetEdgePodCIDR.

Section WithConnConfig.
(** tunnel.ConnConfig, and the values of the four ipset name constants,
    both declared in other files of the package. *)
Context {ConnConfig : Type}.
Context (ipsetName : IPSetName -> string).

(** Every call the manager makes on a collaborator (tunnel manager, router,
    membership client, iptables and ipset helpers) and every log line, in
    the order made. *)
Inductive Action : Type :=
| Call_tm_IsActive
| Call_router_SyncRoutes (conns : list ConnConfig)
| Call_router_CleanRoutes (conns : list ConnConfig)
| Call_router_GetConnectorPrefixes
| Call_json_Marshal (cp : ConnectorPrefixes)
| Call_mc_Broadcast (b : string)
| Call_syncConnections
| Call_ensureForwardIPTablesRules
| Call_ensureNatIPTablesRules
| Call_ensureInputIPTablesRules
| Call_syncIPSet (set : IPSetName)
| Call_clearFabedgeIptablesChains
| Call_CleanSNatIPTablesRules
| Klog (entry : LogEntry).

(** What the collaborators answer while one task runs. *)
Record World : Type := mkWorld {
  tm_IsActive : Result bool;
  router_SyncRoutes : list ConnConfig -> option error;
  router_CleanRoutes : list ConnConfig -> option error;
  router_GetConnectorPrefixes : Result ConnectorPrefixes;
  json_Marshal : ConnectorPrefixes -> Result string;
  syncConnections : list ConnConfig -> list ConnConfig * option error;
  ensureForwardIPTablesRules : option error;
  ensureNatIPTablesRules : option error;
  ensureInputIPTablesRules : option error;
  syncIPSet : IPSetName -> option error;
  clearFabedgeIptablesChains : option error;
  CleanSNatIPTablesRules : option error
}.

(** The manager: its connections, and the actions taken so far. *)
Record Manager : Type := mkManager {
  connections : list ConnConfig;
  actions : list Action
}.

Definition emit (a : Action) (m : Manager) : Manager :=
  mkManager (connections m) (actions m ++ [a]).

Definition klog_Errorf (msg : string) (err : error) (m : Manager) : Manager :=
  emit (Klog (logErrorf (msg ++ err)%string err)) m.

Definition klog_Info (msg : string) (m : Manager) : Manager :=
  emit (Klog (logInfo msg)) m.

Definition routeTaskFn (w : World) (m : Manager) : Manager :=
  let m := emit Call_tm_IsActive m in
  match tm_IsActive w with
  | Fail err => klog_Errorf "failed to get tunnel manager status: " err m
  | Val active =>
      if active then
        let conns := connections m in
        let m := emit (Call_router_SyncRoutes conns) m in
        match router_SyncRoutes w conns with
        | Some err => klog_Errorf "failed to sync routes: " err m
        | None => klog_Info "routes are synced" m
        end
      else
        let conns := connections m in
        let m := emit (Call_router_CleanRoutes conns) m in
        match router_CleanRoutes w conns with
        | Some err => klog_Errorf "failed to clean routes: " err m
        | None => klog_Info "routes are synced" m
        end
  end.

Definition iptablesTaskFn (w : World) (m : Manager) : Manager :=
  let m := emit Call_ensureForwardIPTablesRules m in
  let m := match ensureForwardIPTablesRules w with
           | Some err => klog_Errorf "error when to add iptables forward rules: " err m
           | None => klog_Info "iptables forward rules are added" m
           end in
  let m := emit Call_ensureNatIPTablesRules m in
  let m := match ensureNatIPTablesRules w with
           | Some err => klog_Errorf "error when to add iptables nat rules: " err m
           | None => klog_Info "iptables nat rules are added" m
           end in
  let m := emit Call_ensureInputIPTablesRules m in
  match ensureInputIPTablesRules w with
  | Some err => klog_Errorf "error when to add iptables input rules: " err m
  | None => klog_Info "iptables input rules are added" m
  end.

(** Connector broadcasts the active routing info to all cloud agents. A
    marshalling error is logged and the (then nil) bytes are broadcast all
    the same. Lines logged at verbosity 5 are left out. *)
Definition broadcastToAgents (w : World) (m : Manager) : Manager :=
  let m := emit Call_router_GetConnectorPrefixes m in
  match router_GetConnectorPrefixes w with
  | Fail err => klog_Errorf "failed to get connector prefixes:" err m
  | Val cp =>
      if (length (RemotePrefixes cp) <? 1)%nat || (length (LocalPrefixes cp) <? 1)%nat
      then m
      else
        let m := emit (Call_json_Marshal cp) m in
        match json_Marshal w cp with
        | Fail err =>
            let m := klog_Errorf "failed to marshal prefixes:" err m in
            emit (Call_mc_Broadcast "") m
        | Val b => emit (Call_mc_Broadcast b) m
        end
  end.

(** [m.syncConnections] lives in another file of the package; it answers
    with the connections the manager holds afterwards and its error. *)
Definition tunnelTaskFn (w : World) (m : Manager) : Manager :=
  let m := emit Call_syncConnections m in
  match syncConnections w (connections m) with
  | (conns, Some err) =>
      klog_Errorf "error when to sync tunnels: " err (mkManager conns (actions m))
  | (conns, None) =>
      let m := broadcastToAgents w (mkManager conns (actions m)) in
      klog_Info "tunnels are synced" m
  end.

Definition syncSet (w : World) (set : IPSetName) (m : Manager) : Manager :=
  let m := emit (Call_syncIPSet set) m in
  match syncIPSet w set with
  | Some err =>
      klog_Errorf ("error when to sync ipset " ++ ipsetName set ++ ": ")%string err m
  | None => klog_Info ("ipset " ++ ipsetName set ++ " are synced")%string m
  end.

Definition ipsetTaskFn (w : World) (m : Manager) : Manager :=
  let m := syncSet w IPSetEdgeNodeCIDR m in
  let m := syncSet w IPSetCloudPodCIDR m in
  let m := syncSet w IPSetCloudNodeCIDR m in
  syncSet w IPSetEdgePodCIDR m.

Definition tasks : list (World -> Manager -> Manager) :=
  [tunnelTaskFn; routeTaskFn; ipsetTaskFn; iptablesTaskFn].

(** One round of [runTasks]: every handler once, in order. *)
Definition runRound (handlers : list (World -> Manager -> Manager))
    (w : World) (m : Manager) : Manager :=
  fold_left (fun m h => h w m) handlers m.

(** [runTasks] for as many rounds as there are worlds to answer them. *)
Definition runTasks (handlers : list (World -> Manager -> Manager))
    (ws : list World) (m : Manager) : Manager :=
  fold_left (fun m w => runRound handlers w m) ws m.

Definition gracefulShutdown (w : World) (m : Manager) : Manager :=
  let conns := connections m in
  let m := emit (Call_router_CleanRoutes conns) m in
  let m := match router_CleanRoutes w conns with
           | Some err => klog_Errorf "failed to clean routers: " err m
           | None => m
           end in
  let m := emit Call_CleanSNatIPTablesRules m in
  match CleanSNatIPTablesRules w with
  | Some err => klog_Errorf "failed to clean iptables: " err m
  | None => m
  end.

(** [Start], before the periodic tasks are launched. *)
Definition startUp (w : World) (m : Manager) : Manager :=
  let m := emit Call_clearFabedgeIptablesChains m in
  let m := match clearFabedgeIptablesChains w with
           | Some err => klog_Errorf "failed to clean iptables: " err m
           | None => m
           end in
  klog_Info "manager started" m.

(** [Start], once SIGINT or SIGTERM has arrived on the channel. *)
Definition onSignal (w : World) (m : Manager) : Manager :=
  klog_Info "connector stopped" (gracefulShutdown w m).

(** The calls among the actions, log lines left out. *)
Definition is_call (a : Action) : bool :=
  match a with
  | Klog _ => false
  | _ => true
  end.

Definition calls (m : Manager) : list Action := List.filter is_call (actions m).

(** The payloads handed to [mc.Broadcast]. *)
Definition broadcasts (m : Manager) : list string :=
  List.flat_map (fun a => match a with Call_mc_Broadcast b => [b] | _ => [] end)
    (actions m).

End WithConnConfig.

Arguments Action : clear implicits.
Arguments World : clear implicits.
Arguments Manager : clear implicits.

End ConnectorManager.

(* ===================================================================== *)
(** * pkg/operator/controllers/agent: the certificate handler             *)
(* ===================================================================== *)

Module AgentCert.
Import Go.

Inductive ExtKeyUsage : Type := ServerAuth | ClientAuth.


(** Modelled from the spec: package certutil is outside the sources at
    hand. The design document gives a CertManager the operations SignCert,
    VerifyCert and GetCACert; a certificate has a common name and a validity
    interval, and verification is against the CA for a set of extended key
    usages at a point in time. *)
Class CertManager : Type := {
  Cert : Type;
  Key : Type;
  GetCACert : Cert;
  CommonName : Cert -> string;
  NotBefore : Cert -> Z;
  NotAfter : Cert -> Z;
  (** signature and usage check, time apart *)
  IssuedFor : Cert -> list ExtKeyUsage -> bool;
  (** [SignCert now cn usages]: a key generated locally and its certificate *)
  SignCert : Z -> string -> list ExtKeyUsage -> Result (Cert * Key)
}.



Section WithCertManager.
Context `{CM : CertManager}.

(** Modelled from the spec: the per-node TLS secret has the fields ca.crt,
    tls.crt and tls.key. *)
Record Secret : Type := mkSecret {
  caCrt : Cert;
  tlsCrt : Cert;
  tlsKey : Key
}.

(** Modelled from the spec: the secret of node N is named
    [<prefix>-<node>-tls]; the prefix is a constant of the package. *)
Definition getCertSecretName (prefix nodeName : string) : string :=
  (prefix ++ "-" ++ nodeName ++ "-tls")%string.




(** Modelled from the spec: Undo removes the secret on node deletion. *)
Definition Undo (prefix : string) (nodeName : string) (secrets : gmap string Secret)
  : gmap string Secret :=
  delete (getCertSecretName prefix nodeName) secrets.

End WithCertManager.

End AgentCert.

(* ===================================================================== *)
(** * The matcher decides the language of the pattern                      *)
(* ===================================================================== *)

Module RegexpFacts.
Import Regexp.

Lemma lang_Cat_inv (r1 r2 : regex) (s : list ascii) :
  lang (Cat r1 r2) s ->
  exists s1 s2, s = (s1 ++ s2)%list /\ lang r1 s1 /\ lang r2 s2.
Proof. inversion 1; subst; eauto. Qed.

Lemma lang_cat_smart (r1 r2 : regex) (s : list ascii) :
  lang (cat r1 r2) s <-> lang (Cat r1 r2) s.
Proof.
  split.
  - destruct r1, r2; simpl; intros Hl;
      try assumption; try (inversion Hl; fail);
      try (change s with (nil ++ s)%list; constructor; [constructor | assumption]).
  - intros Hl. apply lang_Cat_inv in Hl as (s1 & s2 & -> & H1 & H2).
    destruct r1, r2; simpl;
      try (constructor; assumption);
      try (inversion H1; fail); try (inversion H2; fail);
      try (inversion H1; subst; simpl; assumption).
Qed.

Lemma nullable_lang (r : regex) : nullable r = true <-> lang r [].
Proof.
  induction r; simpl; split; intros Hn;
    try discriminate; try constructor; try (inversion Hn; fail); try reflexivity.
  - apply andb_prop in Hn as [H1 H2].
    change (@nil ascii) with (@nil ascii ++ nil)%list.
    constructor; [apply IHr1 | apply IHr2]; assumption.
  - apply lang_Cat_inv in Hn as (s1 & s2 & Heq & H1 & H2).
    symmetry in Heq. apply app_eq_nil in Heq as [-> ->].
    apply andb_true_intro. split; [apply IHr1 | apply IHr2]; assumption.
Qed.

Lemma deriv_sound (c : ascii) (r : regex) :
  forall d s, In d (deriv c r) -> lang d s -> lang r (c :: s).
Proof.
  induction r; simpl; intros d s Hin Hl; try contradiction.
  - destruct (Ascii.eqb_spec c c0); [| contradiction].
    destruct Hin as [<- | []]. inversion Hl; subst. constructor.
  - destruct (in_class ranges c) eqn:Hc; [| contradiction].
    destruct Hin as [<- | []]. inversion Hl; subst. constructor. assumption.
  - apply in_app_or in Hin as [Hin | Hin].
    + apply in_map_iff in Hin as (d1 & <- & Hd1).
      apply lang_cat_smart in Hl.
      apply lang_Cat_inv in Hl as (s1 & s2 & -> & H1 & H2).
      change (c :: s1 ++ s2)%list with ((c :: s1) ++ s2)%list.
      constructor; [eapply IHr1; eassumption | assumption].
    + destruct (nullable r1) eqn:Hn; [| contradiction].
      change (c :: s) with (nil ++ c :: s)%list.
      constructor; [apply nullable_lang; assumption | eapply IHr2; eassumption].
  - apply L_QuestSome. eapply IHr; eassumption.
  - apply in_map_iff in Hin as (d1 & <- & Hd1).
    apply lang_cat_smart in Hl.
    apply lang_Cat_inv in Hl as (s1 & s2 & -> & H1 & H2).
    change (c :: s1 ++ s2)%list with ((c :: s1) ++ s2)%list.
    constructor; [eapply IHr; eassumption | assumption].
Qed.

Lemma deriv_complete (c : ascii) (r : regex) (s0 : list ascii) :
  lang r s0 -> forall s, s0 = c :: s -> exists d, In d (deriv c r) /\ lang d s.
Proof.
  induction 1 as [| c0 | rs c0 Hc | r1 r2 s1 s2 H1 IH1 H2 IH2
                  | r | r s1 H1 IH1 | r | r s1 s2 H1 IH1 H2 IH2];
    intros s Heq; simpl.
  - discriminate.
  - injection Heq as -> <-. rewrite Ascii.eqb_refl.
    exists Eps. split; [left; reflexivity | constructor].
  - injection Heq as -> <-. rewrite Hc.
    exists Eps. split; [left; reflexivity | constructor].
  - destruct s1 as [| a s1'].
    + simpl in Heq. destruct (IH2 _ Heq) as (d & Hd & Hl).
      exists d. split; [| assumption].
      apply in_or_app. right.
      apply nullable_lang in H1. rewrite H1. assumption.
    + simpl in Heq. injection Heq as -> <-.
      destruct (IH1 _ eq_refl) as (d & Hd & Hl).
      exists (cat d r2). split.
      * apply in_or_app. left.
        apply (in_map (fun d0 => cat d0 r2)). assumption.
      * apply lang_cat_smart. constructor; assumption.
  - discriminate.
  - apply IH1. assumption.
  - discriminate.
  - destruct s1 as [| a s1'].
    + simpl in Heq. apply (IH2 _ Heq).
    + simpl in Heq. injection Heq as -> <-.
      destruct (IH1 _ eq_refl) as (d & Hd & Hl).
      exists (cat d (Star r)). split.
      * apply (in_map (fun d0 => cat d0 (Star r))). assumption.
      * apply lang_cat_smart. constructor; assumption.
Qed.

Lemma run_lang (s : list ascii) :
  forall rs, run rs s = true <-> exists r, In r rs /\ lang r s.
Proof.
  induction s as [| c s IH]; intros rs; simpl.
  - rewrite existsb_exists. split; intros (r & Hin & Hr); exists r;
      (split; [assumption | apply nullable_lang; assumption]).
  - rewrite IH. unfold step. split.
    + intros (d & Hin & Hl). apply in_flat_map in Hin as (r & Hr & Hd).
      exists r. split; [assumption | eapply deriv_sound; eassumption].
    + intros (r & Hr & Hl).
      destruct (deriv_complete c r _ Hl s eq_refl) as (d & Hd & Hld).
      exists d. split; [| assumption].
      apply in_flat_map. exists r. split; assumption.
Qed.

(** The matcher accepts exactly the words of the language. *)
Lemma matches_lang (r : regex) (s : list ascii) :
  matches r s = true <-> lang r s.
Proof.
  unfold matches. rewrite run_lang. split.
  - intros (r' & [<- | []] & Hl). assumption.
  - intros Hl. exists r. split; [left; reflexivity | assumption].
Qed.

End RegexpFacts.

(* ===================================================================== *)
(** * What [dns1123Reg] accepts                                            *)
(* ===================================================================== *)

Module DNS1123Facts.
Import Regexp DNS1123 RegexpFacts.

Local Open Scope char_scope.

Lemma in_class_alnum (c : ascii) :
  in_class [("a", "z"); ("0", "9")] c = is_alnum c.
Proof. unfold in_class, is_alnum. simpl. rewrite orb_false_r. reflexivity. Qed.

Lemma in_range_hyphen (c : ascii) : in_range c ("-", "-") = Ascii.eqb c "-".
Proof. destruct c as [[] [] [] [] [] [] [] []]; reflexivity. Qed.

Lemma in_class_ldh (c : ascii) :
  in_class [("-", "-"); ("a", "z"); ("0", "9")] c = is_ldh c.
Proof.
  unfold in_class, is_ldh, is_alnum. simpl.
  rewrite orb_false_r, in_range_hyphen. reflexivity.
Qed.

Lemma is_alnum_ldh (c : ascii) : is_alnum c = true -> is_ldh c = true.
Proof. unfold is_ldh. intros ->. apply orb_true_r. Qed.

Lemma is_ldh_not_dot (c : ascii) : is_ldh c = true -> Ascii.eqb c "." = false.
Proof.
  destruct (Ascii.eqb_spec c "."); [subst; discriminate | reflexivity].
Qed.

Lemma lang_Class_inv (rs : list (ascii * ascii)) (s : list ascii) :
  lang (Class rs) s <-> exists c, s = [c] /\ in_class rs c = true.
Proof.
  split.
  - inversion 1; subst; eauto.
  - intros (c & -> & Hc). constructor. assumption.
Qed.

Lemma lang_Lit_inv (c : ascii) (s : list ascii) : lang (Lit c) s <-> s = [c].
Proof. split; [inversion 1; reflexivity | intros ->; constructor]. Qed.

Lemma lang_Quest_inv (r : regex) (s : list ascii) :
  lang (Quest r) s <-> s = [] \/ lang r s.
Proof.
  split.
  - inversion 1; subst; auto.
  - intros [-> | Hl]; [apply L_QuestNone | apply L_QuestSome; assumption].
Qed.

Lemma lang_Cat_iff (r1 r2 : regex) (s : list ascii) :
  lang (Cat r1 r2) s <->
  exists s1 s2, s = (s1 ++ s2)%list /\ lang r1 s1 /\ lang r2 s2.
Proof.
  split; [apply lang_Cat_inv |].
  intros (s1 & s2 & -> & H1 & H2). constructor; assumption.
Qed.

(** Star of a language, unfolded into the list of its pieces. *)
Lemma lang_Star_pieces (r : regex) (s : list ascii) :
  lang (Star r) s <->
  exists pieces, Forall (lang r) pieces /\ s = List.concat pieces.
Proof.
  split.
  - intros Hl. remember (Star r) as sr eqn:Hsr.
    induction Hl as [| | | | | | r0 | r0 s1 s2 H1 _ H2 IH2]; try discriminate.
    + exists []. split; [constructor | reflexivity].
    + injection Hsr as ->. destruct (IH2 eq_refl) as (ps & Hps & ->).
      exists (s1 :: ps). split; [constructor; assumption | reflexivity].
  - intros (ps & Hps & ->). induction Hps as [| p ps Hp _ IH]; simpl.
    + constructor.
    + constructor; assumption.
Qed.

Lemma lang_Star_ldh (s : list ascii) :
  lang (Star ldhClass) s <-> forallb is_ldh s = true.
Proof.
  rewrite lang_Star_pieces. split.
  - intros (ps & Hps & ->). induction Hps as [| p ps Hp _ IH]; [reflexivity |].
    apply lang_Class_inv in Hp as (c & -> & Hc).
    rewrite in_class_ldh in Hc. simpl. rewrite Hc, IH. reflexivity.
  - induction s as [| c s IH]; simpl; intros Hs.
    + exists []. split; [constructor | reflexivity].
    + apply andb_prop in Hs as [Hc Hs]. destruct (IH Hs) as (ps & Hps & ->).
      exists ([c] :: ps). split; [| reflexivity].
      constructor; [| assumption].
      apply lang_Class_inv. exists c. rewrite in_class_ldh. auto.
Qed.

(** The label part of the pattern accepts exactly the label shapes. *)
Lemma lang_labelReg (s : list ascii) :
  lang labelReg s <-> label_shape s = true.
Proof.
  unfold labelReg. rewrite lang_Cat_iff. split.
  - intros (s1 & s2 & -> & H1 & H2).
    apply lang_Class_inv in H1 as (c & -> & Hc). rewrite in_class_alnum in Hc.
    apply lang_Quest_inv in H2 as [-> | H2]; simpl.
    + rewrite Hc. reflexivity.
    + apply lang_Cat_iff in H2 as (m & e & -> & Hm & He).
      apply lang_Star_ldh in Hm.
      apply lang_Class_inv in He as (d & -> & Hd). rewrite in_class_alnum in Hd.
      rewrite Hc, forallb_app, Hm, last_last, Hd. simpl.
      rewrite (is_alnum_ldh _ Hd). reflexivity.
  - destruct s as [| c t]; simpl; [discriminate |].
    intros Hs. apply andb_prop in Hs as [Hs Hlast]. apply andb_prop in Hs as [Hc Ht].
    exists [c], t. split; [reflexivity |]. split.
    + apply lang_Class_inv. exists c. rewrite in_class_alnum. auto.
    + apply lang_Quest_inv. destruct t as [| a t']; [left; reflexivity | right].
      assert (Hne : a :: t' <> []) by discriminate.
      destruct (exists_last Hne) as (m & d & Hmd).
      rewrite Hmd in *. rewrite last_last in Hlast.
      rewrite forallb_app in Ht. apply andb_prop in Ht as [Hm _].
      apply lang_Cat_iff. exists m, [d]. split; [reflexivity |]. split.
      * apply lang_Star_ldh. assumption.
      * apply lang_Class_inv. exists d. rewrite in_class_alnum. auto.
Qed.

Lemma label_shape_ldh (l : list ascii) :
  label_shape l = true -> forallb is_ldh l = true.
Proof.
  destruct l as [| c t]; simpl; [discriminate |].
  intros Hs. apply andb_prop in Hs as [Hs _]. apply andb_prop in Hs as [Hc Ht].
  rewrite (is_alnum_ldh _ Hc), Ht. reflexivity.
Qed.

(** Joining labels with dots, the inverse of [split_dots]. *)
Definition join_dots (first : list ascii) (others : list (list ascii)) : list ascii :=
  (first ++ List.concat (List.map (cons ".") others))%list.

Lemma split_dots_nonempty (s : list ascii) : split_dots s <> [].
Proof.
  destruct s as [| c t]; simpl; [discriminate |].
  destruct (Ascii.eqb c "."); [discriminate |].
  destruct (split_dots t); discriminate.
Qed.

Lemma split_dots_join (s : list ascii) :
  exists first others, split_dots s = first :: others /\ s = join_dots first others.
Proof.
  induction s as [| c t (f & o & Hso & Ht)]; simpl.
  - exists [], []. split; reflexivity.
  - destruct (Ascii.eqb_spec c ".") as [-> | Hne].
    + exists [], (f :: o). rewrite Hso. split; [reflexivity |].
      unfold join_dots in *. simpl. rewrite <- Ht. reflexivity.
    + rewrite Hso. exists (c :: f), o. split; [reflexivity |].
      unfold join_dots in *. simpl. rewrite <- Ht. reflexivity.
Qed.

Lemma split_dots_label (l rest : list ascii) :
  forallb is_ldh l = true ->
  split_dots (l ++ "." :: rest) = l :: split_dots rest.
Proof.
  induction l as [| c l IH]; simpl; intros Hl; [reflexivity |].
  apply andb_prop in Hl as [Hc Hl].
  rewrite (is_ldh_not_dot _ Hc), (IH Hl). reflexivity.
Qed.

Lemma split_dots_single (l : list ascii) :
  forallb is_ldh l = true -> split_dots l = [l].
Proof.
  induction l as [| c l IH]; simpl; intros Hl; [reflexivity |].
  apply andb_prop in Hl as [Hc Hl].
  rewrite (is_ldh_not_dot _ Hc), (IH Hl). reflexivity.
Qed.

Lemma split_dots_joined (first : list ascii) (others : list (list ascii)) :
  forallb is_ldh first = true ->
  Forall (fun l => forallb is_ldh l = true) others ->
  split_dots (join_dots first others) = first :: others.
Proof.
  intros Hf Ho. revert first Hf.
  induction Ho as [| l others Hl _ IH]; intros first Hf; unfold join_dots; simpl.
  - rewrite app_nil_r. apply split_dots_single. assumption.
  - rewrite split_dots_label by assumption.
    f_equal. apply (IH l Hl).
Qed.

(** The whole pattern accepts exactly the dotted names. *)
Lemma lang_dns1123Reg (s : list ascii) :
  lang dns1123Reg s <-> dotted_name_shape s = true.
Proof.
  unfold dns1123Reg, dotted_name_shape. rewrite lang_Cat_iff. split.
  - intros (first & tail & -> & Hfirst & Htail).
    apply lang_labelReg in Hfirst.
    apply lang_Star_pieces in Htail as (ps & Hps & ->).
    assert (Hothers : exists others,
               ps = List.map (cons ".") others /\
               Forall (fun l => label_shape l = true) others).
    { induction Hps as [| p ps Hp _ (others & -> & Ho)].
      - exists []. split; [reflexivity | constructor].
      - apply lang_Cat_iff in Hp as (d & l & -> & Hd & Hl).
        apply lang_Lit_inv in Hd as ->. apply lang_labelReg in Hl.
        exists (l :: others). split; [reflexivity | constructor; assumption]. }
    destruct Hothers as (others & -> & Ho).
    fold (join_dots first others). rewrite split_dots_joined.
    + simpl. rewrite Hfirst. simpl.
      apply forallb_forall. intros l Hin.
      pose proof (proj1 (List.Forall_forall _ _) Ho) as Ho'.
      apply Ho'. assumption.
    + apply label_shape_ldh. assumption.
    + eapply List.Forall_impl; [| exact Ho]. intros l. apply label_shape_ldh.
  - intros Hall.
    destruct (split_dots_join s) as (first & others & Hsplit & ->).
    rewrite Hsplit in Hall. simpl in Hall. apply andb_prop in Hall as [Hf Ho].
    exists first, (List.concat (List.map (cons ".") others)).
    split; [reflexivity |]. split; [apply lang_labelReg; assumption |].
    apply lang_Star_pieces. exists (List.map (cons ".") others).
    split; [| reflexivity].
    apply List.Forall_forall. intros p Hp.
    apply in_map_iff in Hp as (l & <- & Hl).
    apply lang_Cat_iff. exists ["."], l. split; [reflexivity |].
    split; [apply lang_Lit_inv; reflexivity |].
    apply lang_labelReg. rewrite forallb_forall in Ho. apply Ho. assumption.
Qed.

(** [MatchString] on [dns1123Reg] is the dotted-name test. *)
Lemma MatchString_dns1123Reg (s : string) :
  MatchString dns1123Reg s = IsDottedName s.
Proof.
  unfold MatchString, IsDottedName.
  apply eq_true_iff_eq. rewrite matches_lang. apply lang_dns1123Reg.
Qed.

(** A label is a dotted name with a single part. *)
Lemma label_is_dotted_name (s : string) :
  IsDNS1123Label s = true -> IsDottedName s = true.
Proof.
  unfold IsDNS1123Label, IsDottedName, dotted_name_shape.
  intros Hl. apply andb_prop in Hl as [Hl _].
  rewrite split_dots_single by (apply label_shape_ldh; assumption).
  simpl. rewrite Hl. reflexivity.
Qed.

End DNS1123Facts.

(* ===================================================================== *)
(** * An IPv4 reading of package net                                      *)
(* ===================================================================== *)

Module IPv4.
Import Go GoNet.

(** Decimal numbers, digit by digit. *)
Definition digit (c : ascii) : option Z :=
  if Regexp.in_range c ("0"%char, "9"%char) then Some (Z.of_N (N_of_ascii c) - 48) else None.

Fixpoint decimal (acc : Z) (s : list ascii) : option Z :=
  match s with
  | [] => Some acc
  | c :: t =>
      match digit c with
      | Some d => decimal (10 * acc + d) t
      | None => None
      end
  end.

Definition number (s : list ascii) : option Z :=
  match s with
  | [] => None
  | _ => decimal 0 s
  end.

(** The text before and after the first slash. *)
Fixpoint cut_slash (s : list ascii) : option (list ascii * list ascii) :=
  match s with
  | [] => None
  | c :: t =>
      if Ascii.eqb c "/"%char then Some ([], t)
      else match cut_slash t with
           | Some (a, m) => Some (c :: a, m)
           | None => None
           end
  end.

Definition octet (s : list ascii) : option Z :=
  match number s with
  | Some n => if n <=? 255 then Some n else None
  | None => None
  end.

Definition address (s : list ascii) : option Z :=
  match List.map octet (DNS1123.split_dots s) with
  | [Some a; Some b; Some c; Some d] =>
      Some (Z.lor (Z.shiftl a 24) (Z.lor (Z.shiftl b 16) (Z.lor (Z.shiftl c 8) d)))
  | _ => None
  end.

(** A network: its base address and the number of host bits. *)
Record Net : Type := mkNet { base : Z; hostBits : nat }.

Definition network (ip : Z) (prefixLen : Z) : Net :=
  let k := Z.to_nat (32 - prefixLen) in
  mkNet (Z.shiftl (Z.shiftr ip (Z.of_nat k)) (Z.of_nat k)) k.

Definition parseCIDR (s : string) : Result (Z * Net) :=
  match cut_slash (list_ascii_of_string s) with
  | Some (a, m) =>
      match address a, number m with
      | Some ip, Some n =>
          if n <=? 32 then Val (ip, network ip n)
          else Fail ("invalid CIDR address: " ++ s)%string
      | _, _ => Fail ("invalid CIDR address: " ++ s)%string
      end
  | None => Fail ("invalid CIDR address: " ++ s)%string
  end.

Definition contains (n : Net) (ip : Z) : bool :=
  Z.shiftr ip (Z.of_nat (hostBits n)) =? Z.shiftr (base n) (Z.of_nat (hostBits n)).

#[export] Instance netlib : NetLib := {
  IP := Z;
  IPNet := Net;
  ParseCIDR := parseCIDR;
  Contains := contains
}.

End IPv4.

(* ===================================================================== *)
(** * Package net, byte by byte                                            *)
(* ===================================================================== *)

Module NetIP.
Import Go GoNet.

(** An [IP] and an [IPMask] are byte slices; the nil slice is the empty
    list. *)
Definition IPv4len : nat := 4.
Definition IPv6len : nat := 16.

Record IPNet : Type := mkIPNet {
  netIP : list Z;
  netMask : list Z
}.

Definition v4InV6Prefix : list Z := [0; 0; 0; 0; 0; 0; 0; 0; 0; 0; 255; 255].

(** [net.IPv4(a, b, c, d)]: the address in its 16-byte form. *)
Definition IPv4 (a b c d : Z) : list Z := (v4InV6Prefix ++ [a; b; c; d])%list.

Definition isZeros (p : list Z) : bool := forallb (Z.eqb 0) p.

Definition allFF (b : list Z) : bool := forallb (Z.eqb 255) b.

Definition bytesEqual (a b : list Z) : bool :=
  (length a =? length b)%nat && forallb (fun xy => fst xy =? snd xy) (combine a b).

(** [IP.To4]: the 4-byte form of an IPv4 address, nil ([None]) for any
    other address. *)
Definition To4 (ip : list Z) : option (list Z) :=
  if (length ip =? IPv4len)%nat then Some ip
  else if (length ip =? IPv6len)%nat && isZeros (firstn 10 ip)
          && (nth 10 ip 0 =? 255) && (nth 11 ip 0 =? 255)
  then Some (skipn 12 ip)
  else None.

(** [IP.Mask] *)
Definition Mask (ip mask : list Z) : list Z :=
  let mask :=
    if (length mask =? IPv6len)%nat && (length ip =? IPv4len)%nat
       && allFF (firstn 12 mask)
    then skipn 12 mask else mask in
  let ip :=
    if (length mask =? IPv4len)%nat && (length ip =? IPv6len)%nat
       && bytesEqual (firstn 12 ip) v4InV6Prefix
    then skipn 12 ip else ip in
  if negb (length ip =? length mask)%nat then []
  else List.map (fun xy => Z.land (fst xy) (snd xy)) (combine ip mask).

(** The loop of [CIDRMask]: [l] bytes of which the first [n] bits are
    ones. *)
Fixpoint maskBytes (l : nat) (n : Z) : list Z :=
  match l with
  | O => []
  | S l' =>
      if 8 <=? n then 255 :: maskBytes l' (n - 8)
      else Z.lxor 255 (Z.shiftr 255 n) :: maskBytes l' 0
  end.

Definition CIDRMask (ones bits : Z) : list Z :=
  if negb (bits =? 8 * Z.of_nat IPv4len) && negb (bits =? 8 * Z.of_nat IPv6len) then []
  else if (ones <? 0) || (bits <? ones) then []
  else maskBytes (Z.to_nat (bits / 8)) ones.

Definition networkNumberAndMask (n : IPNet) : list Z * list Z :=
  let ip :=
    match To4 (netIP n) with
    | Some x => Some x
    | None => if (length (netIP n) =? IPv6len)%nat then Some (netIP n) else None
    end in
  match ip with
  | None => ([], [])
  | Some ip =>
      let m := netMask n in
      if (length m =? IPv4len)%nat then
        if (length ip =? IPv4len)%nat then (ip, m) else ([], [])
      else if (length m =? IPv6len)%nat then
        if (length ip =? IPv4len)%nat then (ip, skipn 12 m) else (ip, m)
      else ([], [])
  end.

(** [IPNet.Contains] *)
Definition Contains (n : IPNet) (ip : list Z) : bool :=
  let '(nn, m) := networkNumberAndMask n in
  let ip := match To4 ip with Some x => x | None => ip end in
  if negb (length ip =? length nn)%nat then false
  else forallb (fun abm => Z.land (fst (fst abm)) (snd abm)
                           =? Z.land (snd (fst abm)) (snd abm))
         (combine (combine nn ip) m).

(** [parseIPv4]: four decimal octets separated by dots. *)
Definition parseIPv4 (s : list ascii) : option (list Z) :=
  match List.map IPv4.octet (DNS1123.split_dots s) with
  | [Some a; Some b; Some c; Some d] => Some (IPv4 a b c d)
  | _ => None
  end.

Fixpoint strip_prefix (p s : list ascii) : option (list ascii) :=
  match p, s with
  | [], _ => Some s
  | a :: p', b :: s' => if Ascii.eqb a b then strip_prefix p' s' else None
  | _ :: _, [] => None
  end.

(** [parseIPv6], for the one notation met here: an IPv4-mapped address
    written [::ffff:a.b.c.d], for which the library fills bytes 10 and 11
    with ff and the last four with the dotted quad. The other notations of
    IPv6, which the library reads too, are refused by this definition. *)
Definition parseIPv6 (s : list ascii) : option (list Z) :=
  match strip_prefix (list_ascii_of_string "::ffff:") s with
  | Some quad => parseIPv4 quad
  | None => None
  end.

(** [net.ParseCIDR]: the address as written, in 16 bytes, and the network,
    whose address is the written one under the mask. *)
Definition ParseCIDR (s : string) : Result (list Z * IPNet) :=
  let invalid : Result (list Z * IPNet) := Fail ("invalid CIDR address: " ++ s)%string in
  match IPv4.cut_slash (list_ascii_of_string s) with
  | None => invalid
  | Some (addr, mask) =>
      let '(iplen, ip) :=
        match parseIPv4 addr with
        | Some ip => (IPv4len, Some ip)
        | None => (IPv6len, parseIPv6 addr)
        end in
      match ip, IPv4.number mask with
      | Some ip, Some n =>
          if n <=? 8 * Z.of_nat iplen then
            let m := CIDRMask n (8 * Z.of_nat iplen) in
            Val (ip, mkIPNet (Mask ip m) m)
          else invalid
      | _, _ => invalid
      end
  end.

Definition netlib : NetLib := {|
  GoNet.IP := list Z;
  GoNet.IPNet := IPNet;
  GoNet.ParseCIDR := ParseCIDR;
  GoNet.Contains := Contains
|}.

End NetIP.

(* ===================================================================== *)
(** * A small cluster to run the operator against                          *)
(* ===================================================================== *)

Module Lab.
Import Go GoNet Operator.

(** What the surroundings answer in one experiment. A node is given by the
    endpoint it yields. *)
Record Answers : Type := mkAnswers {
  ansStat : string -> StatResult;
  ansGetConfig : Result unit;
  ansNodes : Result (list Endpoint);
  ansCommunities : Result (list CommunityObject)
}.

Definition platform (a : Answers) : @Platform IPv4.netlib :=
  @Build_Platform IPv4.netlib
    (* Node, NodeName *) Endpoint epName
    (* RestConfig .. PodCIDRs *) unit unit unit unit unit unit unit unit unit unit
    (* Allocator *) (list IPv4.Net)
    (* osStat, float64_overflow, TrimSpace *)
    (ansStat a) Float64.int64_min (fun s => s)
    (* allocator_New, allocator_Record *)
    (fun _ => Val []) (fun (n : IPv4.Net) (al : list IPv4.Net) => (al ++ [n])%list)
    (* NewPodCIDRStore, NewEndpointFuncs *)
    tt
    (fun cluster format _ =>
       (fun n => (cluster ++ "." ++ n)%string,
        fun n => (format ++ n)%string,
        fun node => node))
    (* config_GetConfig, client_New, manager_New, timeutil_Days *)
    (ansGetConfig a) (fun _ => Val tt) (fun _ _ => Val tt)
    (fun d => d * 24 * 3600 * Duration.Second)
    (* createCertManager .. tls_LoadX509KeyPair *)
    (fun _ _ _ _ => CertManagerOk tt tt) (fun _ => Val tt) (fun _ _ => APIClientOk tt)
    (fun _ _ => Val tt) (fun _ _ _ => Val tt) (fun _ _ => Val tt)
    (* client_ListNodes, client_ListCommunities *)
    (fun _ _ => ansNodes a) (fun _ => ansCommunities a).

Definition quiet : Answers :=
  mkAnswers (fun _ => StatFile) (Val tt) (Val []) (Val []).

Definition leader (lease renew retry : Z) : ManagerOptions :=
  mkManagerOptions false "fabedge-operator-leader" "" ""
    (Some lease) (Some renew) (Some retry).

Definition agent (a : Answers) (ipam : bool) (al : option (list IPv4.Net))
  : @AgentConfig _ (platform a) :=
  @mkAgentConfig _ (platform a) "fabedge/agent:latest" "fabedge/strongswan:latest"
    "IfNotPresent" 3 false false false true 1400 ipam al.

Definition connector (subnets : list string) : ConnectorConfig :=
  mkConnectorConfig {[ "app" := "fabedge-connector" ]}
    (mkConnectorEndpoint "" "" ["10.0.0.1"]) subnets (5 * Duration.Second) None.

(** Options as the flags leave them for a member cluster. *)
Definition flagOptions (a : Answers) (cluster cni : string) (lm : ManagerOptions)
    (edgePodCIDR : string) (subnets : list string)
  : @Options _ (platform a) :=
  @mkOptions _ (platform a) cluster RoleMember "fabedge" edgePodCIDR
    "C=CN, O=fabedge.io, CN={node}"
    {[ "node-role.kubernetes.io/edge" := "" ]} cni
    "fabedge-ca" 3650 "fabedge.io" (agent a false None) (connector subnets) "rr"
    lm "" "" "0.0.0.0:3030" "https://host:3030" (12 * 3600 * Duration.Second) "token"
    None None None None None None None.

Definition memberOptions (cluster : string) (lm : ManagerOptions)
    (ipam : bool) (edgePodCIDR : string) (subnets : list string)
  : @Options _ (platform quiet) :=
  @set_Agent _ (platform quiet) (agent quiet ipam None)
    (flagOptions quiet cluster "flannel" lm edgePodCIDR subnets).

(** Options as a successful [Complete] under Calico leaves them, with an
    empty store and an allocator that has recorded nothing. *)
Definition completedOptions (a : Answers) : @Options _ (platform a) :=
  @set_Manager _ (platform a) (Some tt)
    (@set_Store _ (platform a) (Some NewStore)
       (@set_NewEndpoint _ (platform a) (Some (fun node : Endpoint => node))
          (@set_Agent _ (platform a) (agent a true (Some []))
             (flagOptions a "bj" "calico" (leader 15000000000 10000000000 2000000000)
                "10.20.0.0/16" [])))).

Definition startProcess : Process :=
  mkProcess {[ "node-role.kubernetes.io/edge" := "" ]} [].

End Lab.

(* ===================================================================== *)
(** * Validate: which check speaks                                         *)
(* ===================================================================== *)

Module ValidateFacts.
Import Go GoNet Operator.

(** The errors of the cluster-name check (lines 291-297). *)
Definition is_cluster_name_error (e : ValidateError) : bool :=
  match e with
  | ErrClusterRequired | ErrInvalidClusterName _ => true
  | _ => false
  end.

(** The errors of the EdgePodCIDR check (lines 335-347). *)
Definition is_edge_pod_cidr_error (e : ValidateError) : bool :=
  match e with
  | ErrInvalidEdgePodCIDR _ _ | ErrOverlapped => true
  | _ => false
  end.

(** The errors of the leader-election checks (lines 356-373). *)
Definition is_leader_election_error (e : ValidateError) : bool :=
  match e with
  | ErrLeaseNotGreaterThanRenew | ErrRenewNotGreaterThanRetry
  | ErrLeaseBelowSecond | ErrRenewBelowSecond | ErrRetryBelowSecond => true
  | _ => false
  end.

(** [Validate] returns an error of the class [cls]. *)
Definition rejects_with `{Platform} (cls : ValidateError -> bool) (opts : Options) : Prop :=
  exists e, Validate opts = ReturnErr e /\ cls e = true.

Section WithPlatform.
Context `{Pf : Platform}.

Lemma validateSubnets_error (l : list string) (e : ValidateError) :
  validateSubnets l = Some e ->
  exists s cause, e = ErrInvalidSubnet s cause /\ In s l /\ ParseCIDR s = Fail cause.
Proof.
  induction l as [| s l IH]; simpl; [discriminate |].
  destruct (ParseCIDR s) as [v | cause] eqn:Hp.
  - intros He. destruct (IH He) as (s' & c & -> & Hin & Hs').
    exists s', c. auto.
  - intros [= <-]. exists s, cause. auto.
Qed.

Lemma validateSubnets_pass (l : list string) :
  validateSubnets l = None <-> forall s, In s l -> exists v, ParseCIDR s = Val v.
Proof.
  induction l as [| s l IH]; simpl.
  - split; [intros _ s [] | reflexivity].
  - destruct (ParseCIDR s) as [v | cause] eqn:Hp.
    + rewrite IH. split.
      * intros Hl s' [<- | Hin]; [exists v; assumption | apply Hl; assumption].
      * intros Hl s' Hin. apply Hl. right. assumption.
    + split; [discriminate |].
      intros Hl. destruct (Hl s (or_introl eq_refl)) as (v & Hv). congruence.
Qed.

Lemma validateOverlap_error (ip : IP) (subnet : IPNet) (l : list string) (e : ValidateError) :
  validateOverlap ip subnet l = ReturnErr e -> e = ErrOverlapped.
Proof.
  induction l as [| s l IH]; simpl; [discriminate |].
  destruct (ParseCIDR s) as [[ip2 subnet2] | cause]; [| discriminate].
  destruct (Contains subnet ip2 || Contains subnet2 ip); [| exact IH].
  intros [= <-]. reflexivity.
Qed.

(** The second loop returns nil exactly when no subnet trips the test. *)
Lemma validateOverlap_pass (ip : IP) (subnet : IPNet) (l : list string) :
  validateOverlap ip subnet l = ReturnNil <->
  forall s, In s l ->
    exists ip2 subnet2, ParseCIDR s = Val (ip2, subnet2) /\
      Contains subnet ip2 = false /\ Contains subnet2 ip = false.
Proof.
  induction l as [| s l IH]; simpl.
  - split; [intros _ s [] | reflexivity].
  - destruct (ParseCIDR s) as [[ip2 subnet2] | cause] eqn:Hp.
    + destruct (Contains subnet ip2 || Contains subnet2 ip) eqn:Hc.
      * split; [discriminate |]. intros Hl.
        destruct (Hl s (or_introl eq_refl)) as (i & n & Hv & H1 & H2).
        rewrite Hp in Hv. injection Hv as <- <-. rewrite H1, H2 in Hc. discriminate.
      * rewrite IH. apply orb_false_elim in Hc as [H1 H2]. split.
        -- intros Hl s' [<- | Hin]; [| apply Hl; assumption].
           exists ip2, subnet2. auto.
        -- intros Hl s' Hin. apply Hl. right. assumption.
    + split; [discriminate |]. intros Hl.
      destruct (Hl s (or_introl eq_refl)) as (i & n & Hv & _). congruence.
Qed.

(** The second loop panics only on a subnet that does not parse. *)
Lemma validateOverlap_panic (ip : IP) (subnet : IPNet) (l : list string) :
  validateOverlap ip subnet l = Panic ->
  exists s cause, In s l /\ ParseCIDR s = Fail cause.
Proof.
  induction l as [| s l IH]; simpl; [discriminate |].
  destruct (ParseCIDR s) as [[ip2 subnet2] | cause] eqn:Hp.
  - destruct (Contains subnet ip2 || Contains subnet2 ip); [discriminate |].
    intros Hl. destruct (IH Hl) as (s' & c & Hin & Hs'). exists s', c. auto.
  - intros _. exists s, cause. auto.
Qed.

(** Walks down the checks of [Validate] in a hypothesis [H : Validate opts = o],
    one case split per check. *)
Ltac walk H :=
  repeat match type of H with
         | (if ?c then _ else _) = _ => destruct c eqn:?
         | match ?x with _ => _ end = _ => destruct x eqn:?
         end.

(** In a leaf of the walk, finds which error a loop returned. *)
Ltac name_error :=
  repeat match goal with
         | Hs : validateSubnets _ = Some _ |- _ =>
             apply validateSubnets_error in Hs as (? & ? & -> & _)
         | Ho : validateOverlap _ _ _ = ReturnErr _ |- _ =>
             apply validateOverlap_error in Ho as ->
         end.

Lemma Validate_empty (opts : Options) :
  Cluster opts = "" -> Validate opts = ReturnErr ErrClusterRequired.
Proof. intros Hc. unfold Validate. rewrite Hc. reflexivity. Qed.

Lemma length_zero_empty (s : string) : (String.length s =? 0)%nat = true -> s = "".
Proof. destruct s; [reflexivity | discriminate]. Qed.

(** Past the cluster-name check, no later check reports a cluster-name
    error. *)
Lemma Validate_cluster_name (opts : Options) :
  rejects_with is_cluster_name_error opts <->
  Regexp.MatchString DNS1123.dns1123Reg (Cluster opts) = false.
Proof.
  unfold rejects_with. split.
  - intros (e & Hv & He). unfold Validate in Hv. cbv zeta in Hv.
    destruct (String.length (Cluster opts) =? 0)%nat eqn:Hlen.
    { apply length_zero_empty in Hlen. rewrite Hlen. reflexivity. }
    destruct (Regexp.MatchString DNS1123.dns1123Reg (Cluster opts)) eqn:Hm;
      [| reflexivity].
    simpl in Hv. exfalso. walk Hv; try discriminate;
      injection Hv as <-; name_error; discriminate He.
  - intros Hm. unfold Validate.
    destruct (String.length (Cluster opts) =? 0)%nat.
    + exists ErrClusterRequired. split; reflexivity.
    + rewrite Hm. simpl. exists (ErrInvalidClusterName (Cluster opts)).
      split; reflexivity.
Qed.

(** The checks that come after the EdgePodCIDR check. *)
Definition is_late_error (e : ValidateError) : bool :=
  match e with
  | ErrPullPolicy _ => true
  | _ => is_leader_election_error e
  end.

(** The condition under which lines 356-373 return no error. *)
Definition durations_accepted (leaseDuration renewDeadline retryPeriod : Z) : Prop :=
  leaseDuration > renewDeadline /\
  renewDeadline > jittered retryPeriod /\
  leaseDuration >= Duration.Second /\
  renewDeadline >= Duration.Second /\
  retryPeriod >= Duration.Second.

Ltac to_Z_props :=
  repeat match goal with
         | H : (_ <=? _) = true |- _ => apply Z.leb_le in H
         | H : (_ <=? _) = false |- _ => apply Z.leb_gt in H
         | H : (_ <? _) = true |- _ => apply Z.ltb_lt in H
         | H : (_ <? _) = false |- _ => apply Z.ltb_ge in H
         end.

(** The defaults of the flags: a retry period of 2s is jittered to 2.4s;
    0.9s to 1.08s. *)
Example jittered_default : jittered (2 * Duration.Second) = 2400 * Duration.Millisecond.
Proof. reflexivity. Qed.

Example jittered_900ms : jittered (900 * Duration.Millisecond) = 1080 * Duration.Millisecond.
Proof. reflexivity. Qed.

(** The constant 1.2 is the float64 nearest to 6/5. *)
Example const_1_2_nearest :
  SFdiv Float64.prec Float64.emax (Float64.of_int64 6) (Float64.of_int64 5)
  = Float64.const_1_2.
Proof. reflexivity. Qed.

Lemma Validate_durations_pass (opts : Options) (l r p : Z) :
  LeaseDuration (ManagerOpts opts) = Some l ->
  RenewDeadline (ManagerOpts opts) = Some r ->
  RetryPeriod (ManagerOpts opts) = Some p ->
  durations_accepted l r p ->
  ~ rejects_with is_leader_election_error opts.
Proof.
  intros Hl Hr Hp (H1 & H2 & H3 & H4 & H5) (e & Hv & He).
  unfold Validate in Hv. cbv zeta in Hv. rewrite Hl, Hr, Hp in Hv.
  walk Hv; try discriminate; injection Hv as <-; name_error;
    try discriminate He; to_Z_props; lia.
Qed.

Lemma Validate_nil_durations (opts : Options) :
  Validate opts = ReturnNil ->
  exists l r p,
    LeaseDuration (ManagerOpts opts) = Some l /\
    RenewDeadline (ManagerOpts opts) = Some r /\
    RetryPeriod (ManagerOpts opts) = Some p /\
    durations_accepted l r p.
Proof.
  intros Hv. unfold Validate in Hv. cbv zeta in Hv.
  destruct (LeaseDuration (ManagerOpts opts)) as [l |] eqn:Hl;
    destruct (RenewDeadline (ManagerOpts opts)) as [r |] eqn:Hr;
    destruct (RetryPeriod (ManagerOpts opts)) as [p |] eqn:Hp;
    walk Hv; try discriminate.
  all: exists l, r, p; unfold durations_accepted; to_Z_props;
    repeat split; try reflexivity; lia.
Qed.

Lemma Validate_durations_fail (opts : Options) (l r p : Z) :
  LeaseDuration (ManagerOpts opts) = Some l ->
  RenewDeadline (ManagerOpts opts) = Some r ->
  RetryPeriod (ManagerOpts opts) = Some p ->
  ~ durations_accepted l r p ->
  Validate opts <> ReturnNil.
Proof.
  intros Hl Hr Hp Hno Hv.
  destruct (Validate_nil_durations opts Hv) as (l' & r' & p' & Hl' & Hr' & Hp' & Hacc).
  rewrite Hl in Hl'. rewrite Hr in Hr'. rewrite Hp in Hp'.
  injection Hl' as <-. injection Hr' as <-. injection Hp' as <-.
  contradiction.
Qed.

(** When [Validate] returns nil under edge IPAM, the second loop has
    returned nil. *)
Lemma Validate_nil_overlap (opts : Options) :
  Validate opts = ReturnNil ->
  EnableEdgeIPAM (Agent opts) = true ->
  exists ip subnet,
    ParseCIDR (EdgePodCIDR opts) = Val (ip, subnet) /\
    validateOverlap ip subnet (ProvidedSubnets (Connector opts)) = ReturnNil.
Proof.
  intros Hv Hipam. unfold Validate in Hv. cbv zeta in Hv. rewrite Hipam in Hv.
  destruct (ParseCIDR (EdgePodCIDR opts)) as [[ip subnet] | cause] eqn:Hp.
  - exists ip, subnet. split; [reflexivity |].
    destruct (validateOverlap ip subnet (ProvidedSubnets (Connector opts)));
      [reflexivity | |]; walk Hv; discriminate.
  - walk Hv; discriminate.
Qed.

(** Once the EdgePodCIDR check has an error to report, no later check is
    heard. *)
Lemma Validate_overlap_stops (opts : Options) (ip : IP) (subnet : IPNet) :
  EnableEdgeIPAM (Agent opts) = true ->
  ParseCIDR (EdgePodCIDR opts) = Val (ip, subnet) ->
  validateOverlap ip subnet (ProvidedSubnets (Connector opts)) <> ReturnNil ->
  ~ rejects_with is_late_error opts.
Proof.
  intros Hipam Hp Hov (e & Hv & He).
  unfold Validate in Hv. cbv zeta in Hv. rewrite Hipam, Hp in Hv.
  destruct (validateOverlap ip subnet (ProvidedSubnets (Connector opts))) eqn:Ho;
    [contradiction | |];
    walk Hv; try discriminate; injection Hv as <-; name_error; discriminate He.
Qed.

(** Without a complaint from the two loops, the EdgePodCIDR check is
    silent. *)
Lemma Validate_overlap_silent (opts : Options) (ip : IP) (subnet : IPNet) :
  ParseCIDR (EdgePodCIDR opts) = Val (ip, subnet) ->
  validateOverlap ip subnet (ProvidedSubnets (Connector opts)) = ReturnNil ->
  ~ rejects_with is_edge_pod_cidr_error opts.
Proof.
  intros Hp Ho (e & Hv & He).
  unfold Validate in Hv. cbv zeta in Hv. rewrite Hp, Ho in Hv.
  walk Hv; try discriminate; injection Hv as <-; name_error; discriminate He.
Qed.

(** [os.Stat] fails on one of the two API server files with an error other
    than "not exist", so that [fileExists] panics. *)
Definition stat_panics (opts : Options) : Prop :=
  fileExists (APIServerKeyFile opts) = None \/
  fileExists (APIServerCertFile opts) = None.

(** [Validate] panics only in [fileExists] or on a nil duration: the second
    loop never meets a subnet the first loop has not parsed. *)
Lemma Validate_panic (opts : Options) :
  Validate opts = Panic ->
  stat_panics opts \/
  LeaseDuration (ManagerOpts opts) = None \/
  RenewDeadline (ManagerOpts opts) = None \/
  RetryPeriod (ManagerOpts opts) = None.
Proof.
  intros Hv. unfold Validate in Hv. cbv zeta in Hv. unfold stat_panics.
  walk Hv; try discriminate; auto.
  all: match goal with
       | Ho : validateOverlap _ _ _ = Panic, Hs : validateSubnets _ = None |- _ =>
           apply validateOverlap_panic in Ho as (s & cause & Hin & Hfail);
           rewrite validateSubnets_pass in Hs;
           destruct (Hs s Hin) as (v & Hval); congruence
       end.
Qed.

(** With the three durations set, [Validate] returns nil, returns an error,
    or has panicked in [fileExists]. *)
Lemma Validate_outcome (opts : Options) (l r p : Z) :
  LeaseDuration (ManagerOpts opts) = Some l ->
  RenewDeadline (ManagerOpts opts) = Some r ->
  RetryPeriod (ManagerOpts opts) = Some p ->
  Validate opts <> ReturnNil ->
  (exists e, Validate opts = ReturnErr e) \/ (Validate opts = Panic /\ stat_panics opts).
Proof.
  intros Hl Hr Hp Hnot. destruct (Validate opts) as [| e |] eqn:Hv.
  - contradiction.
  - left. exists e. reflexivity.
  - right. split; [reflexivity |].
    destruct (Validate_panic opts Hv) as [Hs | [H1 | [H1 | H1]]];
      [assumption | congruence | congruence | congruence].
Qed.

(** When the EdgePodCIDR check has an error to report, [Validate] returns
    that error or an earlier one, unless [fileExists] has panicked. *)
Lemma Validate_overlap_outcome (opts : Options) (ip : IP) (subnet : IPNet) :
  EnableEdgeIPAM (Agent opts) = true ->
  ParseCIDR (EdgePodCIDR opts) = Val (ip, subnet) ->
  validateOverlap ip subnet (ProvidedSubnets (Connector opts)) <> ReturnNil ->
  (exists e, Validate opts = ReturnErr e /\ is_late_error e = false) \/
  (Validate opts = Panic /\ stat_panics opts).
Proof.
  intros Hipam Hp Hov. destruct (Validate opts) as [| e |] eqn:Hv.
  - destruct (Validate_nil_overlap opts Hv Hipam) as (ip' & n' & Hp' & Hnil).
    rewrite Hp in Hp'. injection Hp' as <- <-. contradiction.
  - left. exists e. split; [reflexivity |].
    destruct (is_late_error e) eqn:He; [| reflexivity].
    exfalso. apply (Validate_overlap_stops opts ip subnet Hipam Hp Hov).
    exists e. auto.
  - right. split; [reflexivity |].
    unfold Validate in Hv. cbv zeta in Hv. rewrite Hipam, Hp in Hv.
    unfold stat_panics.
    destruct (validateOverlap ip subnet (ProvidedSubnets (Connector opts))) eqn:Ho;
      [contradiction | |]; walk Hv; try discriminate; auto.
    all: match goal with
         | Hs : validateSubnets _ = None |- _ =>
             apply validateOverlap_panic in Ho as (s & cause & Hin & Hfail);
             rewrite validateSubnets_pass in Hs;
             destruct (Hs s Hin) as (v & Hval); congruence
         end.
Qed.

End WithPlatform.

End ValidateFacts.

(* ===================================================================== *)
(** * Properties of Options.Validate                                       *)
(* ===================================================================== *)

Module ValidateClaims.
Import Go GoNet Operator ValidateFacts.

(** The chain as the design document writes it,
    leaseDuration > renewDeadline > retryPeriod x 1.2 >= 1s, in exact
    arithmetic on nanoseconds. *)
Definition documented_chain (leaseDuration renewDeadline retryPeriod : Z) : Prop :=
  leaseDuration > renewDeadline /\
  5 * renewDeadline > 6 * retryPeriod /\
  6 * retryPeriod >= 5 * Duration.Second.

Section WithPlatform.
Context `{Pf : Platform}.

(** C3 (as the code has it). With the three durations set, the
    leader-election checks of [Validate] report no error when
    leaseDuration > renewDeadline > Duration(1.2 * float64(retryPeriod)) and
    each of leaseDuration, renewDeadline and retryPeriod is at least one
    second; for every other triple [Validate] returns an error (unless
    [fileExists] has panicked before). *)
Theorem Validate_leader_election (opts : Options) (l r p : Z) :
  LeaseDuration (ManagerOpts opts) = Some l ->
  RenewDeadline (ManagerOpts opts) = Some r ->
  RetryPeriod (ManagerOpts opts) = Some p ->
  (durations_accepted l r p -> ~ rejects_with is_leader_election_error opts) /\
  (~ durations_accepted l r p ->
   (exists e, Validate opts = ReturnErr e) \/
   (Validate opts = Panic /\ stat_panics opts)).
Proof.
  intros Hl Hr Hp. split.
  - apply Validate_durations_pass; assumption.
  - intros Hno. apply (Validate_outcome opts l r p Hl Hr Hp).
    apply (Validate_durations_fail opts l r p); assumption.
Qed.

(** C8 (as the code has it). [Validate] returns "a cluster name is
    required" for the empty name; it returns a cluster-name error exactly
    for the names that are not dotted names (one or more RFC 1123 label
    shapes separated by dots, of any length); in particular every valid
    RFC 1123 label passes the cluster-name check. *)
Theorem Validate_cluster_name_check (opts : Options) :
  (Cluster opts = "" -> Validate opts = ReturnErr ErrClusterRequired) /\
  (rejects_with is_cluster_name_error opts <->
   DNS1123.IsDottedName (Cluster opts) = false) /\
  (DNS1123.IsDNS1123Label (Cluster opts) = true ->
   ~ rejects_with is_cluster_name_error opts).
Proof.
  split; [apply Validate_empty |].
  assert (Hiff : rejects_with is_cluster_name_error opts <->
                 DNS1123.IsDottedName (Cluster opts) = false).
  { rewrite Validate_cluster_name, DNS1123Facts.MatchString_dns1123Reg. reflexivity. }
  split; [exact Hiff |].
  intros Hlabel Hrej. apply Hiff in Hrej.
  rewrite (DNS1123Facts.label_is_dotted_name _ Hlabel) in Hrej. discriminate.
Qed.

End WithPlatform.

(** ** On the lab cluster *)

Definition lab : Platform := Lab.platform Lab.quiet.

Definition seconds (n : Z) : Z := n * Duration.Second.

(** Lease 3s, renew 2s, retry 0.9s. *)
Definition shortRetry : @Options _ lab :=
  Lab.memberOptions "bj" (Lab.leader (seconds 3) (seconds 2) (900 * Duration.Millisecond))
    false "" [].

(** The defaults of the flags: 15s, 10s, 2s. *)
Definition defaults (cluster : string) (ipam : bool) (edgePodCIDR : string)
    (subnets : list string) : @Options _ lab :=
  Lab.memberOptions cluster (Lab.leader (seconds 15) (seconds 10) (seconds 2))
    ipam edgePodCIDR subnets.

(** C3, as stated, fails: 3s > 2s > 0.9s x 1.2 = 1.08s >= 1s satisfies the
    documented chain, and [Validate] answers "retryPeriod must be greater
    than 1 second". *)
Lemma documented_chain_rejected :
  documented_chain (seconds 3) (seconds 2) (900 * Duration.Millisecond) /\
  @Validate _ lab shortRetry = ReturnErr ErrRetryBelowSecond.
Proof.
  split; [unfold documented_chain; vm_compute; repeat split; discriminate |].
  vm_compute. reflexivity.
Qed.

Lemma Validate_leader_election_witness :
  ~ @rejects_with _ lab is_leader_election_error (defaults "bj" false "" []).
Proof.
  refine (proj1 (@Validate_leader_election _ lab (defaults "bj" false "" [])
                   (seconds 15) (seconds 10) (seconds 2) eq_refl eq_refl eq_refl) _).
  unfold durations_accepted. vm_compute. repeat split; discriminate.
Defined.

(** C8, as stated, fails: "a.b" is not an RFC 1123 label, and [Validate]
    returns nil for it. *)
Lemma dotted_cluster_name_accepted :
  DNS1123.IsDNS1123Label "a.b" = false /\
  @Validate _ lab (defaults "a.b" false "" []) = ReturnNil.
Proof. split; vm_compute; reflexivity. Qed.

Lemma Validate_cluster_name_check_witness :
  ~ @rejects_with _ lab is_cluster_name_error (defaults "bj" false "" []).
Proof.
  refine (proj2 (proj2 (@Validate_cluster_name_check _ lab (defaults "bj" false "" []))) _).
  vm_compute. reflexivity.
Defined.

(** ** Where the overlap check misses *)

(** The lab cluster again, with the byte-level [net] in place of the
    IPv4 numbers. *)
Definition mappedLab : @Platform NetIP.netlib :=
  @Build_Platform NetIP.netlib
    (* Node, NodeName *) Endpoint epName
    (* RestConfig .. PodCIDRs *) unit unit unit unit unit unit unit unit unit unit
    (* Allocator *) (list NetIP.IPNet)
    (* osStat, float64_overflow, TrimSpace *)
    (fun _ => StatFile) Float64.int64_min (fun s => s)
    (* allocator_New, allocator_Record *)
    (fun _ => Val []) (fun (n : NetIP.IPNet) (al : list NetIP.IPNet) => (al ++ [n])%list)
    (* NewPodCIDRStore, NewEndpointFuncs *)
    tt
    (fun cluster format _ =>
       (fun n => (cluster ++ "." ++ n)%string,
        fun n => (format ++ n)%string,
        fun node => node))
    (* config_GetConfig, client_New, manager_New, timeutil_Days *)
    (Val tt) (fun _ => Val tt) (fun _ _ => Val tt)
    (fun d => d * 24 * 3600 * Duration.Second)
    (* createCertManager .. tls_LoadX509KeyPair *)
    (fun _ _ _ _ => CertManagerOk tt tt) (fun _ => Val tt) (fun _ _ => APIClientOk tt)
    (fun _ _ => Val tt) (fun _ _ _ => Val tt) (fun _ _ => Val tt)
    (* client_ListNodes, client_ListCommunities *)
    (fun _ _ => Val []) (fun _ => Val []).

(** A member cluster under Calico, every flag but two at its default:
    [--edge-pod-cidr] and [--connector-subnets] name the same CIDR, an
    IPv4-mapped address with a prefix shorter than 96 bits. Edge IPAM is on,
    as [Complete] sets it under Calico. *)
Definition mappedOptions (edgePodCIDR : string) (subnets : list string)
  : @Options _ mappedLab :=
  @mkOptions _ mappedLab "bj" RoleMember "fabedge" edgePodCIDR
    "C=CN, O=fabedge.io, CN={node}"
    {[ "node-role.kubernetes.io/edge" := "" ]} "calico"
    "fabedge-ca" 3650 "fabedge.io"
    (@mkAgentConfig _ mappedLab "fabedge/agent:latest" "fabedge/strongswan:latest"
       "IfNotPresent" 3 false false false true 1400 true None)
    (mkConnectorConfig {[ "app" := "fabedge-connector" ]}
       (mkConnectorEndpoint "" "" ["10.0.0.1"]) subnets (5 * Duration.Second) None)
    "rr"
    (mkManagerOptions false "fabedge-operator-leader" "" ""
       (Some (15 * Duration.Second)) (Some (10 * Duration.Second))
       (Some (2 * Duration.Second)))
    "" "" "0.0.0.0:3030" "https://host:3030" (12 * 3600 * Duration.Second) "token"
    None None None None None None None.

(** The network of [::ffff:10.0.0.0/90]: the mask cuts into byte 11, so
    the network address is no longer IPv4-mapped. *)
Definition mappedNet : NetIP.IPNet :=
  NetIP.mkIPNet [0; 0; 0; 0; 0; 0; 0; 0; 0; 0; 255; 192; 0; 0; 0; 0]
    [255; 255; 255; 255; 255; 255; 255; 255; 255; 255; 255; 192; 0; 0; 0; 0].

Lemma Contains_length (n : NetIP.IPNet) (x : list Z) :
  NetIP.Contains n x = true ->
  length (match NetIP.To4 x with Some y => y | None => x end)
  = length (fst (NetIP.networkNumberAndMask n)).
Proof.
  unfold NetIP.Contains.
  destruct (NetIP.networkNumberAndMask n) as [nn m]. cbn [fst].
  destruct (length _ =? length nn)%nat eqn:Hlen; [| discriminate].
  intros _. apply Nat.eqb_eq. exact Hlen.
Qed.

(** C4 fails on the code, at an input it can receive. The EdgePodCIDR
    [::ffff:10.0.0.0/90] and the one connector subnet, written the same,
    are the same network, so they overlap; yet [Contains] answers false for
    the address as written (its 4-byte form is compared with the 16-byte
    network), neither test of the loop fires and [Validate] returns nil.
    The other way round, [10.0.0.0/8] and [::ffff:10.0.0.0/90] have no
    address in common, and [Validate] reports an overlap. *)
Theorem Validate_misses_mapped_overlap :
  (NetIP.ParseCIDR "::ffff:10.0.0.0/90" = Val (NetIP.IPv4 10 0 0 0, mappedNet) /\
   NetIP.Contains mappedNet (NetIP.IPv4 10 0 0 0) = false /\
   @overlaps NetIP.netlib mappedNet mappedNet /\
   EnableEdgeIPAM (Agent (mappedOptions "::ffff:10.0.0.0/90" ["::ffff:10.0.0.0/90"]))
     = true /\
   Validate (mappedOptions "::ffff:10.0.0.0/90" ["::ffff:10.0.0.0/90"]) = ReturnNil) /\
  (NetIP.ParseCIDR "10.0.0.0/8"
     = Val (NetIP.IPv4 10 0 0 0, NetIP.mkIPNet [10; 0; 0; 0] [255; 0; 0; 0]) /\
   ~ @overlaps NetIP.netlib (NetIP.mkIPNet [10; 0; 0; 0] [255; 0; 0; 0]) mappedNet /\
   Validate (mappedOptions "10.0.0.0/8" ["::ffff:10.0.0.0/90"]) = ReturnErr ErrOverlapped).
Proof.
  split.
  - split; [vm_compute; reflexivity |].
    split; [vm_compute; reflexivity |].
    split; [| split; vm_compute; reflexivity].
    exists (NetIP.netIP mappedNet). split; vm_compute; reflexivity.
  - split; [vm_compute; reflexivity |].
    split; [| vm_compute; reflexivity].
    intros (x & H4 & H16).
    apply Contains_length in H4, H16.
    vm_compute in H4, H16. congruence.
Qed.

End ValidateClaims.

(* ===================================================================== *)
(** * recordEndpoints: what reaches the store and the allocator           *)
(* ===================================================================== *)

Module RecordFacts.
Import Go GoNet Operator.

(** An endpoint with all three of publicAddresses, subnets and nodeSubnets
    non-empty. *)
Definition complete (ep : Endpoint) : Prop :=
  epPublicAddresses ep <> [] /\ epSubnets ep <> [] /\ epNodeSubnets ep <> [].

Definition is_complete (ep : Endpoint) : bool :=
  negb ((length (epPublicAddresses ep) =? 0)%nat
        || (length (epSubnets ep) =? 0)%nat
        || (length (epNodeSubnets ep) =? 0)%nat).

Lemma is_complete_spec (ep : Endpoint) : is_complete ep = true <-> complete ep.
Proof.
  unfold is_complete, complete.
  destruct (epPublicAddresses ep), (epSubnets ep), (epNodeSubnets ep); simpl;
    split; try discriminate; try reflexivity;
    try (intros (H1 & H2 & H3); congruence).
  intros _. repeat split; discriminate.
Qed.

(** The invariant of the design document on a store. *)
Definition store_invariant (st : EndpointStore) : Prop :=
  map_Forall (fun _ ep => complete ep) (stEndpoints st).

Section WithPlatform.
Context `{Pf : Platform}.

(** [ep] is in the store of [r] under [name]. *)
Definition stored (r : Recording) (name : string) (ep : Endpoint) : Prop :=
  exists st, recStore r = Some st /\ stEndpoints st !! name = Some ep.

(** The networks and the log lines the loop over [ep.Subnets] produces. *)
Definition parsedSubnets (cidrs : list string) : list IPNet :=
  List.flat_map
    (fun cidr => match ParseCIDR cidr with Val (_, subnet) => [subnet] | Fail _ => [] end)
    cidrs.

Definition parseFailures (cidrs : list string) : list LogEntry :=
  List.flat_map
    (fun cidr => match ParseCIDR cidr with
                 | Val _ => []
                 | Fail err => [logError err "failed to parse subnet of node"]
                 end)
    cidrs.

Definition recordAll (subnets : list IPNet) (a : Allocator) : Allocator :=
  fold_left (fun a subnet => allocator_Record subnet a) subnets a.

Definition saveAll (eps : list Endpoint) (st : EndpointStore) : EndpointStore :=
  fold_left (fun st ep => SaveEndpoint ep st) eps st.

(** The endpoints of the nodes that pass the emptiness test. *)
Definition kept (f : Node -> Endpoint) (nodes : list Node) : list Endpoint :=
  List.filter is_complete (List.map f nodes).

Lemma saveCommunities_endpoints (cs : list CommunityObject) :
  forall r b r', saveCommunities cs r = (b, r') ->
    forall name ep, stored r' name ep -> stored r name ep.
Proof.
  induction cs as [| c cs IH]; simpl; intros r b r' Hs name ep Hst.
  - injection Hs as _ <-. assumption.
  - destruct (recStore r) as [st |] eqn:Hr.
    + apply (IH _ _ _ Hs) in Hst. destruct Hst as (st' & Hst' & Hl).
      simpl in Hst'. injection Hst' as <-. exists st. auto.
    + injection Hs as _ <-. assumption.
Qed.

Lemma saveCommunities_run (cs : list CommunityObject) :
  forall r st, recStore r = Some st ->
    exists st', saveCommunities cs r = (true, with_store st' r) /\
                stEndpoints st' = stEndpoints st.
Proof.
  induction cs as [| c cs IH]; simpl; intros r st Hr.
  - exists st. split; [| reflexivity].
    destruct r as [s a l]. simpl in Hr. subst. reflexivity.
  - rewrite Hr.
    destruct (IH (with_store (SaveCommunity
                   (mkCommunity (coName c) (list_to_set (coMembers c))) st) r)
                 _ eq_refl) as (st' & Hrun & Heq).
    exists st'. split; [rewrite Hrun; reflexivity | assumption].
Qed.

Lemma recordSubnets_store (node : Node) (cidrs : list string) :
  forall r b r', recordSubnets node cidrs r = (b, r') -> recStore r' = recStore r.
Proof.
  induction cidrs as [| cidr cidrs IH]; simpl; intros r b r' Hs.
  - injection Hs as _ <-. reflexivity.
  - destruct (ParseCIDR cidr) as [[ip subnet] | err].
    + destruct (recAllocator r) as [a |].
      * apply IH in Hs. assumption.
      * injection Hs as _ <-. reflexivity.
    + apply IH in Hs. assumption.
Qed.

Lemma recordSubnets_run (node : Node) (cidrs : list string) :
  forall r a, recAllocator r = Some a ->
    recordSubnets node cidrs r =
      (true, mkRecording (recStore r) (Some (recordAll (parsedSubnets cidrs) a))
               (recLog r ++ parseFailures cidrs)).
Proof.
  induction cidrs as [| cidr cidrs IH]; simpl; intros r a Ha.
  - rewrite app_nil_r. destruct r as [s al l]. simpl in *. subst. reflexivity.
  - unfold parsedSubnets, parseFailures. simpl.
    destruct (ParseCIDR cidr) as [[ip subnet] | err]; simpl.
    + rewrite Ha.
      rewrite (IH (with_allocator (allocator_Record subnet a) r) _ eq_refl).
      reflexivity.
    + rewrite (IH (with_log (logError err "failed to parse subnet of node") r) a Ha).
      simpl. rewrite <- app_assoc. reflexivity.
Qed.

(** Whatever the loop over the nodes does, an endpoint it adds to the store
    is complete. *)
Lemma recordNodes_stored (f : option (Node -> Endpoint)) (nodes : list Node) :
  forall r b r', recordNodes f nodes r = (b, r') ->
    forall name ep, stored r' name ep -> stored r name ep \/ complete ep.
Proof.
  induction nodes as [| node nodes IH]; simpl; intros r b r' Hs name ep Hst.
  - injection Hs as _ <-. left. assumption.
  - destruct f as [f |]; [| injection Hs as _ <-; left; assumption].
    destruct ((length (epPublicAddresses (f node)) =? 0)%nat
              || (length (epSubnets (f node)) =? 0)%nat
              || (length (epNodeSubnets (f node)) =? 0)%nat) eqn:Hc.
    + apply (IH _ _ _ Hs). assumption.
    + destruct (recordSubnets node (epSubnets (f node)) r) as [[] r1] eqn:Hsub.
      * pose proof (recordSubnets_store _ _ _ _ _ Hsub) as Hstore.
        destruct (recStore r1) as [st |] eqn:Hr1.
        -- destruct (IH _ _ _ Hs name ep Hst) as [(st' & Hst' & Hl) | Hok];
             [| right; assumption].
           simpl in Hst'. injection Hst' as <-. simpl in Hl.
           destruct (decide (epName (f node) = name)) as [<- | Hne].
           ++ rewrite lookup_insert_eq in Hl. injection Hl as <-.
              right. apply is_complete_spec. unfold is_complete.
              rewrite Hc. reflexivity.
           ++ rewrite lookup_insert_ne in Hl by assumption.
              left. exists st. rewrite <- Hstore. auto.
        -- injection Hs as _ <-. destruct Hst as (st & Hst & _). congruence.
      * injection Hs as _ <-. destruct Hst as (st & Hst & Hl).
        pose proof (recordSubnets_store _ _ _ _ _ Hsub) as Hstore.
        left. exists st. rewrite <- Hstore. auto.
Qed.

Lemma kept_cons (f : Node -> Endpoint) (node : Node) (nodes : list Node) :
  kept f (node :: nodes) =
  if is_complete (f node) then f node :: kept f nodes else kept f nodes.
Proof. reflexivity. Qed.

Lemma recordNodes_run (f : Node -> Endpoint) (nodes : list Node) :
  forall r st a, recStore r = Some st -> recAllocator r = Some a ->
    recordNodes (Some f) nodes r =
      (true,
       mkRecording
         (Some (saveAll (kept f nodes) st))
         (Some (recordAll (List.flat_map (fun ep => parsedSubnets (epSubnets ep))
                             (kept f nodes)) a))
         (recLog r ++ List.flat_map (fun ep => parseFailures (epSubnets ep))
                        (kept f nodes))).
Proof.
  induction nodes as [| node nodes IH]; intros r st a Hst Ha.
  - simpl. rewrite app_nil_r. destruct r as [s al l]. simpl in *. subst. reflexivity.
  - rewrite kept_cons. cbn [recordNodes]. unfold is_complete.
    destruct ((length (epPublicAddresses (f node)) =? 0)%nat
              || (length (epSubnets (f node)) =? 0)%nat
              || (length (epNodeSubnets (f node)) =? 0)%nat) eqn:Hc;
      cbn [negb].
    + apply (IH r st a Hst Ha).
    + rewrite (recordSubnets_run node _ r a Ha). cbn [recStore]. rewrite Hst.
      rewrite (IH (with_store (SaveEndpoint (f node) st)
                     (mkRecording (Some st)
                        (Some (recordAll (parsedSubnets (epSubnets (f node))) a))
                        (recLog r ++ parseFailures (epSubnets (f node)))))
                 (SaveEndpoint (f node) st)
                 (recordAll (parsedSubnets (epSubnets (f node))) a) eq_refl eq_refl).
      cbn [flat_map saveAll fold_left with_store recLog].
      unfold recordAll. rewrite fold_left_app, <- app_assoc. reflexivity.
Qed.

(** The last endpoint saved under a name is the one found there. *)
Lemma saveAll_lookup (ep : Endpoint) (eps : list Endpoint) :
  forall st,
    (forall ep', In ep' eps -> epName ep' = epName ep -> ep' = ep) ->
    In ep eps \/ stEndpoints st !! epName ep = Some ep ->
    stEndpoints (saveAll eps st) !! epName ep = Some ep.
Proof.
  induction eps as [| e eps IH]; simpl; intros st Hsame Hin.
  - destruct Hin as [[] | Hl]. assumption.
  - apply IH.
    + intros ep' Hin'. apply Hsame. right. assumption.
    + destruct (decide (epName e = epName ep)) as [Heq | Hne].
      * right. rewrite (Hsame e (or_introl eq_refl) Heq). simpl.
        apply lookup_insert_eq.
      * destruct Hin as [[-> | Hin] | Hl]; [congruence | left; assumption |].
        right. simpl. rewrite lookup_insert_ne by assumption. assumption.
Qed.

End WithPlatform.

End RecordFacts.

(* ===================================================================== *)
(** * Properties of Options.recordEndpoints                                *)
(* ===================================================================== *)

Module RecordClaims.
Import Go GoNet Operator RecordFacts.

Section WithPlatform.
Context `{Pf : Platform}.

(** C1. However [recordEndpoints] ends, an endpoint found in the store
    afterwards was there before or has non-empty publicAddresses, subnets
    and nodeSubnets: the endpoints of edge nodes are saved only when all
    three are non-empty. So a store that satisfies the invariant of the
    design document (the empty store of [Complete] does) still satisfies it
    afterwards. *)
Theorem recordEndpoints_store_invariant (opts : Options) (p : Process) :
  (forall name ep,
     stored (snd (recordEndpoints opts p)) name ep ->
     (exists st0, Store opts = Some st0 /\ stEndpoints st0 !! name = Some ep)
     \/ complete ep) /\
  (forall st0 st,
     Store opts = Some st0 -> store_invariant st0 ->
     recStore (snd (recordEndpoints opts p)) = Some st -> store_invariant st).
Proof.
  assert (Hfirst : forall name ep,
     stored (snd (recordEndpoints opts p)) name ep ->
     (exists st0, Store opts = Some st0 /\ stEndpoints st0 !! name = Some ep)
     \/ complete ep).
  { intros name ep. unfold recordEndpoints.
    set (r0 := mkRecording (Store opts) (AgentAllocator (Agent opts)) (logged p)).
    assert (Hr0 : stored r0 name ep ->
              exists st0, Store opts = Some st0 /\ stEndpoints st0 !! name = Some ep)
      by (intros Hst; exact Hst).
    destruct (Manager opts) as [cli |]; simpl; [| left; auto].
    destruct (client_ListNodes cli (edgeNodeLabels p)) as [nodes | err]; simpl;
      [| left; auto].
    destruct (client_ListCommunities cli) as [cs | err]; simpl; [| left; auto].
    destruct (saveCommunities cs r0) as [[] r1] eqn:Hcs; simpl.
    - destruct (EnableEdgeIPAM (Agent opts)); simpl.
      + destruct (recordNodes (NewEndpoint opts) nodes r1) as [b r2] eqn:Hn.
        assert (Hr2 : stored r2 name ep -> stored r0 name ep \/ complete ep).
        { intros Hst. destruct (recordNodes_stored _ _ _ _ _ Hn _ _ Hst) as [H1 | H1];
            [left; eapply saveCommunities_endpoints; eassumption | right; assumption]. }
        destruct b; simpl; intros Hst; destruct (Hr2 Hst); auto.
      + intros Hst. left. apply Hr0. eapply saveCommunities_endpoints; eassumption.
    - intros Hst. left. apply Hr0. eapply saveCommunities_endpoints; eassumption. }
  split; [exact Hfirst |].
  intros st0 st Hst0 Hinv Hst name ep Hl.
  destruct (Hfirst name ep) as [(st0' & Hst0' & Hl0) | Hok].
  - exists st. auto.
  - rewrite Hst0 in Hst0'. injection Hst0' as <-. apply (Hinv name ep Hl0).
  - assumption.
Qed.

(** C10. With the manager, store, endpoint function and allocator in place
    and edge IPAM on, [recordEndpoints] returns nil and saves the endpoint
    of a node although one of its subnets does not parse: the endpoint is
    in the store as it is, that subnet included; the failure is logged; the
    allocator has recorded exactly the subnets that do parse. (The endpoint
    is found under its name provided no other listed node yields a
    different endpoint of that name.) *)
Theorem recordEndpoints_keeps_unparsable (opts : Options) (p : Process)
    (cli : CtrlManager) (f : Node -> Endpoint) (st0 : EndpointStore) (a0 : Allocator)
    (nodes : list Node) (cs : list CommunityObject)
    (node : Node) (cidr : string) (cause : error) :
  Manager opts = Some cli ->
  Store opts = Some st0 ->
  NewEndpoint opts = Some f ->
  EnableEdgeIPAM (Agent opts) = true ->
  AgentAllocator (Agent opts) = Some a0 ->
  client_ListNodes cli (edgeNodeLabels p) = Val nodes ->
  client_ListCommunities cli = Val cs ->
  In node nodes ->
  complete (f node) ->
  In cidr (epSubnets (f node)) ->
  ParseCIDR cidr = Fail cause ->
  (forall node', In node' nodes -> epName (f node') = epName (f node) -> f node' = f node) ->
  exists r,
    recordEndpoints opts p = (Returned None, r) /\
    stored r (epName (f node)) (f node) /\
    recAllocator r =
      Some (recordAll (List.flat_map (fun ep => parsedSubnets (epSubnets ep))
                         (kept f nodes)) a0) /\
    In (logError cause "failed to parse subnet of node") (recLog r).
Proof.
  intros Hm Hs Hf Hipam Ha Hnodes Hcs Hin Hok Hcidr Hparse Hsame.
  unfold recordEndpoints. rewrite Hm, Hs, Ha, Hnodes, Hcs, Hf, Hipam.
  destruct (saveCommunities_run cs (mkRecording (Some st0) (Some a0) (logged p))
              st0 eq_refl) as (st1 & -> & Hst1).
  cbn [negb].
  rewrite (recordNodes_run f nodes
             (with_store st1 (mkRecording (Some st0) (Some a0) (logged p)))
             st1 a0 eq_refl eq_refl).
  eexists. split; [reflexivity |].
  assert (Hkept : In (f node) (kept f nodes)).
  { apply filter_In. split; [apply in_map; assumption |].
    apply is_complete_spec. assumption. }
  split; [| split].
  - exists (saveAll (kept f nodes) st1). split; [reflexivity |].
    apply saveAll_lookup; [| left; assumption].
    intros ep' Hin' Hname. apply filter_In in Hin' as [Hin' _].
    apply in_map_iff in Hin' as (node' & <- & Hnode'). apply Hsame; assumption.
  - reflexivity.
  - cbn [recLog with_store]. apply in_or_app. right.
    apply in_flat_map. exists (f node). split; [assumption |].
    unfold parseFailures. apply in_flat_map. exists cidr. split; [assumption |].
    rewrite Hparse. left. reflexivity.
Qed.

End WithPlatform.

(** ** On the lab cluster *)

(** Three edge nodes: one whose endpoint is in order, one whose second
    subnet is not a CIDR, one without subnets. *)
Definition n1 : Endpoint :=
  mkEndpoint "bj.n1" "C=CN, O=fabedge.io, CN=bj.n1" ["10.40.20.181"]
    ["10.20.0.0/26"] ["10.40.20.181/32"] TypeEdgeNode.
Definition n2 : Endpoint :=
  mkEndpoint "bj.n2" "C=CN, O=fabedge.io, CN=bj.n2" ["10.40.20.182"]
    ["10.20.0.64/26"; "10.20.0.128"] ["10.40.20.182/32"] TypeEdgeNode.
Definition n3 : Endpoint :=
  mkEndpoint "bj.n3" "C=CN, O=fabedge.io, CN=bj.n3" ["10.40.20.183"]
    [] ["10.40.20.183/32"] TypeEdgeNode.

Definition threeNodes : Lab.Answers :=
  Lab.mkAnswers (fun _ => StatFile) (Val tt) (Val [n1; n2; n3])
    (Val [mkCommunityObject "all" ["bj.connector"; "bj.n1"; "bj.n2"]]).

Lemma recordEndpoints_store_invariant_witness :
  exists st,
    recStore (snd (@recordEndpoints _ (Lab.platform threeNodes)
                     (Lab.completedOptions threeNodes) Lab.startProcess)) = Some st /\
    stEndpoints st !! "bj.n3" = None /\
    store_invariant st.
Proof.
  eexists. split; [reflexivity |]. split; [vm_compute; reflexivity |].
  refine (proj2 (@recordEndpoints_store_invariant _ (Lab.platform threeNodes)
                   (Lab.completedOptions threeNodes) Lab.startProcess)
            NewStore _ eq_refl _ eq_refl).
  intros name ep Hl. simpl in Hl. rewrite lookup_empty in Hl. discriminate.
Defined.

Lemma recordEndpoints_keeps_unparsable_witness :
  exists r,
    @recordEndpoints _ (Lab.platform threeNodes)
      (Lab.completedOptions threeNodes) Lab.startProcess = (Returned None, r) /\
    @stored _ (Lab.platform threeNodes) r "bj.n2" n2 /\
    recAllocator r =
      Some [IPv4.network 169082880 26; IPv4.network 169082944 26] /\
    In (logError "invalid CIDR address: 10.20.0.128" "failed to parse subnet of node")
       (recLog r).
Proof.
  refine (@recordEndpoints_keeps_unparsable _ (Lab.platform threeNodes)
            (Lab.completedOptions threeNodes) Lab.startProcess
            tt (fun node => node) NewStore [] [n1; n2; n3]
            [mkCommunityObject "all" ["bj.connector"; "bj.n1"; "bj.n2"]]
            n2 "10.20.0.128" "invalid CIDR address: 10.20.0.128"
            eq_refl eq_refl eq_refl eq_refl eq_refl eq_refl eq_refl _ _ _ eq_refl _).
  - right. left. reflexivity.
  - repeat split; discriminate.
  - right. left. reflexivity.
  - intros node' [<- | [<- | [<- | []]]]; intros Hname;
      [discriminate Hname | reflexivity | discriminate Hname].
Defined.

End RecordClaims.

(* ===================================================================== *)
(** * Properties of Options.Complete                                       *)
(* ===================================================================== *)

Module CompleteClaims.
Import Go GoNet Operator.

Section WithPlatform.
Context `{Pf : Platform}.

(** The [switch] on the CNI type lets [Complete] go on: the type is flannel,
    or it is calico and the allocator can be created. *)
Definition cni_ready (opts : Options) : Prop :=
  TrimSpace (CNIType opts) = CNIFlannel \/
  (TrimSpace (CNIType opts) = CNICalico /\
   exists a, allocator_New (EdgePodCIDR opts) = Val a).

(** The four fields the controllers need later. *)
Definition runtime_fields (opts : Options)
  : option CtrlManager * option EndpointStore
    * option (HTTPServer * option (CertManager * KeyPair)) * option FClient :=
  (Manager opts, Store opts, APIServer opts, APIClient opts).

Lemma completeCNI_ready (opts : Options) (p : Process) :
  cni_ready opts ->
  exists opts1 getters,
    completeCNI opts p = (opts1, SetEdgeNodeLabels (EdgeLabels opts) p, Val getters) /\
    runtime_fields opts1 = runtime_fields opts.
Proof.
  unfold cni_ready, completeCNI. cbn [CNIType set_CNIType EdgePodCIDR EdgeLabels
                                      set_Agent set_PodCIDRStore Agent].
  intros [Hf | (Hc & a & Ha)].
  - rewrite Hf. simpl. eexists _, _. split; reflexivity.
  - rewrite Hc. simpl. rewrite Ha. eexists _, _. split; reflexivity.
Qed.

(** C9. When the switch on the CNI type lets [Complete] reach
    [config.GetConfig] and that call fails, [Complete] logs "failed to load
    kubeconfig" with the error and returns nil; Manager, Store, APIServer
    and APIClient are left as they were, so nil if they were nil. *)
Theorem Complete_kubeconfig_failure (opts : Options) (p : Process) (err : error) :
  cni_ready opts ->
  config_GetConfig = Fail err ->
  exists opts' p',
    Complete opts p = (opts', p', None) /\
    logged p' = (logged p ++ [logError err "failed to load kubeconfig"])%list /\
    runtime_fields opts' = runtime_fields opts.
Proof.
  intros Hready Hcfg.
  destruct (completeCNI_ready opts p Hready) as (opts1 & [ge gc] & Hcni & Hfields).
  unfold Complete. rewrite Hcni.
  destruct (NewEndpointFuncs (Cluster opts1) (EndpointIDFormat opts1) ge)
    as [[getName getID] newEp].
  rewrite Hcfg. eexists _, _. split; [reflexivity |].
  split; [reflexivity |]. exact Hfields.
Qed.

End WithPlatform.

(** ** On the lab cluster *)

Definition noKubeconfig : Lab.Answers :=
  Lab.mkAnswers (fun _ => StatFile) (Fail "could not locate a kubeconfig") (Val []) (Val []).

Definition fromFlags : @Options _ (Lab.platform noKubeconfig) :=
  Lab.flagOptions noKubeconfig "bj" "flannel"
    (Lab.leader 15000000000 10000000000 2000000000) "" [].

Lemma Complete_kubeconfig_failure_witness :
  exists opts' p',
    @Complete _ (Lab.platform noKubeconfig) fromFlags Lab.startProcess
      = (opts', p', None) /\
    logged p' = [logError "could not locate a kubeconfig" "failed to load kubeconfig"] /\
    @runtime_fields _ (Lab.platform noKubeconfig) opts' = (None, None, None, None).
Proof.
  refine (@Complete_kubeconfig_failure _ (Lab.platform noKubeconfig)
            fromFlags Lab.startProcess "could not locate a kubeconfig" _ eq_refl).
  left. reflexivity.
Defined.

End CompleteClaims.

(* ===================================================================== *)
(** * Properties of the connector manager                                  *)
(* ===================================================================== *)

Module ConnectorClaims.
Import Go ConnectorManager.

Section WithConnConfig.
Context {ConnConfig : Type}.

Local Abbreviation Manager := (Manager ConnConfig).
Local Abbreviation World := (World ConnConfig).
Local Abbreviation Action := (Action ConnConfig).

Lemma calls_emit (a : Action) (m : Manager) :
  calls (emit a m) = (calls m ++ if is_call a then [a] else [])%list.
Proof.
  unfold calls, emit. simpl. rewrite List.filter_app. simpl.
  destruct (is_call a); reflexivity.
Qed.

Lemma calls_klog_Errorf (msg : string) (err : error) (m : Manager) :
  calls (klog_Errorf msg err m) = calls m.
Proof. unfold klog_Errorf. rewrite calls_emit. simpl. apply app_nil_r. Qed.

Lemma calls_klog_Info (msg : string) (m : Manager) :
  calls (klog_Info msg m) = calls m.
Proof. unfold klog_Info. rewrite calls_emit. simpl. apply app_nil_r. Qed.

Lemma broadcasts_emit (a : Action) (m : Manager) :
  broadcasts (emit a m) =
  (broadcasts m ++ match a with Call_mc_Broadcast b => [b] | _ => [] end)%list.
Proof.
  unfold broadcasts, emit. simpl. rewrite flat_map_app. simpl.
  rewrite app_nil_r. reflexivity.
Qed.

Lemma broadcasts_klog_Errorf (msg : string) (err : error) (m : Manager) :
  broadcasts (klog_Errorf msg err m) = broadcasts m.
Proof. unfold klog_Errorf. rewrite broadcasts_emit. apply app_nil_r. Qed.

Lemma broadcasts_klog_Info (msg : string) (m : Manager) :
  broadcasts (klog_Info msg m) = broadcasts m.
Proof. unfold klog_Info. rewrite broadcasts_emit. apply app_nil_r. Qed.

(** C2. One run of the route task asks the tunnel manager whether it is
    active; if it is, the task calls SyncRoutes on the current connections,
    if it is not, CleanRoutes on them, and if the query fails, neither.
    The task makes no other call and leaves the connections as they are. *)
Theorem routeTaskFn_calls (w : World) (m : Manager) :
  connections (routeTaskFn w m) = connections m /\
  calls (routeTaskFn w m) =
    (calls m ++ Call_tm_IsActive ::
       match tm_IsActive w with
       | Val true => [Call_router_SyncRoutes (connections m)]
       | Val false => [Call_router_CleanRoutes (connections m)]
       | Fail _ => []
       end)%list.
Proof.
  unfold routeTaskFn.
  destruct (tm_IsActive w) as [[] | err]; cbn [emit connections].
  - destruct (router_SyncRoutes w (connections m)); split; try reflexivity;
      rewrite ?calls_klog_Errorf, ?calls_klog_Info, !calls_emit; simpl;
      rewrite <- app_assoc; reflexivity.
  - destruct (router_CleanRoutes w (connections m)); split; try reflexivity;
      rewrite ?calls_klog_Errorf, ?calls_klog_Info, !calls_emit; simpl;
      rewrite <- app_assoc; reflexivity.
  - split; [reflexivity |].
    rewrite calls_klog_Errorf, calls_emit. reflexivity.
Qed.

(** C5. Once the signal has arrived, the manager calls CleanRoutes on its
    current connections and then CleanSNatIPTablesRules, whatever the first
    answers, and nothing else: no call reaches the tunnel manager and
    clearFabedgeIptablesChains is not called. *)
Theorem gracefulShutdown_calls (w : World) (m : Manager) :
  calls (onSignal w m) =
    (calls m ++ [Call_router_CleanRoutes (connections m);
                 Call_CleanSNatIPTablesRules])%list /\
  calls (gracefulShutdown w m) = calls (onSignal w m) /\
  connections (onSignal w m) = connections m.
Proof.
  assert (Hg : calls (gracefulShutdown w m) =
                 (calls m ++ [Call_router_CleanRoutes (connections m);
                              Call_CleanSNatIPTablesRules])%list).
  { unfold gracefulShutdown.
    destruct (router_CleanRoutes w (connections m));
      destruct (CleanSNatIPTablesRules w);
      rewrite ?calls_klog_Errorf, calls_emit, ?calls_klog_Errorf, calls_emit; simpl;
      rewrite <- app_assoc; reflexivity. }
  unfold onSignal. rewrite calls_klog_Info. split; [exact Hg |].
  split; [reflexivity |].
  unfold gracefulShutdown.
  destruct (router_CleanRoutes w (connections m));
    destruct (CleanSNatIPTablesRules w); reflexivity.
Qed.

(** What [broadcastToAgents] hands to the membership client. *)
Definition payloads (w : World) : list string :=
  match router_GetConnectorPrefixes w with
  | Fail _ => []
  | Val cp =>
      if (length (RemotePrefixes cp) <? 1)%nat || (length (LocalPrefixes cp) <? 1)%nat
      then []
      else match json_Marshal w cp with
           | Val b => [b]
           | Fail _ => [""]
           end
  end.

Lemma broadcasts_connections (conns : list ConnConfig) (m : Manager) :
  broadcasts (mkManager conns (actions m)) = broadcasts m.
Proof. reflexivity. Qed.

Lemma broadcastToAgents_payloads (w : World) (m : Manager) :
  broadcasts (broadcastToAgents w m) = (broadcasts m ++ payloads w)%list.
Proof.
  unfold broadcastToAgents, payloads.
  destruct (router_GetConnectorPrefixes w) as [cp | e].
  - destruct ((length (RemotePrefixes cp) <? 1)%nat
              || (length (LocalPrefixes cp) <? 1)%nat).
    + rewrite broadcasts_emit. reflexivity.
    + destruct (json_Marshal w cp) as [b | e];
        rewrite ?broadcasts_emit, ?broadcasts_klog_Errorf, ?broadcasts_emit;
        cbn [app]; rewrite !app_nil_r; reflexivity.
  - rewrite broadcasts_klog_Errorf, broadcasts_emit. reflexivity.
Qed.

Lemma tunnelTaskFn_payloads (w : World) (m : Manager) :
  broadcasts (tunnelTaskFn w m) =
    (broadcasts m ++ match snd (syncConnections w (connections m)) with
                     | Some _ => []
                     | None => payloads w
                     end)%list.
Proof.
  unfold tunnelTaskFn. cbn [emit connections].
  destruct (syncConnections w (connections m)) as [conns [e |]]; cbn [snd].
  - rewrite broadcasts_klog_Errorf, broadcasts_connections, broadcasts_emit.
    reflexivity.
  - rewrite broadcasts_klog_Info, broadcastToAgents_payloads,
      broadcasts_connections, broadcasts_emit, app_nil_r.
    reflexivity.
Qed.

(** C6 (as the code has it). One run of the tunnel task: when
    syncConnections returns an error nothing is broadcast; when it returns
    nil, the connector prefixes are obtained, both the local and the remote
    prefixes are non-empty and they marshal, the marshalled payload is
    broadcast, once; when it returns nil and the prefixes cannot be
    obtained or one of the two lists is empty, nothing is broadcast. *)
Theorem tunnelTaskFn_broadcast (w : World) (m : Manager)
    (conns : list ConnConfig) (err : option error) :
  syncConnections w (connections m) = (conns, err) ->
  (err <> None -> broadcasts (tunnelTaskFn w m) = broadcasts m) /\
  (err = None ->
   forall cp b,
     router_GetConnectorPrefixes w = Val cp ->
     LocalPrefixes cp <> [] -> RemotePrefixes cp <> [] ->
     json_Marshal w cp = Val b ->
     broadcasts (tunnelTaskFn w m) = (broadcasts m ++ [b])%list) /\
  (err = None ->
   (forall cp, router_GetConnectorPrefixes w = Val cp ->
               LocalPrefixes cp = [] \/ RemotePrefixes cp = []) ->
   broadcasts (tunnelTaskFn w m) = broadcasts m).
Proof.
  intros Hsync. rewrite tunnelTaskFn_payloads, Hsync. cbn [snd].
  split; [| split].
  - intros Herr. destruct err as [e |]; [apply app_nil_r | contradiction].
  - intros -> cp b Hcp Hl Hr Hb. unfold payloads. rewrite Hcp, Hb.
    destruct (RemotePrefixes cp); [contradiction |].
    destruct (LocalPrefixes cp); [contradiction |]. reflexivity.
  - intros -> Hempty. unfold payloads.
    destruct (router_GetConnectorPrefixes w) as [cp | e]; [| apply app_nil_r].
    destruct (Hempty cp eq_refl) as [-> | ->]; simpl;
      rewrite ?orb_true_r; apply app_nil_r.
Qed.

End WithConnConfig.

(** ** A connector at work *)

(** Tunnels synchronise, the router knows local prefixes and no remote
    one. *)
Definition noRemotePrefixes : World string :=
  mkWorld (Val true) (fun _ => None) (fun _ => None)
    (Val (mkConnectorPrefixes ["10.233.0.0/16"] []))
    (fun _ => Val "{}")
    (fun conns => (conns, None))
    None None None (fun _ => None) None None.

(** Tunnels synchronise and the router knows prefixes on both sides. *)
Definition bothPrefixes : World string :=
  mkWorld (Val true) (fun _ => None) (fun _ => None)
    (Val (mkConnectorPrefixes ["10.233.0.0/16"] ["10.20.0.0/26"]))
    (fun _ => Val "{prefixes}")
    (fun conns => (conns, None))
    None None None (fun _ => None) None None.

Definition idle : Manager string := mkManager ["bj.n1"] [].

(** C6, as stated, fails: the tunnels synchronise without error and nothing
    is broadcast, the remote prefixes being empty. *)
Lemma sync_without_broadcast :
  snd (syncConnections noRemotePrefixes (connections idle)) = None /\
  broadcasts (tunnelTaskFn noRemotePrefixes idle) = [].
Proof. split; reflexivity. Qed.

Lemma tunnelTaskFn_broadcast_witness :
  broadcasts (tunnelTaskFn bothPrefixes idle) = ["{prefixes}"].
Proof.
  refine (proj1 (proj2 (tunnelTaskFn_broadcast bothPrefixes idle ["bj.n1"] None eq_refl))
            eq_refl (mkConnectorPrefixes ["10.233.0.0/16"] ["10.20.0.0/26"])
            "{prefixes}" eq_refl _ _ eq_refl); discriminate.
Defined.

End ConnectorClaims.

(* ===================================================================== *)
(** * Properties of the agent certificate handler                          *)
(* ===================================================================== *)

Module AgentCertClaims.
Import Go AgentCert.

Section WithCertManager.
Context `{CM : CertManager} `{!CertManagerLaws}.





End WithCertManager.

(** ** A certificate authority to try it with *)












End AgentCertClaims.

(* ===================================================================== *)
(** * More on Options.Validate                                             *)
(* ===================================================================== *)

Module ValidateMore.
Import Go GoNet Operator ValidateFacts.

Definition set_ClusterRole `{Platform} (v : string) (o : Options) : Options :=
  mkOptions (Cluster o) v (Namespace o) (EdgePodCIDR o)
    (EndpointIDFormat o) (EdgeLabels o) (CNIType o) (CASecretName o)
    (CertValidPeriod o) (CertOrganization o) (Agent o) (Connector o)
    (IPVSScheduler o) (ManagerOpts o) (APIServerCertFile o)
    (APIServerKeyFile o) (APIServerListenAddress o) (APIServerAddress o)
    (TokenValidPeriod o) (InitToken o) (Store o) (PodCIDRStore o)
    (NewEndpoint o) (Manager o) (APIServer o) (APIClient o) (PrivateKey o).

(** One case split per check of [Validate], in a hypothesis about its
    result. *)
Ltac walk H :=
  repeat match type of H with
         | (if ?c then _ else _) = _ => destruct c eqn:?
         | match ?x with _ => _ end = _ => destruct x eqn:?
         end.

Section WithPlatform.
Context `{Pf : Platform}.

(** Everything [Validate] asks of the options. *)
Definition valid_options (opts : Options) : Prop :=
  DNS1123.IsDottedName (Cluster opts) = true /\
  ((ClusterRole opts = RoleHost /\
    osStat (APIServerKeyFile opts) = StatFile /\
    osStat (APIServerCertFile opts) = StatFile) \/
   (ClusterRole opts = RoleMember /\ InitToken opts <> "")) /\
  EdgeLabels opts <> ∅ /\
  ConnectorLabels (Connector opts) <> ∅ /\
  cePublicAddresses (ConnEndpoint (Connector opts)) <> [] /\
  (forall s, In s (ProvidedSubnets (Connector opts)) -> exists v, ParseCIDR s = Val v) /\
  (EnableEdgeIPAM (Agent opts) = true ->
   exists ip subnet,
     ParseCIDR (EdgePodCIDR opts) = Val (ip, subnet) /\
     forall s ip2 subnet2,
       In s (ProvidedSubnets (Connector opts)) ->
       ParseCIDR s = Val (ip2, subnet2) ->
       Contains subnet ip2 = false /\ Contains subnet2 ip = false) /\
  (ImagePullPolicy (Agent opts) = PullAlways \/
   ImagePullPolicy (Agent opts) = PullIfNotPresent \/
   ImagePullPolicy (Agent opts) = PullNever) /\
  exists l r p,
    LeaseDuration (ManagerOpts opts) = Some l /\
    RenewDeadline (ManagerOpts opts) = Some r /\
    RetryPeriod (ManagerOpts opts) = Some p /\
    durations_accepted l r p.

Lemma fileExists_true (f : string) : fileExists f = Some true <-> osStat f = StatFile.
Proof. unfold fileExists. destruct (osStat f); split; congruence. Qed.

Lemma size_eqb_0 (m : gmap string string) : (size m =? 0)%nat = false <-> m <> ∅.
Proof.
  rewrite Nat.eqb_neq. split; intros Hm Hz; apply Hm.
  - subst. apply map_size_empty.
  - apply map_size_empty_iff. assumption.
Qed.

Lemma length_eqb_0 {A : Type} (l : list A) : (length l =? 0)%nat = false <-> l <> [].
Proof. destruct l; simpl; split; congruence. Qed.

Lemma strlen_eqb_0 (s : string) : (String.length s =? 0)%nat = false <-> s <> "".
Proof. destruct s; simpl; split; congruence. Qed.

Lemma dotted_nonempty (s : string) : DNS1123.IsDottedName s = true -> s <> "".
Proof. intros Hd ->. discriminate Hd. Qed.

Lemma no_overlap_loop (ip : IP) (subnet : IPNet) (l : list string) :
  validateOverlap ip subnet l = ReturnNil <->
  (forall s, In s l -> exists v, ParseCIDR s = Val v) /\
  (forall s ip2 subnet2, In s l -> ParseCIDR s = Val (ip2, subnet2) ->
                         Contains subnet ip2 = false /\ Contains subnet2 ip = false).
Proof.
  rewrite validateOverlap_pass. split.
  - intros Hl. split.
    + intros s Hin. destruct (Hl s Hin) as (ip2 & n2 & Hs & _). eauto.
    + intros s ip2 n2 Hin Hs. destruct (Hl s Hin) as (ip2' & n2' & Hs' & H1 & H2).
      rewrite Hs in Hs'. injection Hs' as <- <-. auto.
  - intros [Hparse Hno] s Hin. destruct (Hparse s Hin) as ([ip2 n2] & Hs).
    exists ip2, n2. split; [assumption |]. apply (Hno s ip2 n2 Hin Hs).
Qed.

(** X1. [Validate] returns nil exactly for the options that pass every
    check: a dotted cluster name; role host with both API server files
    present as files, or role member with an init token; edge labels,
    connector labels and connector public addresses non-empty; every
    connector subnet a CIDR; under edge IPAM an EdgePodCIDR that parses and,
    for every connector subnet, a network that does not contain the
    address of the subnet, nor the subnet's network the address of the
    EdgePodCIDR, as [Contains] answers; a supported pull policy; the three
    durations set and accepted. *)
Theorem Validate_accepts_iff (opts : Options) :
  Validate opts = ReturnNil <-> valid_options opts.
Proof.
  unfold valid_options. split.
  - intros Hv.
    destruct (Validate_nil_durations opts Hv) as (l & r & p & Hl & Hr & Hp & Hacc).
    unfold Validate in Hv. cbv zeta in Hv.
    destruct (String.length (Cluster opts) =? 0)%nat eqn:Hlen; [discriminate |].
    destruct (Regexp.MatchString DNS1123.dns1123Reg (Cluster opts)) eqn:Hm;
      [| discriminate].
    rewrite DNS1123Facts.MatchString_dns1123Reg in Hm. cbn [negb] in Hv.
    split; [assumption |].
    destruct (String.eqb_spec (ClusterRole opts) RoleHost) as [Hhost | Hnothost];
      destruct (String.eqb_spec (ClusterRole opts) RoleMember) as [Hmem | Hnotmem];
      cbn [negb andb] in Hv; try discriminate.
    + rewrite Hhost in Hmem. discriminate.
    + destruct (fileExists (APIServerKeyFile opts)) as [[] |] eqn:Hk; try discriminate.
      destruct (fileExists (APIServerCertFile opts)) as [[] |] eqn:Hc; try discriminate.
      apply fileExists_true in Hk, Hc.
      split; [left; auto |]. revert Hv. apply (fun k => k).
      destruct (size (EdgeLabels opts) =? 0)%nat eqn:H1; [discriminate |].
      destruct (size (ConnectorLabels (Connector opts)) =? 0)%nat eqn:H2; [discriminate |].
      destruct (length (cePublicAddresses (ConnEndpoint (Connector opts))) =? 0)%nat eqn:H3;
        [discriminate |].
      destruct (validateSubnets (ProvidedSubnets (Connector opts))) eqn:H4; [discriminate |].
      apply size_eqb_0 in H1, H2. apply length_eqb_0 in H3.
      rewrite validateSubnets_pass in H4.
      intros Hv. repeat (split; [assumption |]).
      split; [| split].
      * intros Hipam. rewrite Hipam in Hv.
        destruct (ParseCIDR (EdgePodCIDR opts)) as [[ip subnet] | c] eqn:He; [| discriminate].
        exists ip, subnet. split; [reflexivity |].
        destruct (validateOverlap ip subnet (ProvidedSubnets (Connector opts))) eqn:Ho;
          try discriminate.
        apply no_overlap_loop in Ho. apply Ho.
      * destruct (EnableEdgeIPAM (Agent opts));
          [destruct (ParseCIDR (EdgePodCIDR opts)) as [[ip subnet] | c]; [| discriminate];
           destruct (validateOverlap ip subnet _); try discriminate |];
          destruct (String.eqb_spec (ImagePullPolicy (Agent opts)) PullAlways);
          destruct (String.eqb_spec (ImagePullPolicy (Agent opts)) PullIfNotPresent);
          destruct (String.eqb_spec (ImagePullPolicy (Agent opts)) PullNever);
          auto; discriminate.
      * exists l, r, p. auto.
    + destruct (String.length (InitToken opts) =? 0)%nat eqn:Htok; [discriminate |].
      apply strlen_eqb_0 in Htok.
      split; [right; auto |]. revert Hv. apply (fun k => k).
      destruct (size (EdgeLabels opts) =? 0)%nat eqn:H1; [discriminate |].
      destruct (size (ConnectorLabels (Connector opts)) =? 0)%nat eqn:H2; [discriminate |].
      destruct (length (cePublicAddresses (ConnEndpoint (Connector opts))) =? 0)%nat eqn:H3;
        [discriminate |].
      destruct (validateSubnets (ProvidedSubnets (Connector opts))) eqn:H4; [discriminate |].
      apply size_eqb_0 in H1, H2. apply length_eqb_0 in H3.
      rewrite validateSubnets_pass in H4.
      intros Hv. repeat (split; [assumption |]).
      split; [| split].
      * intros Hipam. rewrite Hipam in Hv.
        destruct (ParseCIDR (EdgePodCIDR opts)) as [[ip subnet] | c] eqn:He; [| discriminate].
        exists ip, subnet. split; [reflexivity |].
        destruct (validateOverlap ip subnet (ProvidedSubnets (Connector opts))) eqn:Ho;
          try discriminate.
        apply no_overlap_loop in Ho. apply Ho.
      * destruct (EnableEdgeIPAM (Agent opts));
          [destruct (ParseCIDR (EdgePodCIDR opts)) as [[ip subnet] | c]; [| discriminate];
           destruct (validateOverlap ip subnet _); try discriminate |];
          destruct (String.eqb_spec (ImagePullPolicy (Agent opts)) PullAlways);
          destruct (String.eqb_spec (ImagePullPolicy (Agent opts)) PullIfNotPresent);
          destruct (String.eqb_spec (ImagePullPolicy (Agent opts)) PullNever);
          auto; discriminate.
      * exists l, r, p. auto.
  - intros (Hname & Hrole & Hel & Hcl & Hpa & Hsub & Hipam & Hpol & l & r & p
            & Hl & Hr & Hp & H1 & H2 & H3 & H4 & H5).
    unfold Validate. cbv zeta.
    rewrite (proj2 (strlen_eqb_0 _) (dotted_nonempty _ Hname)).
    rewrite DNS1123Facts.MatchString_dns1123Reg, Hname. cbn [negb].
    rewrite (proj2 (size_eqb_0 _) Hel), (proj2 (size_eqb_0 _) Hcl),
      (proj2 (length_eqb_0 _) Hpa), (proj2 (validateSubnets_pass _) Hsub), Hl, Hr, Hp.
    assert (Hd1 : (l <=? r) = false) by (apply Z.leb_gt; lia).
    assert (Hd2 : (r <=? jittered p) = false) by (apply Z.leb_gt; lia).
    assert (Hd3 : (l <? Duration.Second) = false) by (apply Z.ltb_ge; lia).
    assert (Hd4 : (r <? Duration.Second) = false) by (apply Z.ltb_ge; lia).
    assert (Hd5 : (p <? Duration.Second) = false) by (apply Z.ltb_ge; lia).
    rewrite Hd1, Hd2, Hd3, Hd4, Hd5.
    assert (Hpolb : negb (ImagePullPolicy (Agent opts) =? PullAlways)%string
                    && negb (ImagePullPolicy (Agent opts) =? PullIfNotPresent)%string
                    && negb (ImagePullPolicy (Agent opts) =? PullNever)%string = false).
    { destruct Hpol as [-> | [-> | ->]]; reflexivity. }
    rewrite Hpolb.
    assert (Hip : (if EnableEdgeIPAM (Agent opts)
                   then match ParseCIDR (EdgePodCIDR opts) with
                        | Val (ip, subnet) =>
                            match validateOverlap ip subnet (ProvidedSubnets (Connector opts)) with
                            | ReturnNil => ReturnNil
                            | stop => stop
                            end
                        | Fail err => ReturnErr (ErrInvalidEdgePodCIDR (EdgePodCIDR opts) err)
                        end
                   else ReturnNil) = ReturnNil).
    { destruct (EnableEdgeIPAM (Agent opts)); [| reflexivity].
      destruct (Hipam eq_refl) as (ip & subnet & He & Hno). rewrite He.
      rewrite (proj2 (no_overlap_loop _ _ _) (conj Hsub Hno)). reflexivity. }
    destruct Hrole as [(Hhost & Hk & Hc) | (Hmem & Htok)].
    + rewrite Hhost. cbn [String.eqb Ascii.eqb Bool.eqb negb andb RoleHost RoleMember].
      simpl.
      rewrite (proj2 (fileExists_true _) Hk), (proj2 (fileExists_true _) Hc).
      exact Hip.
    + rewrite Hmem. simpl. rewrite (proj2 (strlen_eqb_0 _) Htok). exact Hip.
Qed.

Lemma fileExists_none (f : string) : fileExists f = None <-> osStat f = StatOtherError.
Proof. unfold fileExists. destruct (osStat f); split; congruence. Qed.

Ltac settle_panic :=
  repeat match goal with
         | Hf : fileExists _ = None |- _ => apply fileExists_none in Hf
         end;
  auto;
  match goal with
  | Ho : validateOverlap _ _ _ = Panic, Hs : validateSubnets _ = None |- _ =>
      let s := fresh "s" in
      let cause := fresh "cause" in
      let Hin := fresh "Hin" in
      let Hfail := fresh "Hfail" in
      let v := fresh "v" in
      let Hval := fresh "Hval" in
      apply validateOverlap_panic in Ho as (s & cause & Hin & Hfail);
      rewrite validateSubnets_pass in Hs;
      destruct (Hs s Hin) as (v & Hval); congruence
  end.

(** X2. [Validate] panics only in two ways: in role host, when [os.Stat]
    fails on the key file or the certificate file with an error other than
    "not exist"; or when one of the three duration pointers is nil. The loop
    that drops the error of [ParseCIDR] never panics. *)
Theorem Validate_panics_only (opts : Options) :
  Validate opts = Panic ->
  (ClusterRole opts = RoleHost /\
   (osStat (APIServerKeyFile opts) = StatOtherError \/
    osStat (APIServerCertFile opts) = StatOtherError)) \/
  LeaseDuration (ManagerOpts opts) = None \/
  RenewDeadline (ManagerOpts opts) = None \/
  RetryPeriod (ManagerOpts opts) = None.
Proof.
  intros Hv. unfold Validate in Hv. cbv zeta in Hv.
  destruct (String.eqb_spec (ClusterRole opts) RoleHost) as [Hhost | Hnot];
    walk Hv; try discriminate; settle_panic.
Qed.

Lemma validateSubnets_first (l : list string) (e : ValidateError) :
  validateSubnets l = Some e ->
  exists before s cause after,
    l = (before ++ s :: after)%list /\
    e = ErrInvalidSubnet s cause /\
    ParseCIDR s = Fail cause /\
    forall x, In x before -> exists v, ParseCIDR x = Val v.
Proof.
  induction l as [| x l IH]; simpl; [discriminate |].
  destruct (ParseCIDR x) as [v | cause] eqn:Hx.
  - intros He. destruct (IH He) as (before & s & c & after & -> & -> & Hs & Hb).
    exists (x :: before), s, c, after. repeat split; try assumption.
    intros y [<- | Hy]; [exists v; assumption | apply Hb; assumption].
  - intros [= <-]. exists [], x, cause, l. repeat split; try assumption.
    intros y [].
Qed.

(** X3. When [Validate] returns "invalid subnet", the subnet named is the
    first connector subnet, in the order given, that [ParseCIDR] refuses,
    and the error wrapped is the one [ParseCIDR] gave for it. *)
Theorem Validate_invalid_subnet_is_first (opts : Options) (s : string) (cause : error) :
  Validate opts = ReturnErr (ErrInvalidSubnet s cause) ->
  exists before after,
    ProvidedSubnets (Connector opts) = (before ++ s :: after)%list /\
    ParseCIDR s = Fail cause /\
    forall x, In x before -> exists v, ParseCIDR x = Val v.
Proof.
  intros Hv. unfold Validate in Hv. cbv zeta in Hv.
  walk Hv; try discriminate.
  all: try (injection Hv as ->;
            match goal with
            | Hs : validateSubnets _ = Some _ |- _ =>
                apply validateSubnets_first in Hs
                  as (before & s' & c & after & Hl & [= -> ->] & Hf & Hb);
                exists before, after; auto
            end).
  all: injection Hv as ->;
    match goal with
    | Ho : validateOverlap _ _ _ = ReturnErr _ |- _ =>
        apply validateOverlap_error in Ho; discriminate Ho
    end.
Qed.

End WithPlatform.

(** ** Names the cluster-name check lets through *)

Section ClusterNames.
Import Regexp DNS1123 DNS1123Facts.

Lemma last_cons_cons {A : Type} (a b : A) (l : list A) (d : A) :
  List.last (a :: b :: l) d = List.last (b :: l) d.
Proof. reflexivity. Qed.

Lemma last_app_cons {A : Type} (l1 : list A) (x : A) (l2 : list A) (d : A) :
  List.last (l1 ++ x :: l2) d = List.last (x :: l2) d.
Proof.
  induction l1 as [| a l1 IH]; [reflexivity |].
  rewrite <- IH. cbn [app].
  destruct (l1 ++ x :: l2)%list as [| b l] eqn:Heq.
  - destruct l1; discriminate.
  - apply last_cons_cons.
Qed.

Lemma join_dots_cons (first o : list ascii) (os : list (list ascii)) :
  join_dots first (o :: os) = (first ++ "."%char :: join_dots o os)%list.
Proof. unfold join_dots. simpl. reflexivity. Qed.

Lemma joined_last (others : list (list ascii)) :
  forall first d,
    label_shape first = true ->
    Forall (fun l => label_shape l = true) others ->
    is_alnum (List.last (join_dots first others) d) = true.
Proof.
  induction others as [| o os IH]; intros first d Hf Ho.
  - unfold join_dots. simpl. rewrite app_nil_r.
    destruct first as [| c t]; [discriminate |]. simpl in Hf.
    apply andb_prop in Hf as [_ Hlast].
    destruct t as [| a t']; [exact Hlast |].
    rewrite last_cons_cons.
    clear - Hlast. revert a c Hlast. induction t' as [| b t' IH]; intros a c Hlast.
    + exact Hlast.
    + rewrite last_cons_cons. rewrite last_cons_cons in Hlast.
      apply (IH b c). exact Hlast.
  - rewrite join_dots_cons, last_app_cons.
    inversion Ho as [| ? ? Ho1 Ho2]; subst.
    pose proof (IH o d Ho1 Ho2) as Hl.
    destruct (join_dots o os) as [| x xs] eqn:Hj.
    + unfold join_dots in Hj. destruct o; [discriminate | discriminate].
    + exact Hl.
Qed.

Lemma joined_chars (others : list (list ascii)) :
  forall first c,
    forallb is_ldh first = true ->
    Forall (fun l => forallb is_ldh l = true) others ->
    In c (join_dots first others) -> is_ldh c = true \/ c = "."%char.
Proof.
  induction others as [| o os IH]; intros first c Hf Ho Hin.
  - unfold join_dots in Hin. simpl in Hin. rewrite app_nil_r in Hin.
    left. rewrite forallb_forall in Hf. apply Hf. assumption.
  - rewrite join_dots_cons in Hin. apply in_app_or in Hin as [Hin | [<- | Hin]].
    + left. rewrite forallb_forall in Hf. apply Hf. assumption.
    + right. reflexivity.
    + inversion Ho; subst. apply (IH o c); assumption.
Qed.

Lemma dotted_name_alphabet (l : list ascii) :
  dotted_name_shape l = true ->
  (forall c, In c l -> is_ldh c = true \/ c = "."%char) /\
  is_alnum (List.hd "."%char l) = true /\
  is_alnum (List.last l "."%char) = true.
Proof.
  unfold dotted_name_shape. intros Hall.
  destruct (split_dots_join l) as (first & others & Hsplit & ->).
  rewrite Hsplit in Hall. simpl in Hall. apply andb_prop in Hall as [Hf Ho].
  assert (Ho' : Forall (fun l => label_shape l = true) others).
  { apply List.Forall_forall. rewrite forallb_forall in Ho. exact Ho. }
  split; [| split].
  - intros c. apply joined_chars; [apply label_shape_ldh; assumption |].
    eapply List.Forall_impl; [| exact Ho']. intros x. apply label_shape_ldh.
  - destruct first as [| c t]; [discriminate |]. simpl in Hf.
    apply andb_prop in Hf as [Hf _]. apply andb_prop in Hf as [Hc _]. exact Hc.
  - apply joined_last; assumption.
Qed.

Lemma split_dots_app (a b : list ascii) :
  split_dots (a ++ "."%char :: b) = (split_dots a ++ split_dots b)%list.
Proof.
  induction a as [| c a IH]; [reflexivity |].
  simpl. destruct (Ascii.eqb c "."); rewrite IH; [reflexivity |].
  destruct (split_dots a) as [| h r] eqn:Ha; [| reflexivity].
  exfalso. exact (split_dots_nonempty a Ha).
Qed.

Lemma list_ascii_of_string_app (a b : string) :
  list_ascii_of_string (a ++ b) = (list_ascii_of_string a ++ list_ascii_of_string b)%list.
Proof. induction a as [| c a IH]; simpl; [reflexivity | rewrite IH; reflexivity]. Qed.

(** X4. A name [dns1123Reg] matches is made of lower-case letters, digits,
    hyphens and dots only, and it begins and ends with a letter or a
    digit. *)
Theorem dns1123Reg_alphabet (s : string) :
  MatchString dns1123Reg s = true ->
  (forall c, In c (list_ascii_of_string s) -> is_ldh c = true \/ c = "."%char) /\
  is_alnum (List.hd "."%char (list_ascii_of_string s)) = true /\
  is_alnum (List.last (list_ascii_of_string s) "."%char) = true.
Proof.
  rewrite MatchString_dns1123Reg. unfold IsDottedName. apply dotted_name_alphabet.
Qed.

(** X5. [dns1123Reg] matches [a.b] exactly when it matches [a] and it
    matches [b]: names are built from names with dots, and every part
    between two dots of a name that matches is a name that matches. *)
Theorem dns1123Reg_dot (a b : string) :
  MatchString dns1123Reg (a ++ "." ++ b) =
  MatchString dns1123Reg a && MatchString dns1123Reg b.
Proof.
  rewrite !MatchString_dns1123Reg. unfold IsDottedName, dotted_name_shape.
  rewrite list_ascii_of_string_app. simpl.
  rewrite split_dots_app, forallb_app. reflexivity.
Qed.

End ClusterNames.

(** ** On the lab cluster *)

Definition statFails : Lab.Answers :=
  Lab.mkAnswers (fun _ => StatOtherError) (Val tt) (Val []) (Val []).

Definition hostOptions : @Options _ (Lab.platform statFails) :=
  @set_ClusterRole _ (Lab.platform statFails) RoleHost
    (Lab.flagOptions statFails "bj" "flannel"
       (Lab.leader 15000000000 10000000000 2000000000) "" []).

Lemma Validate_accepts_iff_witness :
  @valid_options _ ValidateClaims.lab (ValidateClaims.defaults "bj" false "" ["10.233.0.0/16"]).
Proof.
  refine (proj1 (@Validate_accepts_iff _ ValidateClaims.lab
                   (ValidateClaims.defaults "bj" false "" ["10.233.0.0/16"])) _).
  vm_compute. reflexivity.
Defined.

Lemma Validate_panics_only_witness :
  (@ClusterRole _ (Lab.platform statFails) hostOptions = RoleHost /\
   (@osStat _ (Lab.platform statFails) "" = StatOtherError \/
    @osStat _ (Lab.platform statFails) "" = StatOtherError)) \/
  @LeaseDuration (ManagerOpts hostOptions) = None \/
  @RenewDeadline (ManagerOpts hostOptions) = None \/
  @RetryPeriod (ManagerOpts hostOptions) = None.
Proof.
  refine (@Validate_panics_only _ (Lab.platform statFails) hostOptions _).
  vm_compute. reflexivity.
Defined.

Lemma Validate_invalid_subnet_is_first_witness :
  exists before after,
    ["10.233.0.0/16"; "10.96.0.0"; "bad"] = (before ++ "10.96.0.0" :: after)%list /\
    IPv4.parseCIDR "10.96.0.0" = Fail "invalid CIDR address: 10.96.0.0" /\
    forall x, In x before -> exists v, IPv4.parseCIDR x = Val v.
Proof.
  refine (@Validate_invalid_subnet_is_first _ ValidateClaims.lab
            (ValidateClaims.defaults "bj" false "" ["10.233.0.0/16"; "10.96.0.0"; "bad"])
            "10.96.0.0" "invalid CIDR address: 10.96.0.0" _).
  vm_compute. reflexivity.
Defined.

Lemma dns1123Reg_alphabet_witness :
  (forall c, In c (list_ascii_of_string "bj-1.edge") ->
             DNS1123.is_ldh c = true \/ c = "."%char) /\
  DNS1123.is_alnum (List.hd "."%char (list_ascii_of_string "bj-1.edge")) = true /\
  DNS1123.is_alnum (List.last (list_ascii_of_string "bj-1.edge") "."%char) = true.
Proof.
  refine (dns1123Reg_alphabet "bj-1.edge" _). vm_compute. reflexivity.
Defined.

End ValidateMore.

(* ===================================================================== *)
(** * More on Options.recordEndpoints                                      *)
(* ===================================================================== *)

Module RecordMore.
Import Go GoNet Operator RecordFacts.

(** The last object of the list with the given name, if any. *)
Definition lastNamed {A : Type} (nameOf : A -> string) (name : string) (l : list A)
  : option A :=
  List.find (fun x => String.eqb (nameOf x) name) (List.rev l).

Definition toCommunity (c : CommunityObject) : Community :=
  mkCommunity (coName c) (list_to_set (coMembers c)).

Lemma lastNamed_snoc {A : Type} (nameOf : A -> string) (name : string)
    (l : list A) (x : A) :
  lastNamed nameOf name (l ++ [x]) =
  if String.eqb (nameOf x) name then Some x else lastNamed nameOf name l.
Proof. unfold lastNamed. rewrite rev_unit. reflexivity. Qed.

Section WithPlatform.
Context `{Pf : Platform}.

Definition saveCommunityObjects (cs : list CommunityObject) (st : EndpointStore)
  : EndpointStore :=
  fold_left (fun st c => SaveCommunity (toCommunity c) st) cs st.

Lemma saveCommunities_exact (cs : list CommunityObject) :
  forall r st, recStore r = Some st ->
    saveCommunities cs r = (true, with_store (saveCommunityObjects cs st) r).
Proof.
  induction cs as [| c cs IH]; intros r st Hr; cbn [saveCommunities].
  - destruct r as [s a l]. simpl in Hr. subst. reflexivity.
  - rewrite Hr.
    exact (IH (with_store (SaveCommunity (toCommunity c) st) r)
              (SaveCommunity (toCommunity c) st) eq_refl).
Qed.

Lemma saveCommunityObjects_endpoints (cs : list CommunityObject) (st : EndpointStore) :
  stEndpoints (saveCommunityObjects cs st) = stEndpoints st.
Proof.
  revert st. induction cs as [| c cs IH]; intros st; simpl; [reflexivity |].
  unfold saveCommunityObjects in IH. rewrite IH. reflexivity.
Qed.

Lemma saveCommunityObjects_lookup (cs : list CommunityObject) (st : EndpointStore)
    (name : string) :
  stCommunities (saveCommunityObjects cs st) !! name =
  match lastNamed coName name cs with
  | Some c => Some (toCommunity c)
  | None => stCommunities st !! name
  end.
Proof.
  induction cs as [| c cs IH] using rev_ind; [reflexivity |].
  unfold saveCommunityObjects in *. rewrite fold_left_app, lastNamed_snoc. simpl.
  destruct (String.eqb_spec (coName c) name) as [<- | Hne].
  - apply lookup_insert_eq.
  - rewrite lookup_insert_ne by (simpl; assumption). exact IH.
Qed.

Lemma saveAll_communities (eps : list Endpoint) (st : EndpointStore) :
  stCommunities (saveAll eps st) = stCommunities st.
Proof.
  revert st. induction eps as [| e eps IH]; intros st; simpl; [reflexivity |].
  unfold saveAll in IH. rewrite IH. reflexivity.
Qed.

Lemma saveAll_lookup_last (eps : list Endpoint) (st : EndpointStore) (name : string) :
  stEndpoints (saveAll eps st) !! name =
  match lastNamed epName name eps with
  | Some ep => Some ep
  | None => stEndpoints st !! name
  end.
Proof.
  induction eps as [| e eps IH] using rev_ind; [reflexivity |].
  unfold saveAll in *. rewrite fold_left_app, lastNamed_snoc. simpl.
  destruct (String.eqb_spec (epName e) name) as [<- | Hne].
  - apply lookup_insert_eq.
  - rewrite lookup_insert_ne by assumption. exact IH.
Qed.

(** The error of the two list calls, nodes first. *)
Definition listError (cli : CtrlManager) (p : Process) : option error :=
  match client_ListNodes cli (edgeNodeLabels p) with
  | Fail err => Some err
  | Val _ =>
      match client_ListCommunities cli with
      | Fail err => Some err
      | Val _ => None
      end
  end.

(** X6. With the manager, the store and the endpoint function set (and the
    allocator, under edge IPAM), [recordEndpoints] does not panic; it
    returns an error exactly when listing the nodes or, after that, listing
    the communities fails, that error it is, and then nothing has been
    written: store, allocator and log are as before. *)
Theorem recordEndpoints_returns (opts : Options) (p : Process)
    (cli : CtrlManager) (st0 : EndpointStore) (f : Node -> Endpoint) :
  Manager opts = Some cli ->
  Store opts = Some st0 ->
  NewEndpoint opts = Some f ->
  (EnableEdgeIPAM (Agent opts) = true -> AgentAllocator (Agent opts) <> None) ->
  exists r,
    recordEndpoints opts p = (Returned (listError cli p), r) /\
    (listError cli p <> None ->
     r = mkRecording (Some st0) (AgentAllocator (Agent opts)) (logged p)).
Proof.
  intros Hm Hs Hf Hal. unfold recordEndpoints, listError. rewrite Hm, Hs, Hf.
  destruct (client_ListNodes cli (edgeNodeLabels p)) as [nodes | err];
    [| eexists; split; reflexivity].
  destruct (client_ListCommunities cli) as [cs | err];
    [| eexists; split; reflexivity].
  rewrite (saveCommunities_exact cs
             (mkRecording (Some st0) (AgentAllocator (Agent opts)) (logged p))
             st0 eq_refl).
  destruct (EnableEdgeIPAM (Agent opts)) eqn:Hipam; cbn [negb].
  - destruct (AgentAllocator (Agent opts)) as [a |] eqn:Ha;
      [| exfalso; apply (Hal eq_refl); reflexivity].
    rewrite (recordNodes_run f nodes
               (with_store (saveCommunityObjects cs st0)
                  (mkRecording (Some st0) (Some a) (logged p)))
               (saveCommunityObjects cs st0) a eq_refl eq_refl).
    eexists. split; [reflexivity | intros Hne; contradiction].
  - eexists. split; [reflexivity | intros Hne; contradiction].
Qed.

(** X7. With edge IPAM off (the flannel case), [recordEndpoints] saves the
    communities and nothing else: no endpoint enters the store, the
    allocator and the log are untouched and the endpoint function is not
    called, be it nil. *)
Theorem recordEndpoints_without_ipam (opts : Options) (p : Process)
    (cli : CtrlManager) (st0 : EndpointStore)
    (nodes : list Node) (cs : list CommunityObject) :
  Manager opts = Some cli ->
  Store opts = Some st0 ->
  EnableEdgeIPAM (Agent opts) = false ->
  client_ListNodes cli (edgeNodeLabels p) = Val nodes ->
  client_ListCommunities cli = Val cs ->
  exists st,
    recordEndpoints opts p =
      (Returned None, mkRecording (Some st) (AgentAllocator (Agent opts)) (logged p)) /\
    stEndpoints st = stEndpoints st0 /\
    forall c, In c cs -> is_Some (stCommunities st !! coName c).
Proof.
  intros Hm Hs Hipam Hn Hc. unfold recordEndpoints. rewrite Hm, Hs, Hn, Hc, Hipam.
  rewrite (saveCommunities_exact cs
             (mkRecording (Some st0) (AgentAllocator (Agent opts)) (logged p))
             st0 eq_refl). cbn [negb].
  exists (saveCommunityObjects cs st0). split; [reflexivity |].
  split; [apply saveCommunityObjects_endpoints |].
  intros c Hin. rewrite saveCommunityObjects_lookup.
  destruct (lastNamed coName (coName c) cs) as [c' |] eqn:Hlast; [eauto |].
  exfalso. unfold lastNamed in Hlast.
  apply in_rev in Hin.
  pose proof (find_none _ _ Hlast c Hin) as Hne. simpl in Hne.
  rewrite String.eqb_refl in Hne. discriminate.
Qed.

(** X8. When [recordEndpoints] returns nil, the community found in the
    store under a name is the last listed community of that name, with its
    members as a set; a name no listed community bears keeps what the store
    had. *)
Theorem recordEndpoints_communities (opts : Options) (p : Process)
    (cli : CtrlManager) (st0 : EndpointStore) (cs : list CommunityObject)
    (r : Recording) :
  Manager opts = Some cli ->
  Store opts = Some st0 ->
  client_ListCommunities cli = Val cs ->
  recordEndpoints opts p = (Returned None, r) ->
  exists st,
    recStore r = Some st /\
    forall name,
      stCommunities st !! name =
      match lastNamed coName name cs with
      | Some c => Some (toCommunity c)
      | None => stCommunities st0 !! name
      end.
Proof.
  intros Hm Hs Hc Hrun. unfold recordEndpoints in Hrun. rewrite Hm, Hs, Hc in Hrun.
  destruct (client_ListNodes cli (edgeNodeLabels p)) as [nodes | err]; [| discriminate].
  rewrite (saveCommunities_exact cs
             (mkRecording (Some st0) (AgentAllocator (Agent opts)) (logged p))
             st0 eq_refl) in Hrun.
  destruct (EnableEdgeIPAM (Agent opts)); cbn [negb] in Hrun.
  - destruct (recordNodes (NewEndpoint opts) nodes _) as [[] r2] eqn:Hn; [| discriminate].
    injection Hrun as <-.
    assert (Hkeep : forall (fo : option (Node -> Endpoint)) ns r1 b r', 
               recordNodes fo ns r1 = (b, r') ->
               forall st1, recStore r1 = Some st1 ->
               exists st', recStore r' = Some st' /\ stCommunities st' = stCommunities st1).
    { clear. intros fo ns. induction ns as [| n ns IH]; simpl; intros r1 b r' Hr st1 Hst1.
      - injection Hr as _ <-. eauto.
      - destruct fo as [f |]; [| injection Hr as _ <-; eauto].
        destruct ((length (epPublicAddresses (f n)) =? 0)%nat
                  || (length (epSubnets (f n)) =? 0)%nat
                  || (length (epNodeSubnets (f n)) =? 0)%nat).
        + apply (IH _ _ _ Hr _ Hst1).
        + destruct (recordSubnets n (epSubnets (f n)) r1) as [[] r1'] eqn:Hsub.
          * pose proof (recordSubnets_store _ _ _ _ _ Hsub) as Hsame.
            rewrite Hst1 in Hsame. rewrite Hsame in Hr.
            destruct (IH _ _ _ Hr _ eq_refl) as (st' & Hst' & Hcm).
            exists st'. split; [assumption | exact Hcm].
          * injection Hr as _ <-.
            pose proof (recordSubnets_store _ _ _ _ _ Hsub) as Hsame.
            rewrite Hst1 in Hsame. eauto. }
    destruct (Hkeep _ _ _ _ _ Hn _ eq_refl) as (st' & Hst' & Hcm).
    exists st'. split; [assumption |].
    intros name. rewrite Hcm. apply saveCommunityObjects_lookup.
  - injection Hrun as <-. exists (saveCommunityObjects cs st0).
    split; [reflexivity |]. intros name. apply saveCommunityObjects_lookup.
Qed.

(** X9. Under edge IPAM, with everything in place, the endpoint found in
    the store under a name after [recordEndpoints] is the endpoint of the
    last listed node of that name among those whose publicAddresses,
    subnets and nodeSubnets are all non-empty; a name no such node bears
    keeps what the store had. *)
Theorem recordEndpoints_last_node_wins (opts : Options) (p : Process)
    (cli : CtrlManager) (f : Node -> Endpoint) (st0 : EndpointStore) (a0 : Allocator)
    (nodes : list Node) (cs : list CommunityObject) :
  Manager opts = Some cli ->
  Store opts = Some st0 ->
  NewEndpoint opts = Some f ->
  EnableEdgeIPAM (Agent opts) = true ->
  AgentAllocator (Agent opts) = Some a0 ->
  client_ListNodes cli (edgeNodeLabels p) = Val nodes ->
  client_ListCommunities cli = Val cs ->
  exists r st,
    recordEndpoints opts p = (Returned None, r) /\
    recStore r = Some st /\
    forall name,
      stEndpoints st !! name =
      match lastNamed epName name (kept f nodes) with
      | Some ep => Some ep
      | None => stEndpoints st0 !! name
      end.
Proof.
  intros Hm Hs Hf Hipam Ha Hn Hc. unfold recordEndpoints.
  rewrite Hm, Hs, Ha, Hn, Hc, Hf, Hipam.
  rewrite (saveCommunities_exact cs
             (mkRecording (Some st0) (Some a0) (logged p)) st0 eq_refl). cbn [negb].
  rewrite (recordNodes_run f nodes
             (with_store (saveCommunityObjects cs st0)
                (mkRecording (Some st0) (Some a0) (logged p)))
             (saveCommunityObjects cs st0) a0 eq_refl eq_refl).
  eexists _, _. split; [reflexivity |]. split; [reflexivity |].
  intros name. rewrite saveAll_lookup_last, saveCommunityObjects_endpoints.
  reflexivity.
Qed.

End WithPlatform.

(** ** On the lab cluster *)

Import RecordClaims.

(** Two nodes report the same endpoint name; the second one has other
    subnets. *)
Definition n1again : Endpoint :=
  mkEndpoint "bj.n1" "C=CN, O=fabedge.io, CN=bj.n1" ["10.40.20.191"]
    ["10.20.1.0/26"] ["10.40.20.191/32"] TypeEdgeNode.

Definition twice : Lab.Answers :=
  Lab.mkAnswers (fun _ => StatFile) (Val tt) (Val [n1; n3; n1again])
    (Val [mkCommunityObject "all" ["bj.n1"];
          mkCommunityObject "all" ["bj.connector"; "bj.n1"; "bj.n1"]]).

Definition nodesUnlisted : Lab.Answers :=
  Lab.mkAnswers (fun _ => StatFile) (Val tt) (Fail "nodes is forbidden") (Val []).

(** Options as a successful [Complete] under Flannel leaves them. *)
Definition flannelOptions (a : Lab.Answers) : @Options _ (Lab.platform a) :=
  @set_Manager _ (Lab.platform a) (Some tt)
    (@set_Store _ (Lab.platform a) (Some NewStore)
       (Lab.flagOptions a "bj" "flannel" (Lab.leader 15000000000 10000000000 2000000000)
          "" [])).

Lemma recordEndpoints_returns_witness :
  exists r,
    @recordEndpoints _ (Lab.platform nodesUnlisted)
      (Lab.completedOptions nodesUnlisted) Lab.startProcess
    = (Returned (Some "nodes is forbidden"), r) /\
    (Some "nodes is forbidden" <> None ->
     r = @mkRecording _ (Lab.platform nodesUnlisted) (Some NewStore) (Some []) []).
Proof.
  refine (@recordEndpoints_returns _ (Lab.platform nodesUnlisted)
            (Lab.completedOptions nodesUnlisted) Lab.startProcess
            tt NewStore (fun node => node) eq_refl eq_refl eq_refl _).
  intros _. discriminate.
Defined.

Lemma recordEndpoints_without_ipam_witness :
  exists st,
    @recordEndpoints _ (Lab.platform threeNodes) (flannelOptions threeNodes)
      Lab.startProcess
    = (Returned None, @mkRecording _ (Lab.platform threeNodes) (Some st) None []) /\
    stEndpoints st = ∅ /\
    forall c, In c [mkCommunityObject "all" ["bj.connector"; "bj.n1"; "bj.n2"]] ->
              is_Some (stCommunities st !! coName c).
Proof.
  exact (@recordEndpoints_without_ipam _ (Lab.platform threeNodes)
           (flannelOptions threeNodes) Lab.startProcess tt NewStore
           [n1; n2; n3] [mkCommunityObject "all" ["bj.connector"; "bj.n1"; "bj.n2"]]
           eq_refl eq_refl eq_refl eq_refl eq_refl).
Defined.

Lemma recordEndpoints_communities_witness :
  exists st,
    recStore (snd (@recordEndpoints _ (Lab.platform twice) (Lab.completedOptions twice)
                     Lab.startProcess)) = Some st /\
    forall name,
      stCommunities st !! name =
      match lastNamed coName name
              [mkCommunityObject "all" ["bj.n1"];
               mkCommunityObject "all" ["bj.connector"; "bj.n1"; "bj.n1"]] with
      | Some c => Some (toCommunity c)
      | None => stCommunities NewStore !! name
      end.
Proof.
  exact (@recordEndpoints_communities _ (Lab.platform twice) (Lab.completedOptions twice)
           Lab.startProcess tt NewStore
           [mkCommunityObject "all" ["bj.n1"];
            mkCommunityObject "all" ["bj.connector"; "bj.n1"; "bj.n1"]]
           (snd (@recordEndpoints _ (Lab.platform twice) (Lab.completedOptions twice)
                   Lab.startProcess))
           eq_refl eq_refl eq_refl eq_refl).
Defined.

Lemma recordEndpoints_last_node_wins_witness :
  exists r st,
    @recordEndpoints _ (Lab.platform twice) (Lab.completedOptions twice) Lab.startProcess
    = (Returned None, r) /\
    recStore r = Some st /\
    forall name,
      stEndpoints st !! name =
      match lastNamed epName name [n1; n1again] with
      | Some ep => Some ep
      | None => stEndpoints NewStore !! name
      end.
Proof.
  exact (@recordEndpoints_last_node_wins _ (Lab.platform twice) (Lab.completedOptions twice)
           Lab.startProcess tt (fun node => node) NewStore [] [n1; n3; n1again]
           [mkCommunityObject "all" ["bj.n1"];
            mkCommunityObject "all" ["bj.connector"; "bj.n1"; "bj.n1"]]
           eq_refl eq_refl eq_refl eq_refl eq_refl eq_refl eq_refl).
Defined.

End RecordMore.

(* ===================================================================== *)
(** * More on Options.Complete                                             *)
(* ===================================================================== *)

Module CompleteMore.
Import Go GoNet Operator RecordFacts.

Section WithPlatform.
Context `{Pf : Platform}.

(** The fields [Validate] reads, the edge IPAM switch apart. *)
Definition validate_inputs (opts : Options) :=
  (Cluster opts, ClusterRole opts, InitToken opts,
   APIServerKeyFile opts, APIServerCertFile opts,
   EdgeLabels opts, ConnectorLabels (Connector opts),
   cePublicAddresses (ConnEndpoint (Connector opts)),
   ProvidedSubnets (Connector opts), EdgePodCIDR opts,
   ImagePullPolicy (Agent opts),
   LeaseDuration (ManagerOpts opts), RenewDeadline (ManagerOpts opts),
   RetryPeriod (ManagerOpts opts)).

Lemma Validate_ext (o1 o2 : Options) :
  validate_inputs o1 = validate_inputs o2 ->
  EnableEdgeIPAM (Agent o1) = EnableEdgeIPAM (Agent o2) ->
  Validate o1 = Validate o2.
Proof.
  unfold validate_inputs.
  intros [= H1 H2 H3 H4 H5 H6 H7 H8 H9 H10 H11 H12 H13 H14] H15.
  unfold Validate. cbv zeta.
  rewrite H1, H2, H3, H4, H5, H6, H7, H8, H9, H10, H11, H12, H13, H14, H15.
  reflexivity.
Qed.

(** Case analysis on every answer [Complete] waits for. *)
Ltac answers :=
  repeat match goal with
         | |- context [match ?x with _ => _ end] =>
             lazymatch x with
             | context [match _ with _ => _ end] => fail
             | _ => destruct x eqn:?
             end
         | |- context [if ?c then _ else _] =>
             lazymatch c with
             | context [if _ then _ else _] => fail
             | _ => destruct c eqn:?
             end
         end.

(** What [Complete] leaves alone and what it always does. *)
Lemma Complete_frame (opts : Options) (p : Process) :
  validate_inputs (fst (fst (Complete opts p))) = validate_inputs opts /\
  EnableEdgeIPAM (Agent (fst (fst (Complete opts p)))) =
    EnableEdgeIPAM (Agent opts) || String.eqb (TrimSpace (CNIType opts)) CNICalico /\
  CNIType (fst (fst (Complete opts p))) = TrimSpace (CNIType opts) /\
  edgeNodeLabels (snd (fst (Complete opts p))) = EdgeLabels opts.
Proof.
  unfold Complete, completeCNI, completeCertManager, completeAPIServer.
  cbn [CNIType set_CNIType EdgeLabels].
  destruct (String.eqb (TrimSpace (CNIType opts)) CNICalico) eqn:Hcal;
    [| destruct (String.eqb (TrimSpace (CNIType opts)) CNIFlannel) eqn:Hfl];
    rewrite ?orb_true_r, ?orb_false_r;
    answers; cbn; auto.
Qed.

(** X10. [Complete] changes none of the fields [Validate] reads, except
    that under Calico it switches edge IPAM on: with another CNI type
    [Validate] answers after [Complete] what it answers before, however
    [Complete] ends; under Calico it answers what it would with edge IPAM
    on, so the EdgePodCIDR checks come into force. *)
Theorem Validate_after_Complete (opts : Options) (p : Process) :
  (TrimSpace (CNIType opts) <> CNICalico ->
   Validate (fst (fst (Complete opts p))) = Validate opts) /\
  (TrimSpace (CNIType opts) = CNICalico ->
   Validate (fst (fst (Complete opts p))) =
   Validate (set_Agent (set_EnableEdgeIPAM true (Agent opts)) opts)).
Proof.
  destruct (Complete_frame opts p) as (Hin & Hipam & _ & _).
  split; intros Hcni; apply Validate_ext.
  - exact Hin.
  - rewrite Hipam. apply String.eqb_neq in Hcni. rewrite Hcni. apply orb_false_r.
  - rewrite Hin. reflexivity.
  - rewrite Hipam. apply String.eqb_eq in Hcni. rewrite Hcni. apply orb_true_r.
Qed.

(** X11. However [Complete] ends, it has trimmed the CNI type and published
    the edge labels of the options as the labels that select edge nodes;
    with a CNI type that is neither calico nor flannel it returns "unknown
    CNI" before anything else is done: nothing is logged and no other field
    changes. *)
Theorem Complete_cni_switch (opts : Options) (p : Process) :
  CNIType (fst (fst (Complete opts p))) = TrimSpace (CNIType opts) /\
  edgeNodeLabels (snd (fst (Complete opts p))) = EdgeLabels opts /\
  (TrimSpace (CNIType opts) <> CNICalico ->
   TrimSpace (CNIType opts) <> CNIFlannel ->
   Complete opts p =
     (set_CNIType (TrimSpace (CNIType opts)) opts,
      mkProcess (EdgeLabels opts) (logged p),
      Some ("unknown CNI: " ++ TrimSpace (CNIType opts))%string)).
Proof.
  destruct (Complete_frame opts p) as (_ & _ & Hcni & Hlab).
  split; [exact Hcni |]. split; [exact Hlab |].
  intros Hc Hf. apply String.eqb_neq in Hc, Hf.
  unfold Complete, completeCNI. cbn [CNIType set_CNIType EdgeLabels].
  rewrite Hc, Hf. reflexivity.
Qed.

(** The state in which [Complete] leaves the options when all went well. *)
Definition completed (before after : Options) : Prop :=
  is_Some (Manager after) /\
  Store after = Some NewStore /\
  is_Some (NewEndpoint after) /\
  is_Some (GetPodCIDRsFn (Connector after)) /\
  MetricsBindAddress (ManagerOpts after) = "0" /\
  LeaderElectionNamespace (ManagerOpts after) = Namespace before /\
  (TrimSpace (CNIType before) = CNICalico ->
   EnableEdgeIPAM (Agent after) = true /\
   is_Some (AgentAllocator (Agent after)) /\
   is_Some (PodCIDRStore after)) /\
  (TrimSpace (CNIType before) <> CNICalico -> Agent after = Agent before) /\
  (ClusterRole before = RoleHost ->
   (exists srv cm kp, APIServer after = Some (srv, Some (cm, kp))) /\
   is_Some (PrivateKey after)) /\
  (ClusterRole before <> RoleHost ->
   is_Some (APIClient after) /\ APIServer after = APIServer before).

Lemma Complete_nil_inv (opts opts' : Options) (p p' : Process) :
  Complete opts p = (opts', p', None) ->
  (exists err, config_GetConfig = Fail err /\
               (Manager opts', Store opts', APIServer opts', APIClient opts')
               = (Manager opts, Store opts, APIServer opts, APIClient opts)) \/
  ((exists cfg, config_GetConfig = Val cfg) /\ completed opts opts').
Proof.
  unfold Complete, completeCNI, completeCertManager, completeAPIServer, completed.
  cbn [CNIType set_CNIType EdgeLabels].
  destruct (String.eqb_spec (TrimSpace (CNIType opts)) CNICalico) as [Hcal | Hcal];
    [| destruct (String.eqb_spec (TrimSpace (CNIType opts)) CNIFlannel) as [Hfl | Hfl]];
    answers; cbn; intros Heq; try discriminate;
    injection Heq as <- <-; cbn in *;
    try congruence;
    try (left; eexists; split; reflexivity);
    right; (split; [eexists; reflexivity |]);
    repeat match goal with
           | |- _ /\ _ => split
           | |- _ -> _ => intros ?
           end;
    try contradiction;
    try match goal with
        | Hh : (ClusterRole opts =? RoleHost)%string = true |- _ =>
            apply String.eqb_eq in Hh; contradiction
        | Hh : (ClusterRole opts =? RoleHost)%string = false |- _ =>
            apply String.eqb_neq in Hh; contradiction
        end;
    try reflexivity;
    try (eexists; reflexivity);
    try (eexists _, _, _; reflexivity).
Qed.

(** X12. [Complete] returns nil in two cases only. Either
    [config.GetConfig] failed, and Manager, Store, APIServer and APIClient
    are as they were. Or every step succeeded, and then: the manager, a
    fresh empty store, the endpoint function and the connector's pod CIDR
    getter are set; the metrics address is "0" and the leader election
    namespace is the namespace of the options; under Calico edge IPAM is on
    with an allocator and a pod CIDR store; in role host the API server has
    its TLS configuration and the private key is set, in any other role the
    API client is set. *)
Theorem Complete_nil (opts opts' : Options) (p p' : Process) :
  Complete opts p = (opts', p', None) ->
  (exists err, config_GetConfig = Fail err /\
               (Manager opts', Store opts', APIServer opts', APIClient opts')
               = (Manager opts, Store opts, APIServer opts, APIClient opts)) \/
  ((exists cfg, config_GetConfig = Val cfg) /\ completed opts opts').
Proof.
  intros Hnil.
  destruct (Complete_nil_inv opts opts' p p' Hnil) as [Hfailed | Hdone].
  - left. exact Hfailed.
  - right. exact Hdone.
Qed.

Lemma kept_complete (f : Node -> Endpoint) (nodes : list Node) (name : string)
    (ep : Endpoint) :
  RecordMore.lastNamed epName name (kept f nodes) = Some ep -> complete ep.
Proof.
  unfold RecordMore.lastNamed. intros Hfind. apply find_some in Hfind as [Hin _].
  apply in_rev in Hin. apply filter_In in Hin as [_ Hc].
  apply is_complete_spec. exact Hc.
Qed.

(** [recordEndpoints] on a fresh store. *)
Lemma recordEndpoints_fresh (opts : Options) (p : Process)
    (cli : CtrlManager) (f : Node -> Endpoint) :
  Manager opts = Some cli ->
  Store opts = Some NewStore ->
  NewEndpoint opts = Some f ->
  (EnableEdgeIPAM (Agent opts) = true -> is_Some (AgentAllocator (Agent opts))) ->
  exists r,
    recordEndpoints opts p = (Returned (RecordMore.listError cli p), r) /\
    forall st, recStore r = Some st -> store_invariant st.
Proof.
  intros Hm Hs Hf Hal. unfold recordEndpoints, RecordMore.listError.
  rewrite Hm, Hs, Hf.
  assert (Hnew : store_invariant NewStore).
  { intros name ep Hl. simpl in Hl. rewrite lookup_empty in Hl. discriminate. }
  destruct (client_ListNodes cli (edgeNodeLabels p)) as [nodes | err];
    [| eexists; split; [reflexivity | intros st [= <-]; exact Hnew]].
  destruct (client_ListCommunities cli) as [cs | err];
    [| eexists; split; [reflexivity | intros st [= <-]; exact Hnew]].
  rewrite (RecordMore.saveCommunities_exact cs
             (mkRecording (Some NewStore) (AgentAllocator (Agent opts)) (logged p))
             NewStore eq_refl).
  destruct (EnableEdgeIPAM (Agent opts)) eqn:Hipam; cbn [negb].
  - destruct (Hal eq_refl) as (a & Ha). rewrite Ha.
    rewrite (recordNodes_run f nodes
               (with_store (RecordMore.saveCommunityObjects cs NewStore)
                  (mkRecording (Some NewStore) (Some a) (logged p)))
               (RecordMore.saveCommunityObjects cs NewStore) a eq_refl eq_refl).
    eexists. split; [reflexivity |]. intros st [= <-] name ep Hl.
    rewrite RecordMore.saveAll_lookup_last in Hl.
    destruct (RecordMore.lastNamed epName name (kept f nodes)) as [ep' |] eqn:Hlast.
    + injection Hl as <-. apply (kept_complete f nodes name). exact Hlast.
    + rewrite RecordMore.saveCommunityObjects_endpoints in Hl.
      simpl in Hl. rewrite lookup_empty in Hl. discriminate.
  - eexists. split; [reflexivity |]. intros st [= <-] name ep Hl.
    rewrite RecordMore.saveCommunityObjects_endpoints in Hl.
    simpl in Hl. rewrite lookup_empty in Hl. discriminate.
Qed.

(** X13. After a [Complete] that loaded the kubeconfig and returned nil,
    [recordEndpoints] does not panic (the options had edge IPAM off, as the
    flags leave it, or the CNI type is calico): it lists the nodes selected
    by the edge labels of the options, returns nil unless a list call
    fails, and every endpoint of the store satisfies the invariant
    afterwards. *)
Theorem recordEndpoints_after_Complete (opts opts' : Options) (p p' : Process)
    (cfg : RestConfig) :
  Complete opts p = (opts', p', None) ->
  config_GetConfig = Val cfg ->
  EnableEdgeIPAM (Agent opts) = false \/ TrimSpace (CNIType opts) = CNICalico ->
  exists cli r,
    Manager opts' = Some cli /\
    edgeNodeLabels p' = EdgeLabels opts /\
    recordEndpoints opts' p' = (Returned (RecordMore.listError cli p'), r) /\
    forall st, recStore r = Some st -> store_invariant st.
Proof.
  intros Hc Hcfg Hipam.
  pose proof (Complete_frame opts p) as (_ & _ & _ & Hlab). rewrite Hc in Hlab.
  cbn [fst snd] in Hlab.
  destruct (Complete_nil_inv _ _ _ _ Hc) as [(err & Hfail & _) | (_ & Hdone)];
    [congruence |].
  destruct Hdone as ((cli & Hm) & Hs & (f & Hf) & _ & _ & _ & Hcal & Hother & _).
  exists cli.
  destruct (recordEndpoints_fresh opts' p' cli f Hm Hs Hf) as (r & Hrun & Hinv).
  - intros Hon. destruct (String.eqb_spec (TrimSpace (CNIType opts)) CNICalico) as [Hy | Hn].
    + apply (Hcal Hy).
    + rewrite (Hother Hn) in Hon. destruct Hipam as [Hoff | Hy]; congruence.
  - exists r. auto.
Qed.

End WithPlatform.

(** ** On the lab cluster *)

Definition calicoTrimmed : @Options _ (Lab.platform RecordClaims.threeNodes) :=
  Lab.flagOptions RecordClaims.threeNodes "bj" "calico"
    (Lab.leader 15000000000 10000000000 2000000000) "10.20.0.0/16" [].

Lemma returned_nil {A B C : Type} (x : A * B * option C) :
  snd x = None -> x = (fst (fst x), snd (fst x), None).
Proof. destruct x as [[a b] c]. simpl. intros ->. reflexivity. Qed.

Lemma calico_completes : snd (Complete calicoTrimmed Lab.startProcess) = None.
Proof. vm_compute. reflexivity. Qed.

Lemma Complete_nil_witness :
  (exists err, @config_GetConfig _ (Lab.platform RecordClaims.threeNodes) = Fail err /\
     (Manager (fst (fst (Complete calicoTrimmed Lab.startProcess))),
      Store (fst (fst (Complete calicoTrimmed Lab.startProcess))),
      APIServer (fst (fst (Complete calicoTrimmed Lab.startProcess))),
      APIClient (fst (fst (Complete calicoTrimmed Lab.startProcess))))
     = (Manager calicoTrimmed, Store calicoTrimmed, APIServer calicoTrimmed,
        APIClient calicoTrimmed)) \/
  ((exists cfg, @config_GetConfig _ (Lab.platform RecordClaims.threeNodes) = Val cfg) /\
   completed calicoTrimmed (fst (fst (Complete calicoTrimmed Lab.startProcess)))).
Proof.
  exact (@Complete_nil _ (Lab.platform RecordClaims.threeNodes) calicoTrimmed
           (fst (fst (Complete calicoTrimmed Lab.startProcess)))
           Lab.startProcess
           (snd (fst (Complete calicoTrimmed Lab.startProcess)))
           (returned_nil _ calico_completes)).
Defined.

Lemma recordEndpoints_after_Complete_witness :
  exists cli r,
    Manager (fst (fst (Complete calicoTrimmed Lab.startProcess))) = Some cli /\
    edgeNodeLabels (snd (fst (Complete calicoTrimmed Lab.startProcess)))
      = EdgeLabels calicoTrimmed /\
    recordEndpoints (fst (fst (Complete calicoTrimmed Lab.startProcess)))
      (snd (fst (Complete calicoTrimmed Lab.startProcess)))
    = (Returned (RecordMore.listError cli
                   (snd (fst (Complete calicoTrimmed Lab.startProcess)))), r) /\
    forall st, recStore r = Some st -> store_invariant st.
Proof.
  exact (@recordEndpoints_after_Complete _ (Lab.platform RecordClaims.threeNodes)
           calicoTrimmed (fst (fst (Complete calicoTrimmed Lab.startProcess)))
           Lab.startProcess (snd (fst (Complete calicoTrimmed Lab.startProcess)))
           tt (returned_nil _ calico_completes) eq_refl (or_introl eq_refl)).
Defined.

End CompleteMore.

(* ===================================================================== *)
(** * More on the connector manager: a round of the periodic tasks         *)
(* ===================================================================== *)

Module ConnectorMore.
Import Go ConnectorManager ConnectorClaims.

Section WithConnConfig.
Context {ConnConfig : Type}.
Context (ipsetName : IPSetName -> string).

Local Abbreviation Manager := (Manager ConnConfig).
Local Abbreviation World := (World ConnConfig).
Local Abbreviation Action := (Action ConnConfig).

(** The calls of [broadcastToAgents]: what a failed marshalling leaves in
    [b] is the nil slice. *)
Definition broadcastCalls (w : World) : list Action :=
  Call_router_GetConnectorPrefixes ::
  match router_GetConnectorPrefixes w with
  | Fail _ => []
  | Val cp =>
      if (length (RemotePrefixes cp) <? 1)%nat || (length (LocalPrefixes cp) <? 1)%nat
      then []
      else [Call_json_Marshal cp;
            Call_mc_Broadcast match json_Marshal w cp with
                              | Val b => b
                              | Fail _ => ""
                              end]
  end.

Definition tunnelCalls (w : World) (conns : list ConnConfig) : list Action :=
  Call_syncConnections ::
  match snd (syncConnections w conns) with
  | Some _ => []
  | None => broadcastCalls w
  end.

Definition routeCalls (w : World) (conns : list ConnConfig) : list Action :=
  Call_tm_IsActive ::
  match tm_IsActive w with
  | Val true => [Call_router_SyncRoutes conns]
  | Val false => [Call_router_CleanRoutes conns]
  | Fail _ => []
  end.

Definition ipsetCalls : list Action :=
  [Call_syncIPSet IPSetEdgeNodeCIDR; Call_syncIPSet IPSetCloudPodCIDR;
   Call_syncIPSet IPSetCloudNodeCIDR; Call_syncIPSet IPSetEdgePodCIDR].

Definition iptablesCalls : list Action :=
  [Call_ensureForwardIPTablesRules; Call_ensureNatIPTablesRules;
   Call_ensureInputIPTablesRules].

(** The connections after successive rounds: what [syncConnections] made of
    them, round after round. *)
Definition syncedConnections (ws : list World) (conns : list ConnConfig)
  : list ConnConfig :=
  fold_left (fun conns w => fst (syncConnections w conns)) ws conns.

(** Unfold the log helpers and read the calls off the actions. *)
Ltac trace :=
  unfold calls, klog_Errorf, klog_Info, emit; cbn [actions connections];
  rewrite ?List.filter_app; cbn [List.filter is_call app];
  rewrite <- ?app_assoc, ?app_nil_r; cbn [app]; try reflexivity.

Lemma broadcastToAgents_run (w : World) (m : Manager) :
  connections (broadcastToAgents w m) = connections m /\
  calls (broadcastToAgents w m) = (calls m ++ broadcastCalls w)%list.
Proof.
  unfold broadcastToAgents, broadcastCalls.
  destruct (router_GetConnectorPrefixes w) as [cp | e].
  - destruct ((length (RemotePrefixes cp) <? 1)%nat
              || (length (LocalPrefixes cp) <? 1)%nat).
    + split; [reflexivity | trace].
    + destruct (json_Marshal w cp) as [b | e]; (split; [reflexivity | trace]).
  - split; [reflexivity | trace].
Qed.

Lemma tunnelTaskFn_run (w : World) (m : Manager) :
  connections (tunnelTaskFn w m) = fst (syncConnections w (connections m)) /\
  calls (tunnelTaskFn w m) = (calls m ++ tunnelCalls w (connections m))%list.
Proof.
  unfold tunnelTaskFn, tunnelCalls.
  change (connections (emit Call_syncConnections m)) with (connections m).
  destruct (syncConnections w (connections m)) as [conns [e |]]; cbn [fst snd].
  - split; [reflexivity | trace].
  - destruct (broadcastToAgents_run w
                (mkManager conns (actions (emit Call_syncConnections m))))
      as [Hc Hl].
    split; [exact Hc |].
    transitivity (calls (broadcastToAgents w
                    (mkManager conns (actions (emit Call_syncConnections m)))));
      [trace |].
    rewrite Hl. trace.
Qed.

Lemma routeTaskFn_run (w : World) (m : Manager) :
  connections (routeTaskFn w m) = connections m /\
  calls (routeTaskFn w m) = (calls m ++ routeCalls w (connections m))%list.
Proof.
  unfold routeTaskFn, routeCalls.
  destruct (tm_IsActive w) as [[] | err].
  - change (connections (emit Call_tm_IsActive m)) with (connections m).
    destruct (router_SyncRoutes w (connections m)); (split; [reflexivity | trace]).
  - change (connections (emit Call_tm_IsActive m)) with (connections m).
    destruct (router_CleanRoutes w (connections m)); (split; [reflexivity | trace]).
  - split; [reflexivity | trace].
Qed.

Lemma syncSet_run (w : World) (set : IPSetName) (m : Manager) :
  connections (syncSet ipsetName w set m) = connections m /\
  calls (syncSet ipsetName w set m) = (calls m ++ [Call_syncIPSet set])%list.
Proof.
  unfold syncSet. destruct (syncIPSet w set); (split; [reflexivity | trace]).
Qed.

Lemma ipsetTaskFn_run (w : World) (m : Manager) :
  connections (ipsetTaskFn ipsetName w m) = connections m /\
  calls (ipsetTaskFn ipsetName w m) = (calls m ++ ipsetCalls)%list.
Proof.
  unfold ipsetTaskFn, ipsetCalls.
  repeat match goal with
         | |- context [syncSet ipsetName w ?s ?m0] =>
             lazymatch m0 with
             | context [syncSet] => fail
             | _ => idtac
             end;
             let Hc := fresh "Hc" in
             let Hl := fresh "Hl" in
             destruct (syncSet_run w s m0) as [Hc Hl];
             generalize dependent (syncSet ipsetName w s m0); intros
         end.
  split; [congruence |].
  repeat match goal with H : calls _ = _ |- _ => rewrite H; clear H end.
  rewrite <- !app_assoc. reflexivity.
Qed.

Lemma iptablesTaskFn_run (w : World) (m : Manager) :
  connections (iptablesTaskFn w m) = connections m /\
  calls (iptablesTaskFn w m) = (calls m ++ iptablesCalls)%list.
Proof.
  unfold iptablesTaskFn, iptablesCalls.
  destruct (ensureForwardIPTablesRules w), (ensureNatIPTablesRules w),
    (ensureInputIPTablesRules w); (split; [reflexivity | trace]).
Qed.

(** The calls of one round, given the connections it starts with. *)
Definition roundCalls (w : World) (conns : list ConnConfig) : list Action :=
  (tunnelCalls w conns
   ++ routeCalls w (fst (syncConnections w conns))
   ++ ipsetCalls ++ iptablesCalls)%list.

Lemma runRound_run (w : World) (m : Manager) :
  connections (runRound (tasks ipsetName) w m)
    = fst (syncConnections w (connections m)) /\
  calls (runRound (tasks ipsetName) w m)
    = (calls m ++ roundCalls w (connections m))%list.
Proof.
  unfold runRound, tasks, roundCalls. cbn [fold_left].
  destruct (tunnelTaskFn_run w m) as [Hc1 Hl1].
  destruct (routeTaskFn_run w (tunnelTaskFn w m)) as [Hc2 Hl2].
  destruct (ipsetTaskFn_run w (routeTaskFn w (tunnelTaskFn w m))) as [Hc3 Hl3].
  destruct (iptablesTaskFn_run w
              (ipsetTaskFn ipsetName w (routeTaskFn w (tunnelTaskFn w m))))
    as [Hc4 Hl4].
  split.
  - rewrite Hc4, Hc3, Hc2, Hc1. reflexivity.
  - rewrite Hl4, Hl3, Hl2, Hl1, Hc1. rewrite <- !app_assoc. reflexivity.
Qed.

Lemma runTasks_snoc (hs : list (World -> Manager -> Manager))
    (ws : list World) (w : World) (m : Manager) :
  runTasks hs (ws ++ [w]) m = runRound hs w (runTasks hs ws m).
Proof. unfold runTasks. rewrite fold_left_app. reflexivity. Qed.

Lemma runTasks_cons (hs : list (World -> Manager -> Manager))
    (ws : list World) (w : World) (m : Manager) :
  runTasks hs (w :: ws) m = runTasks hs ws (runRound hs w m).
Proof. reflexivity. Qed.

Lemma broadcasts_calls (m : Manager) :
  broadcasts m
  = List.flat_map (fun a => match a with Call_mc_Broadcast b => [b] | _ => [] end)
      (calls m).
Proof.
  unfold broadcasts, calls. induction (actions m) as [| a l IH]; [reflexivity |].
  destruct a; cbn [List.filter is_call flat_map app]; rewrite IH; reflexivity.
Qed.

Lemma broadcasts_roundCalls (w : World) (conns : list ConnConfig) :
  (length (List.flat_map
             (fun a : Action => match a with Call_mc_Broadcast b => [b] | _ => [] end)
             (roundCalls w conns)) <= 1)%nat.
Proof.
  unfold roundCalls, tunnelCalls, broadcastCalls, routeCalls, ipsetCalls,
    iptablesCalls.
  destruct (snd (syncConnections w conns));
    destruct (tm_IsActive w) as [[] | e1];
    try destruct (router_GetConnectorPrefixes w) as [cp | e2];
    try destruct ((length (RemotePrefixes cp) <? 1)%nat
                  || (length (LocalPrefixes cp) <? 1)%nat);
    cbn; lia.
Qed.

(** X14. One pass of [runTasks] over the four tasks of [Start], with no
    other goroutine interfering: the tunnel task runs first and the route
    task then works on the connections [syncConnections] has just left,
    also when it returned an error; the four ipsets and the three iptables
    rule sets are then all attempted, in this order, whatever fails before
    them or among them. *)
Theorem runRound_calls (w : World) (m : Manager) :
  connections (runRound (tasks ipsetName) w m)
    = fst (syncConnections w (connections m)) /\
  calls (runRound (tasks ipsetName) w m)
    = (calls m
       ++ tunnelCalls w (connections m)
       ++ routeCalls w (fst (syncConnections w (connections m)))
       ++ ipsetCalls ++ iptablesCalls)%list.
Proof.
  destruct (runRound_run w m) as [Hconns Hcalls].
  split; [exact Hconns |].
  rewrite Hcalls. unfold roundCalls. reflexivity.
Qed.

(** X16. [runTasks] broadcasts to the agents at most once per round. *)
Theorem runTasks_broadcasts (ws : list World) (m : Manager) :
  (length (broadcasts (runTasks (tasks ipsetName) ws m))
   <= length (broadcasts m) + length ws)%nat.
Proof.
  revert m. induction ws as [| w ws IH]; intros m; [simpl; lia |].
  rewrite runTasks_cons. specialize (IH (runRound (tasks ipsetName) w m)).
  rewrite (broadcasts_calls (runRound (tasks ipsetName) w m)) in IH.
  destruct (runRound_run w m) as [_ Hl]. rewrite Hl in IH.
  rewrite flat_map_app, length_app, <- broadcasts_calls in IH.
  pose proof (broadcasts_roundCalls w (connections m)).
  cbn [length]. lia.
Qed.

(** X17. The connections of the manager change in [syncConnections] only:
    after any number of rounds they are what the successive
    [syncConnections] made of them, errors or not, and these are the
    connections whose routes [gracefulShutdown] cleans when it runs between
    two rounds. *)
Theorem runTasks_connections (ws : list World) (w : World) (m : Manager) :
  connections (runTasks (tasks ipsetName) ws m)
    = syncedConnections ws (connections m) /\
  calls (gracefulShutdown w (runTasks (tasks ipsetName) ws m))
    = (calls (runTasks (tasks ipsetName) ws m)
       ++ [Call_router_CleanRoutes (syncedConnections ws (connections m));
           Call_CleanSNatIPTablesRules])%list.
Proof.
  assert (Hc : forall m0 : Manager,
             connections (runTasks (tasks ipsetName) ws m0)
             = syncedConnections ws (connections m0)).
  { induction ws as [| w0 ws IH]; intros m0; [reflexivity |].
    rewrite runTasks_cons, IH.
    destruct (runRound_run w0 m0) as [-> _]. reflexivity. }
  split; [apply Hc |].
  rewrite <- Hc. unfold gracefulShutdown.
  destruct (router_CleanRoutes w _); destruct (CleanSNatIPTablesRules w); trace.
Qed.

End WithConnConfig.

End ConnectorMore.

(* ===================================================================== *)
(** * Properties of the defaults of the command line                       *)
(* ===================================================================== *)

Module FlagsFacts.
Import Go GoNet Operator ValidateFacts Flags.

Section WithPlatform.
Context `{Pf : Platform}.

(** [Validate] on options that differ from the defaults in the cluster
    name, the role, the init token, the two API server files and the public
    addresses of the connector. *)
Lemma Validate_defaults (org cluster role token cert key : string)
    (addrs : list string) :
  Validate
    (flag_init_token token
       (flag_cluster_role role
          (flag_api_server_key_file key
             (flag_api_server_cert_file cert
                (flag_connector_public_addresses addrs
                   (flag_cluster cluster (AddFlags org)))))))
  = if (String.length cluster =? 0)%nat then ReturnErr ErrClusterRequired else
    if negb (DNS1123.IsDottedName cluster)
    then ReturnErr (ErrInvalidClusterName cluster) else
    if negb (String.eqb role RoleHost) && negb (String.eqb role RoleMember)
    then ReturnErr (ErrUnknownClusterRole role) else
    if String.eqb role RoleMember && (String.length token =? 0)%nat
    then ReturnErr ErrInitTokenNeeded else
    let rest :=
      if (length addrs =? 0)%nat then ReturnErr ErrPublicAddressesNeeded
      else ReturnNil in
    if String.eqb role RoleHost then
      match fileExists key with
      | None => Panic
      | Some false => ReturnErr ErrKeyFileMissing
      | Some true =>
          match fileExists cert with
          | None => Panic
          | Some false => ReturnErr ErrCertFileMissing
          | Some true => rest
          end
      end
    else rest.
Proof.
  unfold Validate. cbv zeta.
  cbn [flag_init_token flag_cluster_role flag_api_server_key_file
       flag_api_server_cert_file flag_connector_public_addresses flag_cluster
       set_Connector AddFlags
       Cluster ClusterRole InitToken APIServerKeyFile APIServerCertFile
       EdgeLabels Connector ConnectorLabels ConnEndpoint cePublicAddresses
       ProvidedSubnets Agent EnableEdgeIPAM ImagePullPolicy ManagerOpts
       LeaseDuration RenewDeadline RetryPeriod validateSubnets].
  rewrite DNS1123Facts.MatchString_dns1123Reg, jittered_default.
  reflexivity.
Qed.

(** X18. The defaults of [AddFlags] are such that [Validate] asks for
    little more than a cluster name and the public addresses of the
    connector. With every other flag at its default (role host), [Validate]
    returns nil exactly when the cluster name is a dotted name, the API
    server key and certificate files exist as files and the connector has a
    public address; with [--cluster-role member] besides, exactly when the
    name is a dotted name, the init token is not empty and the connector has
    a public address. The default labels, pull policy and leader election
    durations pass their checks. *)
Theorem Validate_AddFlags (org cluster token cert key : string) (addrs : list string) :
  (Validate
     (flag_api_server_key_file key
        (flag_api_server_cert_file cert
           (flag_connector_public_addresses addrs
              (flag_cluster cluster (AddFlags org)))))
   = ReturnNil <->
   DNS1123.IsDottedName cluster = true /\
   osStat key = StatFile /\ osStat cert = StatFile /\ addrs <> []) /\
  (Validate
     (flag_init_token token
        (flag_cluster_role RoleMember
           (flag_connector_public_addresses addrs
              (flag_cluster cluster (AddFlags org)))))
   = ReturnNil <->
   DNS1123.IsDottedName cluster = true /\ token <> "" /\ addrs <> []).
Proof.
  split.
  - change (flag_api_server_key_file key
              (flag_api_server_cert_file cert
                 (flag_connector_public_addresses addrs
                    (flag_cluster cluster (AddFlags org)))))
      with (flag_init_token ""
              (flag_cluster_role RoleHost
                 (flag_api_server_key_file key
                    (flag_api_server_cert_file cert
                       (flag_connector_public_addresses addrs
                          (flag_cluster cluster (AddFlags org))))))).
    rewrite Validate_defaults. cbv zeta.
    change (negb (RoleHost =? RoleHost)%string && negb (RoleHost =? RoleMember)%string)
      with false.
    change ((RoleHost =? RoleMember)%string && (String.length "" =? 0)%nat) with false.
    change (RoleHost =? RoleHost)%string with true. cbv iota.
    unfold fileExists.
    destruct cluster as [| a0 cluster0]; [split; [discriminate | intros [Hx _]; discriminate Hx] |].
    cbn [String.length Nat.eqb].
    destruct (DNS1123.IsDottedName (String a0 cluster0)); cbn [negb];
      [| split; [discriminate | intros [Hx _]; discriminate Hx]].
    destruct (osStat key); destruct (osStat cert); destruct addrs;
      cbn [length Nat.eqb]; split; try discriminate; try tauto;
      try (intros (_ & Hk & Hc & Ha); congruence);
      intros _; repeat split; discriminate.
  - change (flag_init_token token
              (flag_cluster_role RoleMember
                 (flag_connector_public_addresses addrs
                    (flag_cluster cluster (AddFlags org)))))
      with (flag_init_token token
              (flag_cluster_role RoleMember
                 (flag_api_server_key_file ""
                    (flag_api_server_cert_file ""
                       (flag_connector_public_addresses addrs
                          (flag_cluster cluster (AddFlags org))))))).
    rewrite Validate_defaults. cbv zeta.
    change (negb (RoleMember =? RoleHost)%string && negb (RoleMember =? RoleMember)%string)
      with false.
    change (RoleMember =? RoleMember)%string with true.
    change (RoleMember =? RoleHost)%string with false. cbv iota. cbn [andb].
    destruct cluster as [| a0 cluster0]; [split; [discriminate | intros [Hx _]; discriminate Hx] |].
    cbn [String.length Nat.eqb].
    destruct (DNS1123.IsDottedName (String a0 cluster0)); cbn [negb];
      [| split; [discriminate | intros [Hx _]; discriminate Hx]].
    destruct token; destruct addrs; cbn [String.length length Nat.eqb];
      split; try discriminate; try tauto;
      try (intros (_ & Ht & Ha); congruence);
      intros _; repeat split; discriminate.
Qed.

End WithPlatform.

End FlagsFacts.

(* ===================================================================== *)
(** * Properties of the start of the manager                               *)
(* ===================================================================== *)

Module StartupFacts.
Import Go GoNet Operator RecordFacts Startup.

(** Case analysis on every answer a function waits for. *)
Ltac answers :=
  repeat match goal with
         | |- context [match ?x with _ => _ end] =>
             lazymatch x with
             | context [match _ with _ => _ end] => fail
             | _ => destruct x eqn:?
             end
         | |- context [if ?c then _ else _] =>
             lazymatch c with
             | context [if _ then _ else _] => fail
             | _ => destruct c eqn:?
             end
         end.

Section WithControllers.
Context `{Ct : Controllers}.

(** The registrations [initializeControllers] is to make, in order. *)
Definition plan (opts : Options) : list Runnable :=
  ((if String.eqb (CNIType opts) CNICalico then [IPAMBlockMonitor] else [])
   ++ [ConnectorController; AgentController; CommunityController]
   ++ (if EnableProxy (Agent opts) then [ProxyController] else [])
   ++ [ClusterController]
   ++ (if String.eqb (ClusterRole opts) RoleHost
       then [LocalClusterReporter]
       else [LoadEndpointsAndCommunities; ExportEndpoints]))%list.

(** The blocks [recordIPAMBlocks] hands to the pod CIDR store. *)
Definition eligible (block : IPAMBlock) : bool :=
  negb (blockDeleted block)
  && bool_decide (is_Some (blockAffinity block))
  && negb (String.eqb (GetNodeName block) "").

Definition appendAll (blocks : list IPAMBlock) (store : PodCIDRs) : PodCIDRs :=
  fold_left (fun s block => podCIDRs_Append (GetNodeName block) (blockCIDR block) s)
    (List.filter eligible blocks) store.

Lemma appendBlocks_run (blocks : list IPAMBlock) (store : PodCIDRs) :
  appendBlocks blocks (Some store) = (true, Some (appendAll blocks store)).
Proof.
  revert store. induction blocks as [| block rest IH]; intros store; [reflexivity |].
  unfold appendAll. cbn [appendBlocks List.filter]. unfold eligible at 1.
  destruct (blockDeleted block); cbn [negb orb andb]; [apply IH |].
  destruct (bool_decide (is_Some (blockAffinity block))); cbn [negb andb]; [| apply IH].
  destruct (String.eqb (GetNodeName block) ""); cbn [negb]; [apply IH |].
  cbn [fold_left]. apply IH.
Qed.

Lemma appendBlocks_nil (blocks : list IPAMBlock) :
  appendBlocks blocks None
  = (match List.filter eligible blocks with [] => true | _ => false end, None).
Proof.
  induction blocks as [| block rest IH]; [reflexivity |].
  cbn [appendBlocks List.filter]. unfold eligible at 1.
  destruct (blockDeleted block); cbn [negb orb andb]; [apply IH |].
  destruct (bool_decide (is_Some (blockAffinity block))); cbn [negb andb]; [| apply IH].
  destruct (String.eqb (GetNodeName block) ""); cbn [negb]; [apply IH |].
  reflexivity.
Qed.

(** Run [initializeControllers] against every answer it can get. *)
Ltac boot :=
  unfold initializeControllers, bind, ret, check, managerAdd, addToManager,
    methodValue, recordIPAMBlocks, callRecordEndpoints, plan;
  cbv beta iota;
  cbn [podCIDRs recording attempted recLog app edgeNodeLabels logged];
  repeat (match goal with
          | |- context [match ?x with _ => _ end] =>
              lazymatch x with
              | context [match _ with _ => _ end] => fail
              | _ => destruct x eqn:?
              end
          | |- context [if ?c then _ else _] =>
              lazymatch c with
              | context [if _ then _ else _] => fail
              | _ => destruct c eqn:?
              end
          end; cbv beta iota; cbn [podCIDRs recording attempted recLog app]).

(** X19. The registrations [initializeControllers] asks for are an initial
    stretch of its plan (the IPAM block monitor under Calico; the connector,
    agent and community controllers; the proxy controller when the proxy is
    enabled; the cluster controller; the local cluster reporter in role
    host, else the two routines that talk to the host cluster): all but the
    last asked for were accepted, and the function returns nil exactly when
    the whole plan was asked for and accepted. *)
Theorem initializeControllers_plan (opts : Options) (p : Process) :
  (exists rest,
     plan opts = (attempted (snd (initializeControllers opts p)) ++ rest)%list) /\
  List.Forall (fun c => register c = None)
    (removelast (attempted (snd (initializeControllers opts p)))) /\
  (fst (initializeControllers opts p) = Returned None <->
   attempted (snd (initializeControllers opts p)) = plan opts /\
   List.Forall (fun c => register c = None) (plan opts)).
Proof.
  boot; cbn [fst snd attempted app removelast].
  all: (split; [eexists; reflexivity |]).
  all: (split; [repeat constructor; assumption |]).
  all: split.
  all: try (intros Hret; discriminate Hret).
  all: try (intros _; split; [reflexivity | repeat constructor; assumption]).
  all: intros [Hatt Hall]; try discriminate Hatt; try reflexivity.
  all: repeat match goal with
              | H : List.Forall _ (_ :: _) |- _ =>
                  apply List.Forall_cons_iff in H; destruct H
              end; try congruence.
Qed.

(** X20. Every error [initializeControllers] returns it has logged just
    before returning, once, and nothing else: the log then ends with this
    error, after what the process had logged or what [recordEndpoints] left
    in the log. When it returns nil it has logged nothing of its own. *)
Theorem initializeControllers_logs (opts : Options) (p : Process) :
  (forall e,
     fst (initializeControllers opts p) = Returned (Some e) ->
     exists msg,
       recLog (recording (snd (initializeControllers opts p)))
         = (logged p ++ [logError e msg])%list \/
       recLog (recording (snd (initializeControllers opts p)))
         = (recLog (snd (recordEndpoints opts p)) ++ [logError e msg])%list) /\
  (fst (initializeControllers opts p) = Returned None ->
   recLog (recording (snd (initializeControllers opts p)))
     = recLog (snd (recordEndpoints opts p))).
Proof.
  destruct p as [labels entries]. cbn [logged edgeNodeLabels].
  boot; cbn [fst snd recording recLog with_log logged].
  all: split; [intros e0 Hret | intros Hret]; try discriminate Hret.
  all: try reflexivity.
  all: injection Hret as <-; eexists; eauto.
Qed.

(** X21. The pod CIDR store after [initializeControllers]. With a CNI type
    other than calico it is not touched. Under Calico, once the IPAM blocks
    are listed, the store has received, in the order listed, the CIDR of
    every block that is not deleted, has an affinity and a node name, under
    that node name, and of no other block; if there is no store, the
    function panics at the first such block, before any registration. *)
Theorem initializeControllers_podCIDRs (opts : Options) (p : Process) :
  (CNIType opts <> CNICalico ->
   podCIDRs (snd (initializeControllers opts p)) = PodCIDRStore opts) /\
  (forall cli blocks,
     CNIType opts = CNICalico ->
     Manager opts = Some cli ->
     client_ListIPAMBlocks cli = Val blocks ->
     (forall store,
        PodCIDRStore opts = Some store ->
        podCIDRs (snd (initializeControllers opts p))
          = Some (appendAll blocks store)) /\
     (PodCIDRStore opts = None ->
      List.filter eligible blocks <> [] ->
      initializeControllers opts p
        = (Panicked,
           mkBoot None
             (mkRecording (Store opts) (AgentAllocator (Agent opts)) (logged p))
             []))).
Proof.
  split.
  - intros Hcni. apply String.eqb_neq in Hcni.
    unfold initializeControllers. rewrite Hcni.
    boot; reflexivity.
  - intros cli blocks Hcni Hm Hl. apply String.eqb_eq in Hcni. split.
    + intros store Hs.
      unfold initializeControllers, recordIPAMBlocks, bind at 1 2.
      rewrite Hcni, Hm, Hl. cbn [podCIDRs]. rewrite Hs, appendBlocks_run.
      boot; reflexivity.
    + intros Hs Hel.
      unfold initializeControllers, recordIPAMBlocks, bind at 1 2.
      rewrite Hcni, Hm, Hl. cbn [podCIDRs]. rewrite Hs, appendBlocks_nil.
      destruct (List.filter eligible blocks); [contradiction | reflexivity].
Qed.

(** X22. After a [Complete] that loaded the kubeconfig and returned nil,
    [initializeControllers] does not panic (the options had edge IPAM off,
    as the flags leave it, or the CNI type is calico): everything it
    dereferences has been set by [Complete]. *)
Theorem initializeControllers_after_Complete (opts opts' : Options) (p p' : Process)
    (cfg : RestConfig) :
  Complete opts p = (opts', p', None) ->
  config_GetConfig = Val cfg ->
  EnableEdgeIPAM (Agent opts) = false \/ TrimSpace (CNIType opts) = CNICalico ->
  fst (initializeControllers opts' p') <> Panicked.
Proof.
  intros Hc Hcfg Hipam.
  pose proof (CompleteMore.Complete_frame opts p) as (Hin & _ & Hcni & _).
  rewrite Hc in Hin, Hcni. cbn [fst snd] in Hin, Hcni.
  assert (Hrole : ClusterRole opts' = ClusterRole opts).
  { unfold CompleteMore.validate_inputs in Hin. congruence. }
  destruct (CompleteMore.Complete_nil_inv _ _ _ _ Hc) as [(err & Hfail & _) | (_ & Hdone)];
    [congruence |].
  destruct Hdone as ((cli & Hm) & Hs & (f & Hf) & _ & _ & _ & Hcal & Hother & _ & Hmem).
  destruct (CompleteMore.recordEndpoints_fresh opts' p' cli f Hm Hs Hf) as (r & Hrun & _).
  { intros Hon.
    destruct (String.eqb_spec (TrimSpace (CNIType opts)) CNICalico) as [Hy | Hn].
    - apply (Hcal Hy).
    - rewrite (Hother Hn) in Hon. destruct Hipam as [Hoff | Hy]; congruence. }
  destruct p' as [labels entries].
  unfold initializeControllers, recordIPAMBlocks, callRecordEndpoints, managerAdd,
    methodValue.
  cbn [logged edgeNodeLabels podCIDRs recording recLog].
  rewrite Hm, Hcni, Hrole.
  destruct (String.eqb_spec (TrimSpace (CNIType opts)) CNICalico) as [Hy | Hn];
    destruct (String.eqb_spec (ClusterRole opts) RoleHost) as [Hh | Hh].
  - destruct (Hcal Hy) as (_ & _ & (store & Hst)). rewrite Hst.
    unfold bind at 1 2. cbn [podCIDRs].
    destruct (client_ListIPAMBlocks cli) as [blocks | e]; [rewrite appendBlocks_run |];
      boot; cbn [fst]; congruence.
  - destruct (Hcal Hy) as (_ & _ & (store & Hst)). rewrite Hst.
    destruct (Hmem Hh) as ((api & Hapi) & _). rewrite Hapi.
    unfold bind at 1 2. cbn [podCIDRs].
    destruct (client_ListIPAMBlocks cli) as [blocks | e]; [rewrite appendBlocks_run |];
      boot; cbn [fst]; congruence.
  - boot; cbn [fst]; congruence.
  - destruct (Hmem Hh) as ((api & Hapi) & _). rewrite Hapi.
    boot; cbn [fst]; congruence.
Qed.

(** X23. [RunManager] panics when the manager is nil, before adding
    anything. With the options of the flags, which have no manager, this is
    what follows a [Complete] that returned nil because the kubeconfig could
    not be loaded; after a [Complete] that returned nil having loaded it,
    [RunManager] does not panic. *)
Theorem RunManager_after_Complete (opts opts' : Options) (p p' : Process) :
  Manager opts = None ->
  Complete opts p = (opts', p', None) ->
  (forall err, config_GetConfig = Fail err ->
               RunManager opts' p' = (Panicked, mkRun [] false (logged p'))) /\
  (forall cfg, config_GetConfig = Val cfg ->
               fst (RunManager opts' p') <> Panicked).
Proof.
  intros Hnil Hc.
  destruct (CompleteMore.Complete_nil_inv _ _ _ _ Hc)
    as [(err & Hfail & Hsame) | ((cfg & Hcfg) & Hdone)].
  - injection Hsame as Hm _ _ _. split.
    + intros _ _. unfold RunManager. rewrite Hm, Hnil. reflexivity.
    + intros cfg Hcfg. congruence.
  - destruct Hdone as ((mgr & Hm) & _). split.
    + intros err Hfail. congruence.
    + intros _ _. unfold RunManager. rewrite Hm.
      destruct (register InitRunnable); [discriminate |].
      destruct (String.eqb (ClusterRole opts') RoleHost);
        [destruct (register APIServerRunnable); [discriminate |] |];
        destruct (manager_Start mgr); discriminate.
Qed.

(** X24. [RunManager] calls [Start] exactly when there is a manager and it
    accepted the runnables: the one that initializes the controllers and,
    in role host only, the API server. It returns nil exactly when [Start]
    was called and returned nil. *)
Theorem RunManager_start (opts : Options) (p : Process) :
  (started (snd (RunManager opts p)) = true <->
   is_Some (Manager opts) /\
   added (snd (RunManager opts p))
     = InitRunnable ::
       (if String.eqb (ClusterRole opts) RoleHost then [APIServerRunnable] else []) /\
   List.Forall (fun c => register c = None) (added (snd (RunManager opts p)))) /\
  (fst (RunManager opts p) = Returned None <->
   started (snd (RunManager opts p)) = true /\
   exists mgr, Manager opts = Some mgr /\ manager_Start mgr = None).
Proof.
  unfold RunManager.
  destruct (Manager opts) as [mgr |] eqn:Hm; cbn [fst snd started added].
  - destruct (register InitRunnable) eqn:Hinit; cbn [fst snd started added].
    + split; split; try discriminate.
      * intros (_ & _ & Hall). apply List.Forall_cons_iff in Hall as [Hn _]. congruence.
      * intros [Hs _]. discriminate Hs.
    + destruct (String.eqb (ClusterRole opts) RoleHost);
        [destruct (register APIServerRunnable) eqn:Hapi |];
        try destruct (manager_Start mgr) eqn:Hstart;
        cbn [fst snd started added];
        (split; split; try discriminate; try reflexivity).
      all: try (intros _; split; [eexists; reflexivity |];
                split; [reflexivity | repeat constructor; assumption]).
      all: try (intros (_ & _ & Hall);
                repeat (apply List.Forall_cons_iff in Hall as [? Hall]); congruence).
      all: try (intros [Hs _]; discriminate Hs).
      all: try (intros [_ (mgr' & [= <-] & Hn)]; congruence).
      all: try (intros _; split; [reflexivity | eexists; split; [reflexivity | assumption]]).
  - split; split; try discriminate.
    + intros [[mgr Hs] _]. discriminate Hs.
    + intros [Hs _]. discriminate Hs.
Qed.

End WithControllers.

(** ** On the lab cluster *)

(** A manager that accepts every registration and starts, and one Calico
    block held by a cloud node. *)
Definition labControllers (a : Lab.Answers) : @Controllers _ (Lab.platform a) :=
  @Build_Controllers _ (Lab.platform a)
    (fun block => default "" (blockAffinity block))
    (fun _ => Val [mkIPAMBlock "10.233.64.0/26" (Some "cloud1") false])
    (fun _ _ store => store)
    (fun _ => None)
    (fun _ => None).

Lemma fromFlags_completes :
  snd (Complete CompleteClaims.fromFlags Lab.startProcess) = None.
Proof. vm_compute. reflexivity. Qed.

Lemma initializeControllers_after_Complete_witness :
  fst (@initializeControllers _ _ (labControllers RecordClaims.threeNodes)
         (fst (fst (Complete CompleteMore.calicoTrimmed Lab.startProcess)))
         (snd (fst (Complete CompleteMore.calicoTrimmed Lab.startProcess))))
  <> Panicked.
Proof.
  exact (@initializeControllers_after_Complete _ _
           (labControllers RecordClaims.threeNodes)
           CompleteMore.calicoTrimmed
           (fst (fst (Complete CompleteMore.calicoTrimmed Lab.startProcess)))
           Lab.startProcess
           (snd (fst (Complete CompleteMore.calicoTrimmed Lab.startProcess)))
           tt (CompleteMore.returned_nil _ CompleteMore.calico_completes)
           eq_refl (or_introl eq_refl)).
Defined.

Lemma RunManager_after_Complete_witness :
  (forall err,
     @config_GetConfig _ (Lab.platform CompleteClaims.noKubeconfig) = Fail err ->
     @RunManager _ _ (labControllers CompleteClaims.noKubeconfig)
       (fst (fst (Complete CompleteClaims.fromFlags Lab.startProcess)))
       (snd (fst (Complete CompleteClaims.fromFlags Lab.startProcess)))
     = (Panicked,
        mkRun [] false
          (logged (snd (fst (Complete CompleteClaims.fromFlags Lab.startProcess)))))) /\
  (forall cfg,
     @config_GetConfig _ (Lab.platform CompleteClaims.noKubeconfig) = Val cfg ->
     fst (@RunManager _ _ (labControllers CompleteClaims.noKubeconfig)
            (fst (fst (Complete CompleteClaims.fromFlags Lab.startProcess)))
            (snd (fst (Complete CompleteClaims.fromFlags Lab.startProcess))))
     <> Panicked).
Proof.
  exact (@RunManager_after_Complete _ _
           (labControllers CompleteClaims.noKubeconfig)
           CompleteClaims.fromFlags
           (fst (fst (Complete CompleteClaims.fromFlags Lab.startProcess)))
           Lab.startProcess
           (snd (fst (Complete CompleteClaims.fromFlags Lab.startProcess)))
           eq_refl (CompleteMore.returned_nil _ fromFlags_completes)).
Defined.

End StartupFacts.

(* ===================================================================== *)
(** * Properties of the API client initialization                          *)
(* ===================================================================== *)

Module APIClientFacts.
Import Go GoNet Operator APIClientInit.

Section WithPKI.
Context `{Pk : ClientPKI}.

(** The secret [createTLSSecretForClient] creates when the request is
    made and signed. *)
Definition issued (opts : Options) (cacert : Certificate) (secret : Secret) : Prop :=
  exists keyDER csrDER cert,
    certutil_NewCertRequest (Cluster opts ++ ".fabedge-client") [CertOrganization opts]
      = Val (keyDER, csrDER) /\
    fclient_SignCertByToken (APIServerAddress opts) (InitToken opts) csrDER cacert
      = Val cert /\
    secret = TLSSecret ClientTLSSecretName (Namespace opts) keyDER
               (cert_PEM cert) (cert_PEM cacert).

Ltac run :=
  unfold initAPIClient, createTLSSecretForClient, call, log_Error;
  cbv zeta; cbn [calls logs app];
  repeat (match goal with
          | |- context [match ?x with _ => _ end] =>
              lazymatch x with
              | context [match _ with _ => _ end] => fail
              | _ => destruct x eqn:?
              end
          end; cbn [calls logs app fst snd]).

(** X25. The init token leaves the operator only when the secret
    api-client-tls is not found in the namespace of the options, and then
    goes, once, with the certificate request to the API server address of
    the options; a secret is created only after that request was signed, and
    under the very name and namespace that were looked up. *)
Theorem initAPIClient_token (opts : Options) (kubeClient : KubeClient)
    (cacert : Certificate) :
  (forall address token csr,
     In (Call_SignCertByToken address token csr)
        (calls (snd (initAPIClient opts kubeClient cacert))) ->
     (exists err, kube_Get kubeClient ClientTLSSecretName (Namespace opts)
                  = NotFound err) /\
     address = APIServerAddress opts /\ token = InitToken opts) /\
  (forall secret,
     In (Call_kube_Create secret) (calls (snd (initAPIClient opts kubeClient cacert))) ->
     (exists err, kube_Get kubeClient ClientTLSSecretName (Namespace opts)
                  = NotFound err) /\
     issued opts cacert secret /\
     secName secret = ClientTLSSecretName /\
     secNamespace secret = Namespace opts) /\
  (length (List.filter
             (fun c => match c with Call_SignCertByToken _ _ _ => true | _ => false end)
             (calls (snd (initAPIClient opts kubeClient cacert)))) <= 1)%nat.
Proof.
  unfold issued. run.
  all: split; [| split]; [intros address token csr Hin | intros secret0 Hin | cbn; lia].
  all: cbn [In] in Hin;
    repeat match goal with
           | Hor : _ \/ _ |- _ => destruct Hor as [Hor | Hor]
           end;
    try contradiction; try discriminate Hin.
  all: injection Hin as <-.
  all: try (subst; split; [eexists; reflexivity | split; reflexivity]).
  all: split; [eexists; reflexivity |];
    (split; [eexists _, _, _; repeat split; eassumption | split; reflexivity]).
Qed.

(** X26. [initAPIClient] assigns a client exactly when it has a secret,
    the one found or else the one it could request, have signed and create,
    the certificate and key of that secret make a key pair, and
    [fclient.NewClient] accepts them. *)
Theorem initAPIClient_ok (opts : Options) (kubeClient : KubeClient)
    (cacert : Certificate) (cli : FClient) :
  fst (initAPIClient opts kubeClient cacert) = APIClientOk cli <->
  exists secret pair,
    (kube_Get kubeClient ClientTLSSecretName (Namespace opts) = Found secret \/
     ((exists err, kube_Get kubeClient ClientTLSSecretName (Namespace opts)
                   = NotFound err) /\
      issued opts cacert secret /\
      kube_Create kubeClient secret = None)) /\
    tls_X509KeyPair (fst (secretutil_GetCertAndKey secret))
      (snd (secretutil_GetCertAndKey secret)) = Val pair /\
    fclient_NewClient (APIServerAddress opts) (Cluster opts) cacert pair = Val cli.
Proof.
  unfold issued. split.
  - run; intros Hok; try discriminate Hok; injection Hok as <-.
    + eexists _, _. split; [left; reflexivity |].
      match goal with Hp : secretutil_GetCertAndKey _ = _ |- _ => rewrite Hp end.
      split; eassumption.
    + eexists _, _. split.
      * right. split; [eexists; reflexivity |].
        split; [eexists _, _, _; repeat split; eassumption | eassumption].
      * match goal with Hp : secretutil_GetCertAndKey _ = _ |- _ => rewrite Hp end.
        split; eassumption.
  - intros (secret & pair & Hsec & Hpair & Hcli).
    unfold initAPIClient.
    destruct Hsec as [Hfound | ((err & Hnf) & (keyDER & csrDER & cert & Hreq & Hsign & ->) & Hcreate)].
    + rewrite Hfound. cbv zeta.
      destruct (secretutil_GetCertAndKey secret) as [certPEM keyPEM].
      cbn [fst snd] in Hpair. rewrite Hpair, Hcli. reflexivity.
    + rewrite Hnf. unfold createTLSSecretForClient. cbv zeta.
      rewrite Hreq, Hsign, Hcreate.
      destruct (secretutil_GetCertAndKey _) as [certPEM keyPEM].
      cbn [fst snd] in Hpair. rewrite Hpair, Hcli. reflexivity.
Qed.

End WithPKI.

End APIClientFacts.
